(** * arrested-bot: the posting queue of [src/bot.ts]

    A shallow embedding of the single-file bot: the clip database is the
    JavaScript object that [JSON.parse] returns, the run is a state-passing
    program over the file system, the clock, the console and the remote
    agent, and every effect is recorded in a trace. *)

From Stdlib Require Import ZArith String Ascii List Bool Lia.
From Stdlib Require Import Decimal DecimalString DecimalZ DecimalFacts.
From stdpp Require Import base tactics option list strings gmap.

Local Open Scope Z_scope.
Local Open Scope string_scope.

(** ** Characters that a Rocq string literal cannot hold directly *)

Definition DQ : ascii := "034"%char.
Definition LF : ascii := "010"%char.

(** ** JavaScript values *)

(** What [JSON.parse] can build, and what the bot keeps in memory.  The
    JavaScript value [undefined] (a missing property) is [None] in
    [option value].  Objects keep their properties in creation order, which
    is the order [JSON.stringify] writes them in.  A number is an integer;
    it stands for a JavaScript number when it has at most fifteen digits,
    which is all that [JSON_parse] returns (a longer one is not a double,
    and JavaScript would not print its digits). *)
Unset Elimination Schemes.
Inductive value : Type :=
| VNull
| VBool (b : bool)
| VNum (n : Z)
| VStr (s : string)
| VArr (items : list value)
| VObj (props : list (string * value)).
Set Elimination Schemes.

(** Errors the run can throw.  [main] reports [error.message] and exits
    with status 1 whatever the constructor is. *)
Inductive exn : Type :=
| SyntaxError                       (* JSON.parse *)
| TypeError                         (* property of null/undefined, call of a non-function *)
| VideoFileNotFound (path : string) (* new Error(`Video file not found: ${videoPath}`) *)
| FsError (path : string)           (* readFileSync / writeFileSync *)
| LoginError (msg : string)         (* agent.login rejected *)
| UploadError (msg : string)        (* agent.uploadBlob rejected *)
| PostError (msg : string).         (* agent.post rejected *)

(** Outcome of a computation.  [Exit] is [process.exit(code)], which no
    [catch] intercepts.  [OutOfModel] marks behaviour of JavaScript that this
    development does not describe (it is never a behaviour of the program):
    string conversion and identity of objects, properties of values that
    are not objects, and JSON text outside the fragment of [JSON_parse]. *)
Inductive result (A : Type) : Type :=
| Ok (a : A)
| Throw (e : exn)
| Exit (code : Z)
| OutOfModel.
Arguments Ok {A} a.
Arguments Throw {A} e.
Arguments Exit {A} code.
Arguments OutOfModel {A}.

Definition rbind {A B : Type} (r : result A) (k : A -> result B) : result B :=
  match r with
  | Ok a => k a
  | Throw e => Throw e
  | Exit c => Exit c
  | OutOfModel => OutOfModel
  end.

Notation "'let*' x ':=' c 'in' k" := (rbind c (fun x => k))
  (at level 10, x pattern, c at level 100, k at level 200).

(** *** Property access, assignment, truthiness, [===], string conversion *)

(** Own property lookup in an object. *)
Fixpoint assoc (k : string) (props : list (string * value)) : option value :=
  match props with
  | [] => None
  | (k', v) :: ps => if String.eqb k k' then Some v else assoc k ps
  end.

(** [o.k = v] on the properties of an object: an existing property keeps its
    place, a new one is added last.  ([JSON.parse] defines the members of an
    object the same way, so a repeated key keeps its first position and its
    last value.) *)
Fixpoint assign (k : string) (v : value) (props : list (string * value))
  : list (string * value) :=
  match props with
  | [] => [(k, v)]
  | (k', v') :: ps =>
      if String.eqb k k' then (k', v) :: ps else (k', v') :: assign k v ps
  end.

(** [o.k] for the property names the bot reads. *)
Definition get (o : option value) (k : string) : result (option value) :=
  match o with
  | None | Some VNull => Throw TypeError
  | Some (VObj props) => Ok (assoc k props)
  | Some _ => OutOfModel
  end.

(** [o.k = v] *)
Definition set (o : value) (k : string) (v : value) : result value :=
  match o with
  | VObj props => Ok (VObj (assign k v props))
  | _ => OutOfModel
  end.

(** ToBoolean *)
Definition truthy (v : option value) : bool :=
  match v with
  | None | Some VNull => false
  | Some (VBool b) => b
  | Some (VNum n) => negb (n =? 0)%Z
  | Some (VStr s) => negb (String.eqb s "")
  | Some (VArr _) | Some (VObj _) => true
  end.

Definition string_of_Z (n : Z) : string := NilZero.string_of_int (Z.to_int n).

(** ToString, as a template literal applies it. *)
Definition ToString (v : option value) : result string :=
  match v with
  | None => Ok "undefined"
  | Some VNull => Ok "null"
  | Some (VBool true) => Ok "true"
  | Some (VBool false) => Ok "false"
  | Some (VNum n) => Ok (string_of_Z n)
  | Some (VStr s) => Ok s
  | Some (VArr _) | Some (VObj _) => OutOfModel
  end.

(** [a === b].  Two objects are equal when they are the same object, which
    a value alone does not tell. *)
Definition strict_eq (a b : option value) : result bool :=
  match a, b with
  | None, None => Ok true
  | Some VNull, Some VNull => Ok true
  | Some (VBool x), Some (VBool y) => Ok (Bool.eqb x y)
  | Some (VNum x), Some (VNum y) => Ok (x =? y)%Z
  | Some (VStr x), Some (VStr y) => Ok (String.eqb x y)
  | Some (VArr _), Some (VArr _) | Some (VArr _), Some (VObj _)
  | Some (VObj _), Some (VArr _) | Some (VObj _), Some (VObj _) => OutOfModel
  | _, _ => Ok false
  end.

(** [Array.prototype.find] with a callback that may throw: the index and
    the element of the first hit. *)
Fixpoint find_from (p : value -> result bool) (i : nat) (l : list value)
  : result (option (nat * value)) :=
  match l with
  | [] => Ok None
  | x :: xs =>
      rbind (p x) (fun b => if b then Ok (Some (i, x)) else find_from p (S i) xs)
  end.

(** [Array.prototype.filter(...).length] with a callback that may throw. *)
Fixpoint count_if (p : value -> result bool) (l : list value) : result nat :=
  match l with
  | [] => Ok 0%nat
  | x :: xs =>
      rbind (p x) (fun b =>
      rbind (count_if p xs) (fun n => Ok (if b then S n else n)))
  end.

(** ** JSON text *)

(** *** [JSON.stringify(v, null, 2)] *)

(** As JavaScript writes the values of the fragment of [JSON_parse]:
    strings in ASCII, integers in decimal, properties in their order. *)

Definition hex_digit (n : N) : ascii :=
  ascii_of_N (if (n <? 10)%N then 48 + n else 87 + n)%N.

(** QuoteJSONString, one character at a time. *)
Definition escape_char (c : ascii) : string :=
  let n := N_of_ascii c in
  if (n =? 8)%N then "\b"
  else if (n =? 9)%N then "\t"
  else if (n =? 10)%N then "\n"
  else if (n =? 12)%N then "\f"
  else if (n =? 13)%N then "\r"
  else if (n =? 34)%N then String "\" (String DQ "")
  else if (n =? 92)%N then "\\"
  else if (n <? 32)%N then
    "\u00" +:+ String (hex_digit (n / 16)) (String (hex_digit (n mod 16)) "")
  else String c "".

Fixpoint escape (s : string) : string :=
  match s with
  | EmptyString => ""
  | String c r => escape_char c +:+ escape r
  end.

Definition quote (s : string) : string :=
  String DQ (escape s +:+ String DQ "").

Fixpoint spaces (n : nat) : string :=
  match n with
  | O => ""
  | S n' => String " " (spaces n')
  end.

Definition newline (ind : nat) : string := String LF (spaces ind).

(** The serialisation of [v] when the enclosing indentation is [ind]
    spaces; a gap of two spaces per level. *)
Fixpoint stringify_at (ind : nat) (v : value) : string :=
  match v with
  | VNull => "null"
  | VBool true => "true"
  | VBool false => "false"
  | VNum n => string_of_Z n
  | VStr s => quote s
  | VArr [] => "[]"
  | VArr (x :: xs) =>
      "[" +:+ newline (2 + ind) +:+ stringify_at (2 + ind) x
      +:+ (fix more (l : list value) : string :=
             match l with
             | [] => ""
             | y :: ys =>
                 "," +:+ newline (2 + ind) +:+ stringify_at (2 + ind) y
                 +:+ more ys
             end) xs
      +:+ newline ind +:+ "]"
  | VObj [] => "{}"
  | VObj ((k, x) :: ps) =>
      "{" +:+ newline (2 + ind) +:+ quote k +:+ ": " +:+ stringify_at (2 + ind) x
      +:+ (fix more (l : list (string * value)) : string :=
             match l with
             | [] => ""
             | (k', y) :: ys =>
                 "," +:+ newline (2 + ind) +:+ quote k' +:+ ": "
                 +:+ stringify_at (2 + ind) y +:+ more ys
             end) ps
      +:+ newline ind +:+ "}"
  end.

Definition JSON_stringify (v : value) : string := stringify_at 0 v.

(** *** [JSON.parse]

    The fragment described: JSON text in ASCII whose numbers are integer
    literals of at most 15 digits and whose object keys are not written
    in digits only.  On it the parser below answers as [JSON.parse] does
    ([Ok] or [Throw SyntaxError]); outside it the answer is [OutOfModel]
    (a fraction or exponent is a double, a digit key is ordered by value,
    other characters are UTF-16 code units). *)

Definition is_ws (c : ascii) : bool :=
  let n := N_of_ascii c in
  ((n =? 32) || (n =? 9) || (n =? 10) || (n =? 13))%N.

Fixpoint skip_ws (s : string) : string :=
  match s with
  | EmptyString => s
  | String c r => if is_ws c then skip_ws r else s
  end.

Definition hex_value (c : ascii) : option N :=
  let n := N_of_ascii c in
  if ((48 <=? n) && (n <=? 57))%N then Some (n - 48)%N
  else if ((97 <=? n) && (n <=? 102))%N then Some (n - 87)%N
  else if ((65 <=? n) && (n <=? 70))%N then Some (n - 55)%N
  else None.

(** The character a two-character escape stands for. *)
Definition simple_escape (c : ascii) : option ascii :=
  let n := N_of_ascii c in
  if (n =? 34)%N then Some DQ
  else if (n =? 92)%N then Some "\"%char
  else if (n =? 47)%N then Some "/"%char
  else if (n =? 98)%N then Some "008"%char
  else if (n =? 102)%N then Some "012"%char
  else if (n =? 110)%N then Some LF
  else if (n =? 114)%N then Some "013"%char
  else if (n =? 116)%N then Some "009"%char
  else None.

Definition push_char (c : ascii) (r : result (string * string))
  : result (string * string) :=
  let* p := r in Ok (String c (fst p), snd p).

(** The characters of a string literal after its opening quote, and the
    text after its closing quote. *)
Fixpoint read_chars (s : string) : result (string * string) :=
  match s with
  | EmptyString => Throw SyntaxError
  | String c r =>
      let n := N_of_ascii c in
      if (n =? 34)%N then Ok ("", r)
      else if (n =? 92)%N then
        match r with
        | EmptyString => Throw SyntaxError
        | String e r' =>
            match simple_escape e with
            | Some ch => push_char ch (read_chars r')
            | None =>
                if (N_of_ascii e =? 117)%N then
                  match r' with
                  | String h3 (String h2 (String h1 (String h0 r''))) =>
                      match hex_value h3, hex_value h2, hex_value h1, hex_value h0 with
                      | Some a, Some b, Some c', Some d =>
                          let code := (((a * 16 + b) * 16 + c') * 16 + d)%N in
                          if (code <? 128)%N
                          then push_char (ascii_of_N code) (read_chars r'')
                          else OutOfModel
                      | _, _, _, _ => Throw SyntaxError
                      end
                  | _ => Throw SyntaxError
                  end
                else Throw SyntaxError
            end
        end
      else if (n <? 32)%N then Throw SyntaxError
      else if (128 <=? n)%N then OutOfModel
      else push_char c (read_chars r)
  end.

Definition digit_of (c : ascii) : option (uint -> uint) :=
  let n := N_of_ascii c in
  if (n =? 48)%N then Some D0 else if (n =? 49)%N then Some D1
  else if (n =? 50)%N then Some D2 else if (n =? 51)%N then Some D3
  else if (n =? 52)%N then Some D4 else if (n =? 53)%N then Some D5
  else if (n =? 54)%N then Some D6 else if (n =? 55)%N then Some D7
  else if (n =? 56)%N then Some D8 else if (n =? 57)%N then Some D9
  else None.

(** The longest run of digits at the head of [s]. *)
Fixpoint read_digits (s : string) : uint * string :=
  match s with
  | EmptyString => (Nil, s)
  | String c r =>
      match digit_of c with
      | Some d => let p := read_digits r in (d (fst p), snd p)
      | None => (Nil, s)
      end
  end.

Definition starts_fraction_or_exponent (s : string) : bool :=
  match s with
  | String c _ =>
      let n := N_of_ascii c in ((n =? 46) || (n =? 101) || (n =? 69))%N
  | EmptyString => false
  end.

(** The digits of a number literal (after its sign). *)
Definition read_unsigned (s : string) : result (uint * string) :=
  let p := read_digits s in
  match fst p with
  | Nil => Throw SyntaxError
  | D0 Nil | D1 _ | D2 _ | D3 _ | D4 _ | D5 _ | D6 _ | D7 _ | D8 _ | D9 _ =>
      if starts_fraction_or_exponent (snd p) then OutOfModel
      else if (15 <? nb_digits (fst p))%nat then OutOfModel
      else Ok p
  | D0 _ => Throw SyntaxError
  end.

Definition read_number (s : string) : result (value * string) :=
  match s with
  | String "-" r =>
      let* p := read_unsigned r in Ok (VNum (Z.of_int (Neg (fst p))), snd p)
  | _ =>
      let* p := read_unsigned s in Ok (VNum (Z.of_int (Pos (fst p))), snd p)
  end.

Fixpoint strip_prefix (p s : string) : option string :=
  match p, s with
  | EmptyString, _ => Some s
  | String a p', String b s' => if Ascii.eqb a b then strip_prefix p' s' else None
  | String _ _, EmptyString => None
  end.

Fixpoint all_digits (s : string) : bool :=
  match s with
  | EmptyString => true
  | String c r => match digit_of c with Some _ => all_digits r | None => false end
  end.

(** A key that JavaScript would order as an integer index. *)
Definition digit_key (k : string) : bool :=
  match k with
  | EmptyString => false
  | _ => all_digits k
  end.

(** Recursive descent; [fuel] bounds the number of nested calls.
    [JSON_parse] supplies twice the length of the text, past which more
    fuel never changes the answer. *)
Fixpoint parse_value (fuel : nat) (s : string) {struct fuel}
  : result (value * string) :=
  match fuel with
  | O => OutOfModel
  | S fuel' =>
      match skip_ws s with
      | EmptyString => Throw SyntaxError
      | String c r =>
          let n := N_of_ascii c in
          if (n =? 123)%N then
            match skip_ws r with
            | String "}" r' => Ok (VObj [], r')
            | r' => parse_members fuel' r' []
            end
          else if (n =? 91)%N then
            match skip_ws r with
            | String "]" r' => Ok (VArr [], r')
            | r' => parse_elements fuel' r' []
            end
          else if (n =? 34)%N then
            let* p := read_chars r in Ok (VStr (fst p), snd p)
          else
            match strip_prefix "true" (String c r),
                  strip_prefix "false" (String c r),
                  strip_prefix "null" (String c r) with
            | Some r', _, _ => Ok (VBool true, r')
            | _, Some r', _ => Ok (VBool false, r')
            | _, _, Some r' => Ok (VNull, r')
            | None, None, None => read_number (String c r)
            end
      end
  end

(** The elements of an array after [acc] (held in reverse), up to and
    including the closing bracket. *)
with parse_elements (fuel : nat) (s : string) (acc : list value) {struct fuel}
  : result (value * string) :=
  match fuel with
  | O => OutOfModel
  | S fuel' =>
      let* p := parse_value fuel' s in
      match skip_ws (snd p) with
      | String "," r => parse_elements fuel' r (fst p :: acc)
      | String "]" r => Ok (VArr (rev (fst p :: acc)), r)
      | _ => Throw SyntaxError
      end
  end

(** The members of an object after those already defined in [acc], up to
    and including the closing brace. *)
with parse_members (fuel : nat) (s : string) (acc : list (string * value))
  {struct fuel} : result (value * string) :=
  match fuel with
  | O => OutOfModel
  | S fuel' =>
      match skip_ws s with
      | String c r =>
          if (N_of_ascii c =? 34)%N then
            let* k := read_chars r in
            if digit_key (fst k) then OutOfModel
            else
              match skip_ws (snd k) with
              | String ":" r' =>
                  let* p := parse_value fuel' r' in
                  match skip_ws (snd p) with
                  | String "," r'' =>
                      parse_members fuel' r'' (assign (fst k) (fst p) acc)
                  | String "}" r'' =>
                      Ok (VObj (assign (fst k) (fst p) acc), r'')
                  | _ => Throw SyntaxError
                  end
              | _ => Throw SyntaxError
              end
          else Throw SyntaxError
      | EmptyString => Throw SyntaxError
      end
  end.

Definition JSON_parse (text : string) : result value :=
  let* p := parse_value (2 * String.length text + 2) text in
  match skip_ws (snd p) with
  | EmptyString => Ok (fst p)
  | String _ _ => Throw SyntaxError
  end.

(** ** The world of a run *)

(** A path of the file system holds a regular file or something that
    exists but cannot be read as one. *)
Inductive fsnode : Type :=
| File (content : string)
| Directory.

(** The record handed to [agent.post]. *)
Record post_record : Type := {
  text : string;
  embed_type : string;
  video : string;
  alt : value;
  createdAt : string
}.

(** How a [writeFileSync] can go: the file is opened for writing (which
    empties it) and the data is written in place. *)
Inductive write_fault : Type :=
| NoFault
| OpenFails
| FailsAfter (written : nat).

(** What the run does not decide: the environment variables, the clock,
    the answers of the remote service and the faults of the disk. *)
Record World : Type := {
  BLUESKY_USERNAME : option string;
  BLUESKY_APP_PASSWORD : option string;
  clock : nat -> Z;
  toISOString : Z -> string;
  agent_login : option string -> option string -> option string;
  agent_uploadBlob : string -> string -> string + string;
  agent_post : post_record -> option string;
  write_fault_of : string -> string -> write_fault
}.

Inductive event : Type :=
| EvLog (line : string)
| EvError (line : string)
| EvReport (e : exn)
| EvExists (path : string) (found : bool)
| EvRead (path : string)
| EvWrite (path : string) (data : string)
| EvLogin (identifier password : option string) (ok : bool)
| EvUpload (data : string) (encoding : string) (ok : bool)
| EvPost (p : post_record) (ok : bool).

(** What changes during a run: the disk, the number of clock readings
    taken, and the effects so far. *)
Record State : Type := {
  disk : gmap string fsnode;
  ticks : nat;
  trace : list event
}.

(** The state after one more reading of the clock. *)
Definition tick (st : State) : State :=
  {| disk := disk st; ticks := S (ticks st); trace := trace st |}.

(** The state after one more effect. *)
Definition record_event (e : event) (st : State) : State :=
  {| disk := disk st; ticks := ticks st; trace := trace st ++ [e] |}.

Definition M (A : Type) : Type := State -> result A * State.

Definition ret {A : Type} (a : A) : M A := fun st => (Ok a, st).

Definition bind {A B : Type} (m : M A) (k : A -> M B) : M B :=
  fun st =>
    match m st with
    | (Ok a, st') => k a st'
    | (Throw e, st') => (Throw e, st')
    | (Exit c, st') => (Exit c, st')
    | (OutOfModel, st') => (OutOfModel, st')
    end.

Notation "x <- c1 ;; c2" := (bind c1 (fun x => c2))
  (at level 100, c1 at next level, right associativity).
Notation "c1 ;; c2" := (bind c1 (fun _ => c2))
  (at level 100, right associativity).

Definition lift {A : Type} (r : result A) : M A := fun st => (r, st).

Definition throw {A : Type} (e : exn) : M A := lift (Throw e).

Definition process_exit {A : Type} (code : Z) : M A := lift (Exit code).

(** [try { m } catch (error) { h error }] *)
Definition try_catch {A : Type} (m : M A) (h : exn -> M A) : M A :=
  fun st =>
    match m st with
    | (Throw e, st') => h e st'
    | r => r
    end.

Definition emit (e : event) : M unit := fun st => (Ok tt, record_event e st).

Definition console_log (line : string) : M unit := emit (EvLog line).
Definition console_error (line : string) : M unit := emit (EvError line).

Definition existsSync (path : string) : M bool :=
  fun st =>
    let found := bool_decide (is_Some (disk st !! path)) in
    (emit (EvExists path found) ;; ret found) st.

Definition readFileSync (path : string) : M string :=
  emit (EvRead path) ;;
  fun st =>
    match disk st !! path with
    | Some (File content) => (Ok content, st)
    | _ => (Throw (FsError path), st)
    end.

Definition set_disk (d : gmap string fsnode) : M unit :=
  fun st => (Ok tt, {| disk := d; ticks := ticks st; trace := trace st |}).

(** ToBoolean of an environment variable. *)
Definition truthy_env (o : option string) : bool :=
  match o with
  | Some s => negb (String.eqb s "")
  | None => false
  end.

Definition DATABASE_PATH : string := "./clips_database.json".
Definition CLIPS_FOLDER : string := "./clips".

Section Bot.

Variable w : World.

Definition writeFileSync (path data : string) : M unit :=
  emit (EvWrite path data) ;;
  fun st =>
    match disk st !! path, write_fault_of w path data with
    | Some Directory, _ | _, OpenFails => (Throw (FsError path), st)
    | _, NoFault => set_disk (<[path := File data]> (disk st)) st
    | _, FailsAfter k =>
        (set_disk (<[path := File (String.substring 0 k data)]> (disk st)) ;;
         throw (FsError path)) st
    end.

(** [new Date().toISOString()] *)
Definition now_iso : M string :=
  fun st => (Ok (toISOString w (clock w (S (ticks st)))), tick st).

(** Load the clips database *)
Definition loadDatabase : M value :=
  found <- existsSync DATABASE_PATH ;;
  if negb found then
    console_error ("Error: Database file not found at " +:+ DATABASE_PATH) ;;
    process_exit 1
  else
    data <- readFileSync DATABASE_PATH ;;
    lift (JSON_parse data).

(** Save the clips database *)
Definition saveDatabase (db : value) : M unit :=
  writeFileSync DATABASE_PATH (JSON_stringify db).

(** [db.clips], as the receiver of [length], [filter] and [find]. *)
Definition clips_of (db : value) : result (list value) :=
  let* c := get (Some db) "clips" in
  match c with
  | Some (VArr cs) => Ok cs
  | _ => Throw TypeError
  end.

(** Get the next unposted clip *)
Definition getNextClip (db : value) : result value :=
  let* cs := clips_of db in
  let* r := find_from
              (fun clip => let* p := get (Some clip) "posted" in
                           Ok (negb (truthy p))) 0 cs in
  Ok (match r with Some (_, clip) => clip | None => VNull end).

(** [db] after [db.clips = cs]; only used to put back the array that
    holds the clip changed in place. *)
Definition with_clips (db : value) (cs : list value) : result value :=
  set db "clips" (VArr cs).

(** Mark a clip as posted.  The object [db] is changed in place; the
    result is its value afterwards. *)
Definition markAsPosted (db : value) (clipId : option value) : M value :=
  cs <- lift (clips_of db) ;;
  r <- lift (find_from
               (fun c => let* i := get (Some c) "id" in strict_eq i clipId)
               0 cs) ;;
  match r with
  | Some (i, clip) =>
      if truthy (Some clip) then
        clip1 <- lift (set clip "posted" (VBool true)) ;;
        date <- now_iso ;;
        clip2 <- lift (set clip1 "post_date" (VStr date)) ;;
        lift (with_clips db (<[i := clip2]> cs))
      else ret db
  | None => ret db
  end.

(** Post a clip to Bluesky *)
Definition postClip (clip : value) : M unit :=
  user <- lift (ToString (option_map VStr (BLUESKY_USERNAME w))) ;;
  console_log (String LF "Logging in as " +:+ user +:+ "...") ;;
  (match agent_login w (BLUESKY_USERNAME w) (BLUESKY_APP_PASSWORD w) with
   | None => emit (EvLogin (BLUESKY_USERNAME w) (BLUESKY_APP_PASSWORD w) true)
   | Some msg =>
       emit (EvLogin (BLUESKY_USERNAME w) (BLUESKY_APP_PASSWORD w) false) ;;
       throw (LoginError msg)
   end) ;;
  filename <- lift (let* f := get (Some clip) "filename" in ToString f) ;;
  let videoPath := CLIPS_FOLDER +:+ "/" +:+ filename in
  found <- existsSync videoPath ;;
  if negb found then throw (VideoFileNotFound videoPath)
  else
    filename' <- lift (let* f := get (Some clip) "filename" in ToString f) ;;
    console_log ("Uploading video: " +:+ filename' +:+ "...") ;;
    videoData <- readFileSync videoPath ;;
    blob <- (match agent_uploadBlob w videoData "video/mp4" with
             | inr blob => emit (EvUpload videoData "video/mp4" true) ;; ret blob
             | inl msg =>
                 emit (EvUpload videoData "video/mp4" false) ;;
                 throw (UploadError msg)
             end) ;;
    quote_text <- lift (let* q := get (Some clip) "quote" in ToString q) ;;
    character <- lift (let* c := get (Some clip) "character" in ToString c) ;;
    let caption :=
      String DQ quote_text +:+ String DQ (String LF (String LF "— "))
      +:+ character in
    console_log "Posting to Bluesky..." ;;
    description <- lift (get (Some clip) "description") ;;
    let alt_text :=
      match description with
      | Some d => if truthy description then d else VStr ""
      | None => VStr ""
      end in
    date <- now_iso ;;
    let record := {| text := caption;
                     embed_type := "app.bsky.embed.video";
                     video := blob;
                     alt := alt_text;
                     createdAt := date |} in
    (match agent_post w record with
     | None => emit (EvPost record true)
     | Some msg => emit (EvPost record false) ;; throw (PostError msg)
     end) ;;
    id <- lift (let* i := get (Some clip) "id" in ToString i) ;;
    console_log ("✓ Posted: " +:+ id).

(** Main function *)
Definition main : M unit :=
  try_catch
    (if negb (truthy_env (BLUESKY_USERNAME w))
        || negb (truthy_env (BLUESKY_APP_PASSWORD w))
     then
       console_error
         "Error: Missing BLUESKY_USERNAME or BLUESKY_APP_PASSWORD in .env file" ;;
       process_exit 1
     else
       console_log "Loading clip database..." ;;
       db <- loadDatabase ;;
       cs <- lift (clips_of db) ;;
       let total := length cs in
       posted <- lift (count_if
                         (fun c => let* p := get (Some c) "posted" in
                                   Ok (truthy p)) cs) ;;
       console_log (String LF "Database: " +:+ string_of_Z (Z.of_nat posted)
                    +:+ "/" +:+ string_of_Z (Z.of_nat total)
                    +:+ " clips posted") ;;
       clip <- lift (getNextClip db) ;;
       if negb (truthy (Some clip)) then
         console_log (String LF "✓ All clips have been posted!")
       else
         console_log (String LF "Next clip:") ;;
         character <- lift (let* c := get (Some clip) "character" in ToString c) ;;
         quote_text <- lift (let* q := get (Some clip) "quote" in ToString q) ;;
         console_log ("  " +:+ character +:+ ": " +:+ String DQ quote_text
                      +:+ String DQ "") ;;
         filename <- lift (let* f := get (Some clip) "filename" in ToString f) ;;
         console_log ("  File: " +:+ filename) ;;
         postClip clip ;;
         id <- lift (get (Some clip) "id") ;;
         db' <- markAsPosted db id ;;
         saveDatabase db' ;;
         console_log ("✓ Database updated" +:+ String LF ""))
    (fun error => emit (EvReport error) ;; process_exit 1).

End Bot.

(** ** The shape the TypeScript interfaces declare *)

Definition field (o : value) (k : string) : option value :=
  match o with
  | VObj props => assoc k props
  | _ => None
  end.

Definition is_str (v : option value) : bool :=
  match v with Some (VStr _) => true | _ => false end.

Definition is_bool (v : option value) : bool :=
  match v with Some (VBool _) => true | _ => false end.

Definition is_opt_str (v : option value) : bool :=
  match v with None | Some (VStr _) => true | _ => false end.

(** [post_date] is a string once posted; the shipped database writes
    [null] before that. *)
Definition is_opt_date (v : option value) : bool :=
  match v with None | Some VNull | Some (VStr _) => true | _ => false end.

(** [interface Clip] *)
Definition Clip_shape (c : value) : bool :=
  match c with
  | VObj _ =>
      is_str (field c "id") && is_str (field c "filename")
      && is_str (field c "quote") && is_str (field c "character")
      && is_opt_str (field c "description") && is_bool (field c "posted")
      && is_opt_date (field c "post_date")
  | _ => false
  end.

(** [interface Database] *)
Definition Database_shape (db : value) : bool :=
  match field db "clips" with
  | Some (VArr cs) => forallb Clip_shape cs
  | _ => false
  end.

(** The [posted] flag of a clip. *)
Definition posted_of (c : value) : bool := truthy (field c "posted").

(** The identifiers of a queue, in queue order. *)
Definition ids_of (cs : list value) : list (option value) :=
  map (fun c => field c "id") cs.

(** The test [c.id === clipId] on a clip whose identifier is a string. *)
Definition id_matches (clipId : option value) (c : value) : bool :=
  match field c "id", clipId with
  | Some (VStr x), Some (VStr y) => String.eqb x y
  | _, _ => false
  end.

(** ** Concrete worlds and records used in the examples *)

(** A rendering of [Date.prototype.toISOString] for the years 0 to 9999
    (days are turned into a civil date by the usual era computation). *)
Definition pad (width : nat) (n : Z) : string :=
  let s := string_of_Z n in
  (fix zeros (k : nat) : string :=
     match k with O => s | S k' => String "0" (zeros k') end)
    (width - String.length s)%nat.

Definition iso8601 (ms : Z) : string :=
  let days := ms / 86400000 in
  let rest := ms mod 86400000 in
  let z := days + 719468 in
  let era := z / 146097 in
  let doe := z - era * 146097 in
  let yoe := (doe - doe / 1460 + doe / 36524 - doe / 146096) / 365 in
  let doy := doe - (365 * yoe + yoe / 4 - yoe / 100) in
  let mp := (5 * doy + 2) / 153 in
  let d := doy - (153 * mp + 2) / 5 + 1 in
  let m := if (mp <? 10)%Z then mp + 3 else mp - 9 in
  let y := yoe + era * 400 + (if (m <=? 2)%Z then 1 else 0) in
  pad 4 y +:+ "-" +:+ pad 2 m +:+ "-" +:+ pad 2 d +:+ "T"
  +:+ pad 2 (rest / 3600000) +:+ ":" +:+ pad 2 (rest / 60000 mod 60) +:+ ":"
  +:+ pad 2 (rest / 1000 mod 60) +:+ "." +:+ pad 3 (rest mod 1000) +:+ "Z".

(** A world in which nothing goes wrong: credentials are set, the service
    accepts every call, the disk takes every write, and the clock advances
    by one second per reading. *)
Definition calm : World := {|
  BLUESKY_USERNAME := Some "bot.bsky.social";
  BLUESKY_APP_PASSWORD := Some "abcd-efgh-ijkl-mnop";
  clock := fun k => 1700000000000 + 1000 * Z.of_nat k;
  toISOString := iso8601;
  agent_login := fun _ _ => None;
  agent_uploadBlob := fun _ _ => inr "blob-1";
  agent_post := fun _ => None;
  write_fault_of := fun _ _ => NoFault
|}.

(** The same world with one of its answers changed. *)
Definition rejecting_login : World := {|
  BLUESKY_USERNAME := BLUESKY_USERNAME calm;
  BLUESKY_APP_PASSWORD := BLUESKY_APP_PASSWORD calm;
  clock := clock calm;
  toISOString := toISOString calm;
  agent_login := fun _ _ => Some "Invalid identifier or password";
  agent_uploadBlob := agent_uploadBlob calm;
  agent_post := agent_post calm;
  write_fault_of := write_fault_of calm
|}.

Definition rejecting_post : World := {|
  BLUESKY_USERNAME := BLUESKY_USERNAME calm;
  BLUESKY_APP_PASSWORD := BLUESKY_APP_PASSWORD calm;
  clock := clock calm;
  toISOString := toISOString calm;
  agent_login := agent_login calm;
  agent_uploadBlob := agent_uploadBlob calm;
  agent_post := fun _ => Some "Upstream failure";
  write_fault_of := write_fault_of calm
|}.

Definition failing_disk (f : write_fault) : World := {|
  BLUESKY_USERNAME := BLUESKY_USERNAME calm;
  BLUESKY_APP_PASSWORD := BLUESKY_APP_PASSWORD calm;
  clock := clock calm;
  toISOString := toISOString calm;
  agent_login := agent_login calm;
  agent_uploadBlob := agent_uploadBlob calm;
  agent_post := agent_post calm;
  write_fault_of := fun _ _ => f
|}.

Definition clip_of (id filename character quote_text description : string)
  (posted : bool) (post_date : value) : value :=
  VObj [("id", VStr id); ("filename", VStr filename);
        ("character", VStr character); ("quote", VStr quote_text);
        ("description", VStr description); ("posted", VBool posted);
        ("post_date", post_date)].

Definition banana_stand (id : string) (posted : bool) (post_date : value) : value :=
  clip_of id "banana_stand_money.mp4" "George Sr."
    "There's always money in the banana stand"
    "George Sr. tells Michael about the banana stand" posted post_date.

Definition chicken_dance (posted : bool) (post_date : value) : value :=
  clip_of "ad_s01e02_001" "chicken_dance.mp4" "Gob" "Has anyone in this family ever even seen a chicken?"
    "The family does their chicken impressions" posted post_date.

Definition her (posted : bool) (post_date : value) : value :=
  clip_of "ad_s01e03_001" "her.mp4" "Michael" "Her?"
    "Michael reacts to Ann" posted post_date.

(** The queue of the scenario: two clips posted, the third one not. *)
Definition scenario_db : value :=
  VObj [("clips",
         VArr [chicken_dance true (VStr "2023-11-12T15:00:00.000Z");
               her true (VStr "2023-11-13T15:00:00.000Z");
               banana_stand "ad_s01e01_001" false VNull])].

(** A record in which an unposted clip repeats the identifier of a posted
    one. *)
Definition duplicate_db : value :=
  VObj [("clips",
         VArr [banana_stand "ad_s01e01_001" true (VStr "2023-11-12T15:00:00.000Z");
               banana_stand "ad_s01e01_001" false VNull])].

Definition disk_with (record : string) (videos : list string) : gmap string fsnode :=
  <[DATABASE_PATH := File record]>
    (foldr (fun name d => <[CLIPS_FOLDER +:+ "/" +:+ name := File "mp4-bytes"]> d)
       ∅ videos).

Definition start (d : gmap string fsnode) : State :=
  {| disk := d; ticks := 0; trace := [] |}.

Definition scenario_start : State :=
  start (disk_with (JSON_stringify scenario_db) ["banana_stand_money.mp4"]).

(** ** Reading a trace *)

(** A call of [writeFileSync]. *)
Definition is_write (e : event) : bool :=
  match e with EvWrite _ _ => true | _ => false end.

(** A call of [agent.post] that the service accepted. *)
Definition is_posted (e : event) : bool :=
  match e with EvPost _ true => true | _ => false end.

(** A call of [agent.uploadBlob] or of [agent.post]. *)
Definition is_upload_or_post (e : event) : bool :=
  match e with EvUpload _ _ _ | EvPost _ _ => true | _ => false end.

(** The effects of running [m] from [st]. *)
Definition effects {A : Type} (m : M A) (st : State) : list event :=
  drop (length (trace st)) (trace (snd (m st))).

Definition count_events (f : event -> bool) (l : list event) : nat :=
  length (List.filter f l).

Definition is_object (v : value) : bool :=
  match v with VObj _ => true | _ => false end.

(** An upload that declares the type [video/mp4] (or any other event). *)
Definition declares_mp4 (e : event) : bool :=
  match e with
  | EvUpload _ encoding _ => String.eqb encoding "video/mp4"
  | _ => true
  end.

(** The accessibility text the bot derives from a clip. *)
Definition description_of (clip : value) : string :=
  match field clip "description" with
  | Some (VStr d) => d
  | _ => ""
  end.

(** The scenario without the video file on disk. *)
Definition scenario_without_video : State :=
  start (disk_with (JSON_stringify scenario_db) []).

(** The order of the publish steps in a trace: an upload only after a
    media file was found, a post only after an upload was accepted. *)
Fixpoint in_order (resolved uploaded : bool) (l : list event) : bool :=
  match l with
  | [] => true
  | EvExists _ found :: l' => in_order (resolved || found) uploaded l'
  | EvUpload _ _ ok :: l' => resolved && in_order resolved (uploaded || ok) l'
  | EvPost _ _ :: l' => uploaded && in_order resolved uploaded l'
  | _ :: l' => in_order resolved uploaded l'
  end.

(** ** The values of the JSON fragment *)

Fixpoint ascii_only (s : string) : bool :=
  match s with
  | EmptyString => true
  | String c r => (N_of_ascii c <? 128)%N && ascii_only r
  end.

(** The number of digits [JSON.stringify] writes for [n]. *)
Definition digits_of_Z (n : Z) : nat :=
  match Z.to_int n with
  | Pos u | Neg u => nb_digits u
  end.

Definition key_ok (k : string) : bool := ascii_only k && negb (digit_key k).

(** A value that [JSON_parse] can return: strings in ASCII, integers of
    at most 15 digits, and in each object distinct keys that are not
    written in digits only. *)
Fixpoint in_fragment (v : value) : Prop :=
  match v with
  | VNull | VBool _ => True
  | VNum n => (digits_of_Z n <= 15)%nat
  | VStr s => ascii_only s = true
  | VArr items =>
      (fix all (l : list value) : Prop :=
         match l with
         | [] => True
         | x :: l' => in_fragment x /\ all l'
         end) items
  | VObj props =>
      NoDup (map fst props)
      /\ (fix all (l : list (string * value)) : Prop :=
            match l with
            | [] => True
            | (k, x) :: l' => key_ok k = true /\ in_fragment x /\ all l'
            end) props
  end.

(** Fuel that [parse_value] needs to read back the serialisation of a
    value. *)
Fixpoint fuel_for (v : value) : nat :=
  match v with
  | VArr items =>
      S ((fix sum (l : list value) : nat :=
            match l with
            | [] => O
            | x :: l' => S (fuel_for x + sum l')
            end) items)
  | VObj props =>
      S ((fix sum (l : list (string * value)) : nat :=
            match l with
            | [] => O
            | (_, x) :: l' => S (fuel_for x + sum l')
            end) props)
  | _ => 1%nat
  end.

(** Load the record and save it as loaded. *)
Definition load_then_save (w : World) : M unit :=
  db <- loadDatabase ;; saveDatabase w db.

(** A record that is valid JSON but not laid out as [JSON.stringify]
    writes it, with a field the bot does not know. *)
Definition compact_record : string :=
  "{" +:+ quote "clips" +:+ ":[]," +:+ quote "note" +:+ ":"
  +:+ String DQ "a\/b" +:+ String DQ "}".

(** The continuation of an array after its first element, and of an
    object after its first member, as [stringify_at] writes them. *)
Fixpoint more_items (ind : nat) (l : list value) : string :=
  match l with
  | [] => ""
  | y :: ys =>
      "," +:+ newline (2 + ind) +:+ stringify_at (2 + ind) y +:+ more_items ind ys
  end.

Fixpoint more_members (ind : nat) (l : list (string * value)) : string :=
  match l with
  | [] => ""
  | (k, y) :: ys =>
      "," +:+ newline (2 + ind) +:+ quote k +:+ ": "
      +:+ stringify_at (2 + ind) y +:+ more_members ind ys
  end.

Fixpoint fuel_for_items (l : list value) : nat :=
  match l with
  | [] => O
  | x :: l' => S (fuel_for x + fuel_for_items l')
  end.

Fixpoint fuel_for_members (l : list (string * value)) : nat :=
  match l with
  | [] => O
  | (_, x) :: l' => S (fuel_for x + fuel_for_members l')
  end.

(** What may follow a number literal without changing how it reads. *)
Definition ends_number (rest : string) : bool :=
  match rest with
  | EmptyString => true
  | String c _ =>
      match digit_of c with
      | Some _ => false
      | None => negb (starts_fraction_or_exponent rest)
      end
  end.

(** The first character of a number literal, and of any value. *)
Definition number_head (c : ascii) : bool :=
  match digit_of c with
  | Some _ => true
  | None => (N_of_ascii c =? 45)%N
  end.

Definition value_head (c : ascii) : bool :=
  negb (is_ws c) && negb (N_of_ascii c =? 93)%N.

(** ** More ways to read a trace *)

(** A call of [agent.login], of [agent.uploadBlob], of [agent.post]. *)
Definition is_login (e : event) : bool :=
  match e with EvLogin _ _ _ => true | _ => false end.

Definition is_upload (e : event) : bool :=
  match e with EvUpload _ _ _ => true | _ => false end.

Definition is_post (e : event) : bool :=
  match e with EvPost _ _ => true | _ => false end.

(** Any call of the remote service. *)
Definition is_network (e : event) : bool :=
  is_login e || is_upload e || is_post e.

(** A line on the error stream: a [console.error] of the program's own
    text, or the report of a caught error. *)
Definition is_report (e : event) : bool :=
  match e with EvError _ | EvReport _ => true | _ => false end.

(** The property names of an object, in the order [JSON.stringify] writes
    them. *)
Definition keys_of (v : value) : list string :=
  match v with
  | VObj props => map fst props
  | _ => []
  end.

(** The same world as [calm] with an empty password in the environment. *)
Definition empty_password : World := {|
  BLUESKY_USERNAME := BLUESKY_USERNAME calm;
  BLUESKY_APP_PASSWORD := Some "";
  clock := clock calm;
  toISOString := toISOString calm;
  agent_login := agent_login calm;
  agent_uploadBlob := agent_uploadBlob calm;
  agent_post := agent_post calm;
  write_fault_of := write_fault_of calm
|}.

(** The answers [JSON.parse] has: a value or a [SyntaxError] (or, here,
    a text outside the fragment). *)
Definition parse_answer {A : Type} (r : result A) : bool :=
  match r with
  | Ok _ | Throw SyntaxError | OutOfModel => true
  | Throw _ | Exit _ => false
  end.

(** A computation that does not end the process. *)
Definition no_exit {A : Type} (r : result A) : bool :=
  match r with
  | Exit _ => false
  | _ => true
  end.

(** What an effect of a run may be: a login with the credentials of the
    environment; a look at the database or at a path made of the clips
    folder, a slash and a name; a write of the database. *)
Definition run_event (w : World) (e : event) : Prop :=
  match e with
  | EvLogin u p _ =>
      u = BLUESKY_USERNAME w /\ p = BLUESKY_APP_PASSWORD w
  | EvExists path _ | EvRead path =>
      path = DATABASE_PATH \/ exists name, path = CLIPS_FOLDER +:+ "/" +:+ name
  | EvWrite path _ => path = DATABASE_PATH
  | _ => True
  end.

(** [`${process.env.BLUESKY_USERNAME}`] *)
Definition username_text (w : World) : string :=
  match BLUESKY_USERNAME w with
  | Some s => s
  | None => "undefined"
  end.

(** The record [postClip] hands to [agent.post] for a clip whose [quote]
    and [character] are strings, given the reference of the uploaded blob
    and the state before the publish (the publish reads the clock once,
    for [createdAt]). *)
Definition post_of (w : World) (clip : value) (blob : string) (st : State)
  : post_record :=
  {| text := String DQ (match field clip "quote" with Some (VStr q) => q | _ => "" end)
             +:+ String DQ (String LF (String LF "— "))
             +:+ match field clip "character" with Some (VStr c) => c | _ => "" end;
     embed_type := "app.bsky.embed.video";
     video := blob;
     alt := VStr (description_of clip);
     createdAt := toISOString w (clock w (S (ticks st))) |}.

(** A queue in which nothing has been posted yet. *)
Definition waiting_queue : list value :=
  [banana_stand "ad_s01e01_001" false VNull;
   chicken_dance false VNull;
   her false VNull].

Definition waiting_db : value := VObj [("clips", VArr waiting_queue)].

(** A clip that the scan of [getNextClip] passes over: an object whose
    [posted] is truthy. *)
Definition passed_over (c : value) : Prop :=
  is_object c = true /\ truthy (field c "posted") = true.

(** ** The password *)

(** The world [w] with another password in the environment. *)
Definition with_password (w : World) (p : option string) : World := {|
  BLUESKY_USERNAME := BLUESKY_USERNAME w;
  BLUESKY_APP_PASSWORD := p;
  clock := clock w;
  toISOString := toISOString w;
  agent_login := agent_login w;
  agent_uploadBlob := agent_uploadBlob w;
  agent_post := agent_post w;
  write_fault_of := write_fault_of w
|}.

(** An effect with the password taken out of it: the password is an
    argument of [agent.login] and of nothing else. *)
Definition without_password (e : event) : event :=
  match e with
  | EvLogin u _ ok => EvLogin u None ok
  | _ => e
  end.

(** Two states that differ at most in the passwords of their traces. *)
Definition same_but_password (st1 st2 : State) : Prop :=
  disk st1 = disk st2 /\ ticks st1 = ticks st2
  /\ map without_password (trace st1) = map without_password (trace st2).

(** Two computations that, from such states, give the same result and
    again such states. *)
Definition alike {A : Type} (m1 m2 : M A) : Prop :=
  forall st1 st2,
    same_but_password st1 st2 ->
    fst (m1 st1) = fst (m2 st2)
    /\ same_but_password (snd (m1 st1)) (snd (m2 st2)).

(** ** The login comes first *)

(** In a trace, every look at a file, every read, upload and post comes
    after a login that was accepted. *)
Fixpoint after_login (logged_in : bool) (l : list event) : bool :=
  match l with
  | [] => true
  | EvLogin _ _ ok :: l' => after_login (logged_in || ok) l'
  | EvExists _ _ :: l' | EvRead _ :: l' | EvUpload _ _ _ :: l' | EvPost _ _ :: l' =>
      logged_in && after_login logged_in l'
  | _ :: l' => after_login logged_in l'
  end.

(** ** The files of a run *)

(** What an effect of a publish may be, as to files: a look at, or a read
    of, the path made of the clips folder, a slash and the file name of
    the clip; never a write. *)
Definition media_event (clip : value) (e : event) : Prop :=
  match e with
  | EvExists path _ | EvRead path =>
      is_object clip = true
      /\ exists name,
          ToString (field clip "filename") = Ok name
          /\ path = CLIPS_FOLDER +:+ "/" +:+ name
  | EvWrite _ _ => False
  | _ => True
  end.

(** The same for a run from [st]: the database, or the media file of the
    clip selected from the record that [st] holds. *)
Definition file_event (st : State) (e : event) : Prop :=
  match e with
  | EvWrite path _ => path = DATABASE_PATH
  | EvExists path _ | EvRead path =>
      path = DATABASE_PATH
      \/ exists text db clip name,
          disk st !! DATABASE_PATH = Some (File text)
          /\ JSON_parse text = Ok db
          /\ getNextClip db = Ok clip
          /\ is_object clip = true
          /\ ToString (field clip "filename") = Ok name
          /\ path = CLIPS_FOLDER +:+ "/" +:+ name
  | _ => True
  end.

(** * Properties *)

(** ** Objects *)

Lemma assoc_assign_eq k v props : assoc k (assign k v props) = Some v.
Proof.
  induction props as [|[k' v'] ps IH]; simpl.
  - by rewrite String.eqb_refl.
  - destruct (String.eqb k k') eqn:E; simpl; rewrite E; [done | exact IH].
Qed.

Lemma assoc_assign_ne k k' v props :
  k <> k' -> assoc k' (assign k v props) = assoc k' props.
Proof.
  intros Hne. induction props as [|[k0 v0] ps IH]; simpl.
  - destruct (String.eqb k' k) eqn:E; [|done].
    apply String.eqb_eq in E. congruence.
  - destruct (String.eqb k k0) eqn:E; simpl.
    + apply String.eqb_eq in E. subst k0.
      destruct (String.eqb k' k) eqn:E'; [|done].
      apply String.eqb_eq in E'. congruence.
    + by rewrite IH.
Qed.

(** Assigning to a property that exists neither adds, removes nor moves a
    property. *)
Lemma assign_keys_present k v props :
  is_Some (assoc k props) -> map fst (assign k v props) = map fst props.
Proof.
  induction props as [|[k' v'] ps IH]; simpl; intros [x Hx]; [done|].
  destruct (String.eqb k k') eqn:E; simpl; [done|].
  f_equal. apply IH. eauto.
Qed.

(** Assigning to a property that is missing adds it after the others. *)
Lemma assign_keys_missing k v props :
  assoc k props = None -> assign k v props = (props ++ [(k, v)])%list.
Proof.
  induction props as [|[k' v'] ps IH]; simpl; [done|].
  destruct (String.eqb k k') eqn:E; [done|].
  intros H. by rewrite IH.
Qed.

Lemma field_set o k v o' :
  set o k v = Ok o' ->
  field o' k = Some v /\ forall k', k <> k' -> field o' k' = field o k'.
Proof.
  destruct o; simpl; try discriminate. intros [= <-]. simpl. split.
  - apply assoc_assign_eq.
  - intros k' Hne. by apply assoc_assign_ne.
Qed.

(** ** Well-shaped clips and databases *)

Lemma Clip_shape_obj c : Clip_shape c = true -> exists props, c = VObj props.
Proof. destruct c; simpl; try discriminate. eauto. Qed.

Lemma Clip_shape_fields c :
  Clip_shape c = true ->
  (exists i, field c "id" = Some (VStr i))
  /\ (exists f, field c "filename" = Some (VStr f))
  /\ (exists q, field c "quote" = Some (VStr q))
  /\ (exists ch, field c "character" = Some (VStr ch))
  /\ (field c "description" = None \/ exists d, field c "description" = Some (VStr d))
  /\ (exists b, field c "posted" = Some (VBool b)).
Proof.
  intros H. destruct (Clip_shape_obj c H) as [props ->].
  unfold Clip_shape in H.
  repeat (apply andb_prop in H; destruct H as [H ?]).
  repeat match goal with
  | H : is_str ?x = true |- _ => destruct x as [[]|]; try discriminate H; clear H
  | H : is_bool ?x = true |- _ => destruct x as [[]|]; try discriminate H; clear H
  | H : is_opt_str ?x = true |- _ => destruct x as [[]|]; try discriminate H; clear H
  end; repeat split; eauto.
Qed.

Lemma Database_shape_clips db :
  Database_shape db = true ->
  exists props cs, db = VObj props /\ field db "clips" = Some (VArr cs)
                   /\ Forall (fun c => Clip_shape c = true) cs.
Proof.
  unfold Database_shape. destruct db; simpl; try discriminate.
  destruct (assoc "clips" props) as [[]|] eqn:E; try discriminate.
  intros H. exists props, items. split; [done|]. split; [done|].
  apply Forall_forall. intros c Hc. apply list_elem_of_In in Hc.
  eapply forallb_forall in H; eauto.
Qed.

Lemma clips_of_shape db cs :
  Database_shape db = true -> field db "clips" = Some (VArr cs) ->
  clips_of db = Ok cs.
Proof.
  intros H Hcs. destruct (Database_shape_clips db H) as (props & cs' & -> & _ & _).
  unfold clips_of. simpl in *. by rewrite Hcs.
Qed.

Lemma Database_shape_Forall db cs :
  Database_shape db = true -> field db "clips" = Some (VArr cs) ->
  Forall (fun c => Clip_shape c = true) cs.
Proof.
  intros H Hcs. destruct (Database_shape_clips db H) as (props & cs' & -> & E & F).
  congruence.
Qed.

(** ** [find] and [filter] on arrays *)

Lemma find_from_list_find (p : value -> result bool) (q : value -> bool) i cs :
  Forall (fun c => p c = Ok (q c)) cs ->
  find_from p i cs
  = Ok (match list_find (fun c => q c = true) cs with
        | Some (j, c) => Some ((i + j)%nat, c)
        | None => None
        end).
Proof.
  intros H. revert i. induction H as [|c cs Hc _ IH]; intros i; [done|].
  cbn [find_from]. rewrite Hc. cbn [rbind list_find].
  destruct (q c) eqn:Eq.
  - rewrite decide_True by done. simpl. by rewrite Nat.add_0_r.
  - rewrite decide_False by congruence. rewrite IH.
    destruct (list_find _ cs) as [[j x]|]; simpl; [|done].
    do 3 f_equal. lia.
Qed.

Lemma count_if_total (p : value -> result bool) (q : value -> bool) cs :
  Forall (fun c => p c = Ok (q c)) cs ->
  count_if p cs = Ok (length (filter (fun c => q c = true) cs)).
Proof.
  induction 1 as [|c cs Hc _ IH]; [done|].
  cbn [count_if]. rewrite Hc, IH. cbn [rbind].
  rewrite filter_cons. destruct (q c) eqn:Eq.
  - by rewrite decide_True.
  - by rewrite decide_False by congruence.
Qed.

Lemma unposted_test cs :
  Forall (fun c => Clip_shape c = true) cs ->
  Forall (fun c => (let* p := get (Some c) "posted" in Ok (negb (truthy p)))
                   = Ok (negb (posted_of c))) cs.
Proof.
  intros HF. eapply Forall_impl; [exact HF|].
  intros c H. by destruct (Clip_shape_obj c H) as [props ->].
Qed.

(** ** Selection *)

Lemma getNextClip_list_find db cs :
  Database_shape db = true -> field db "clips" = Some (VArr cs) ->
  getNextClip db
  = Ok (match list_find (fun c => negb (posted_of c) = true) cs with
        | Some (_, clip) => clip
        | None => VNull
        end).
Proof.
  intros H Hcs. unfold getNextClip.
  rewrite (clips_of_shape db cs H Hcs). cbn [rbind].
  rewrite (find_from_list_find _ (fun c => negb (posted_of c))).
  - cbn [rbind]. by destruct (list_find _ cs) as [[j x]|].
  - apply unposted_test. by eapply Database_shape_Forall.
Qed.

(** C2. On every well-shaped database [getNextClip] returns a result that
    depends on the queue alone: the first clip in queue order whose
    [posted] flag is false, and [null] exactly when every clip has
    [posted] true. *)
Theorem getNextClip_first_unposted (db : value) (cs : list value) :
  Database_shape db = true ->
  field db "clips" = Some (VArr cs) ->
  (exists r, getNextClip db = Ok r)
  /\ (getNextClip db = Ok VNull <-> forall c, c ∈ cs -> posted_of c = true)
  /\ (forall clip, getNextClip db = Ok clip -> clip <> VNull ->
        exists i : nat,
          cs !! i = Some clip /\ posted_of clip = false
          /\ forall (j : nat) c, (j < i)%nat -> cs !! j = Some c -> posted_of c = true).
Proof.
  intros H Hcs. rewrite (getNextClip_list_find db cs H Hcs).
  pose proof (Database_shape_Forall db cs H Hcs) as Hshape.
  destruct (list_find _ cs) as [[i x]|] eqn:E.
  - apply list_find_Some in E as (Hi & Hx & Hbefore).
    apply negb_true_iff in Hx.
    assert (Hobj : x <> VNull).
    { rewrite Forall_forall in Hshape.
      destruct (Clip_shape_obj x) as [props ->]; [|done].
      apply Hshape. by eapply list_elem_of_lookup_2. }
    split; [eauto|]. split.
    + split; [congruence|]. intros Hall.
      rewrite Hall in Hx; [done|]. by eapply list_elem_of_lookup_2.
    + intros clip [= <-] _. exists i. repeat split; [done..|].
      intros j c Hj Hc. specialize (Hbefore j c Hc Hj).
      by destruct (posted_of c).
  - apply list_find_None in E. split; [eauto|]. split.
    + split; [|done]. intros _ c Hc. rewrite Forall_forall in E.
      specialize (E c Hc). by destruct (posted_of c).
    + intros clip [= <-] Hne. done.
Qed.

(** The selector on the queue of the scenario picks the third clip. *)
Lemma getNextClip_scenario :
  Database_shape scenario_db = true
  /\ (exists r, getNextClip scenario_db = Ok r)
  /\ (getNextClip scenario_db = Ok VNull
      <-> forall c,
          c ∈ [chicken_dance true (VStr "2023-11-12T15:00:00.000Z");
               her true (VStr "2023-11-13T15:00:00.000Z");
               banana_stand "ad_s01e01_001" false VNull] -> posted_of c = true)
  /\ (forall clip, getNextClip scenario_db = Ok clip -> clip <> VNull ->
        exists i : nat,
          [chicken_dance true (VStr "2023-11-12T15:00:00.000Z");
           her true (VStr "2023-11-13T15:00:00.000Z");
           banana_stand "ad_s01e01_001" false VNull] !! i = Some clip
          /\ posted_of clip = false
          /\ forall (j : nat) c, (j < i)%nat ->
              [chicken_dance true (VStr "2023-11-12T15:00:00.000Z");
               her true (VStr "2023-11-13T15:00:00.000Z");
               banana_stand "ad_s01e01_001" false VNull] !! j = Some c ->
              posted_of c = true).
Proof.
  split; [reflexivity|].
  apply (getNextClip_first_unposted scenario_db); reflexivity.
Defined.

Example getNextClip_scenario_value :
  getNextClip scenario_db = Ok (banana_stand "ad_s01e01_001" false VNull).
Proof. reflexivity. Qed.

(** ** Marking *)

Lemma id_matches_iff clipId c :
  Clip_shape c = true -> id_matches clipId c = true <-> field c "id" = clipId.
Proof.
  intros H. destruct (Clip_shape_fields c H) as ((x & Hx) & _).
  unfold id_matches. rewrite Hx. destruct clipId as [[]|]; try (split; congruence).
  rewrite String.eqb_eq. split; congruence.
Qed.

Lemma id_test clipId cs :
  Forall (fun c => Clip_shape c = true) cs ->
  Forall (fun c => (let* i := get (Some c) "id" in strict_eq i clipId)
                   = Ok (id_matches clipId c)) cs.
Proof.
  intros HF. eapply Forall_impl; [exact HF|]. intros c H.
  destruct (Clip_shape_fields c H) as ((x & Hx) & _).
  destruct (Clip_shape_obj c H) as [props ->].
  unfold id_matches. cbn [get rbind]. simpl in Hx. simpl. rewrite Hx.
  by destruct clipId as [[]|].
Qed.

Lemma markAsPosted_no_match w db cs clipId st :
  Database_shape db = true -> field db "clips" = Some (VArr cs) ->
  (forall c, c ∈ cs -> field c "id" <> clipId) ->
  markAsPosted w db clipId st = (Ok db, st).
Proof.
  intros H Hcs Hno.
  pose proof (Database_shape_Forall db cs H Hcs) as Hshape.
  unfold markAsPosted, bind, lift.
  rewrite (clips_of_shape db cs H Hcs).
  rewrite (find_from_list_find _ (id_matches clipId)) by by apply id_test.
  destruct (list_find _ cs) as [[i x]|] eqn:E; [|done].
  apply list_find_Some in E as (Hi & Hx & _).
  apply list_elem_of_lookup_2 in Hi. rewrite Forall_forall in Hshape.
  apply id_matches_iff in Hx; [|by apply Hshape]. by apply Hno in Hx.
Qed.

Lemma markAsPosted_match w db cs clipId st (i : nat) clip :
  Database_shape db = true -> field db "clips" = Some (VArr cs) ->
  cs !! i = Some clip -> field clip "id" = clipId ->
  (forall (j : nat) c, (j < i)%nat -> cs !! j = Some c -> field c "id" <> clipId) ->
  exists props cprops,
    db = VObj props /\ clip = VObj cprops
    /\ markAsPosted w db clipId st
       = (Ok (VObj (assign "clips"
                      (VArr (<[i := VObj (assign "post_date"
                                            (VStr (toISOString w (clock w (S (ticks st)))))
                                            (assign "posted" (VBool true) cprops))]> cs))
                      props)),
          tick st).
Proof.
  intros H Hcs Hi Hid Hbefore.
  pose proof (Database_shape_Forall db cs H Hcs) as Hshape.
  destruct (Database_shape_clips db H) as (props & cs' & -> & _ & _).
  assert (Hc : Clip_shape clip = true).
  { rewrite Forall_forall in Hshape. apply Hshape. by eapply list_elem_of_lookup_2. }
  destruct (Clip_shape_obj clip Hc) as [cprops ->].
  exists props, cprops. split; [done|]. split; [done|].
  unfold markAsPosted, bind, lift.
  rewrite (clips_of_shape _ cs H Hcs).
  rewrite (find_from_list_find _ (id_matches clipId)) by by apply id_test.
  assert (E : list_find (fun c => id_matches clipId c = true) cs = Some (i, VObj cprops)).
  { apply list_find_Some. split; [done|]. split.
    - by apply id_matches_iff.
    - intros j c Hj Hlt Hm. apply (Hbefore j c Hlt Hj).
      apply id_matches_iff in Hm; [done|].
      rewrite Forall_forall in Hshape. apply Hshape. by eapply list_elem_of_lookup_2. }
  rewrite E. done.
Qed.

(** C9. On a well-shaped database, [markAsPosted] with an identifier that
    no clip carries returns without error and changes nothing (neither
    the database nor the state); with an identifier that some clip
    carries it changes the first such clip only, and of that clip only
    [posted] and [post_date]. *)
Theorem markAsPosted_only_first_match (w : World) (db : value) (cs : list value)
  (clipId : option value) (st : State) :
  Database_shape db = true ->
  field db "clips" = Some (VArr cs) ->
  ((forall c, c ∈ cs -> field c "id" <> clipId) ->
   markAsPosted w db clipId st = (Ok db, st))
  /\ (forall (i : nat) clip,
        cs !! i = Some clip -> field clip "id" = clipId ->
        (forall (j : nat) c, (j < i)%nat -> cs !! j = Some c -> field c "id" <> clipId) ->
        exists db' clip',
          markAsPosted w db clipId st = (Ok db', tick st)
          /\ field db' "clips" = Some (VArr (<[i := clip']> cs))
          /\ (forall k, k <> "clips" -> field db' k = field db k)
          /\ field clip' "posted" = Some (VBool true)
          /\ field clip' "post_date"
             = Some (VStr (toISOString w (clock w (S (ticks st)))))
          /\ (forall k, k <> "posted" -> k <> "post_date" ->
                field clip' k = field clip k)).
Proof.
  intros H Hcs. split.
  - by apply markAsPosted_no_match.
  - intros i clip Hi Hid Hbefore.
    destruct (markAsPosted_match w db cs clipId st i clip H Hcs Hi Hid Hbefore)
      as (props & cprops & -> & -> & E).
    eexists _, _. split; [exact E|]. cbn [field]. split; [apply assoc_assign_eq|].
    split; [intros k Hk; by apply assoc_assign_ne|].
    cbn [field].
    split; [rewrite assoc_assign_ne by done; apply assoc_assign_eq|].
    split; [apply assoc_assign_eq|].
    intros k Hk1 Hk2. by rewrite !assoc_assign_ne.
Qed.

(** Marking a clip that is not in the queue of the scenario, and marking
    its third clip. *)
Lemma markAsPosted_scenario :
  markAsPosted calm scenario_db (Some (VStr "no_such_clip")) scenario_start
  = (Ok scenario_db, scenario_start)
  /\ exists db' clip',
      markAsPosted calm scenario_db (Some (VStr "ad_s01e01_001")) scenario_start
      = (Ok db', tick scenario_start)
      /\ field db' "clips"
         = Some (VArr [chicken_dance true (VStr "2023-11-12T15:00:00.000Z");
                       her true (VStr "2023-11-13T15:00:00.000Z");
                       clip'])
      /\ field clip' "posted" = Some (VBool true)
      /\ field clip' "post_date" = Some (VStr "2023-11-14T22:13:21.000Z")
      /\ field clip' "quote" = Some (VStr "There's always money in the banana stand").
Proof.
  destruct (markAsPosted_only_first_match calm scenario_db
              [chicken_dance true (VStr "2023-11-12T15:00:00.000Z");
               her true (VStr "2023-11-13T15:00:00.000Z");
               banana_stand "ad_s01e01_001" false VNull]
              (Some (VStr "no_such_clip")) scenario_start eq_refl eq_refl)
    as [Hnone _].
  destruct (markAsPosted_only_first_match calm scenario_db
              [chicken_dance true (VStr "2023-11-12T15:00:00.000Z");
               her true (VStr "2023-11-13T15:00:00.000Z");
               banana_stand "ad_s01e01_001" false VNull]
              (Some (VStr "ad_s01e01_001")) scenario_start eq_refl eq_refl)
    as [_ Hsome].
  split.
  - apply Hnone. intros c Hc.
    repeat (apply elem_of_cons in Hc as [-> | Hc]; [discriminate|]).
    by apply elem_of_nil in Hc.
  - destruct (Hsome 2%nat (banana_stand "ad_s01e01_001" false VNull) eq_refl eq_refl)
      as (db' & clip' & Hrun & Hclips & _ & Hposted & Hdate & Hframe).
    + intros j c Hj Hc. destruct j as [|[|j]]; [| |lia];
        injection Hc as <-; discriminate.
    + exists db', clip'. split; [exact Hrun|]. split; [exact Hclips|].
      split; [exact Hposted|]. split; [exact Hdate|].
      by rewrite Hframe.
Defined.

(** ** Running the bot, one step at a time *)

Ltac unfold_monad H :=
  unfold try_catch, bind, ret, throw, process_exit, lift,
    console_log, console_error, emit in H;
  cbv beta iota in H; cbn [disk ticks trace record_event tick] in H.

(** Case analysis on the innermost scrutinee of the run in [H]. *)
Ltac step H :=
  match type of H with
  | context [match ?x with _ => _ end] =>
      lazymatch x with
      | context [match _ with _ => _ end] => fail
      | _ => destruct x eqn:?
      end
  end; cbv beta iota in H; cbn [disk ticks trace record_event tick] in H;
  try discriminate H.

Ltac steps H := repeat step H.

(** Closes a leaf of the case analysis: the final state is the initial one
    with a known list of events added. *)
Ltac leaf H :=
  injection H as <- <-;
  eexists; split;
  [ cbn [trace record_event tick]; rewrite <- ?app_assoc;
    first [ reflexivity | symmetry; apply app_nil_r ]
  | cbn -[String.append] ].

Lemma existsb_app_false {A} (f : A -> bool) l1 l2 :
  existsb f (l1 ++ l2) = false <-> existsb f l1 = false /\ existsb f l2 = false.
Proof. rewrite existsb_app. apply orb_false_iff. Qed.

Lemma count_events_app f l1 l2 :
  count_events f (l1 ++ l2) = (count_events f l1 + count_events f l2)%nat.
Proof. unfold count_events. by rewrite List.filter_app, length_app. Qed.

Lemma count_events_none f l : existsb f l = false -> count_events f l = 0%nat.
Proof.
  unfold count_events. induction l as [|x l IH]; simpl; [done|].
  destruct (f x); simpl; [done|exact IH].
Qed.

Lemma ToString_cases v :
  (exists s, ToString v = Ok s) \/ ToString v = OutOfModel.
Proof. destruct v as [[| [] | | | |]|]; simpl; eauto. Qed.

Ltac no_throw :=
  match goal with
  | H : ToString ?v = Throw _ |- _ =>
      destruct (ToString_cases v) as [[? ?]|?]; congruence
  | H : ToString ?v = Exit _ |- _ =>
      destruct (ToString_cases v) as [[? ?]|?]; congruence
  end.

(** *** Publishing *)

Lemma postClip_summary w clip st r st' :
  postClip w clip st = (r, st') ->
  disk st' = disk st
  /\ exists new,
      trace st' = (trace st ++ new)%list
      /\ existsb is_write new = false
      /\ match r with
         | Ok _ => existsb is_posted new = true /\ exists props, clip = VObj props
         | Throw _ | Exit _ => existsb is_posted new = false
         | OutOfModel => True
         end.
Proof.
  intros H. unfold postClip, existsSync, readFileSync, now_iso in H.
  unfold_monad H. steps H.
  all: split; [by injection H as <- <-|].
  all: leaf H.
  all: try done.
  all: try (destruct clip; try discriminate; split; [done|]; split; [done|]; eauto).
  all: destruct clip; try discriminate; simpl in *; no_throw.
Qed.

(** *** Marking and saving *)

(** The statistics line reads [posted] of every element, which only
    objects allow. *)
Lemma count_if_objects cs n :
  count_if (fun c => let* p := get (Some c) "posted" in Ok (truthy p)) cs = Ok n ->
  Forall (fun c => is_object c = true) cs.
Proof.
  revert n. induction cs as [|c cs IH]; intros n H; [constructor|].
  cbn [count_if] in H.
  destruct c; try discriminate H. cbn [get rbind] in H.
  destruct (count_if _ cs) eqn:E; try discriminate H.
  constructor; [done|]. by eapply IH.
Qed.

Lemma find_id_result clipId cs i :
  Forall (fun c => is_object c = true) cs ->
  match find_from (fun c => let* x := get (Some c) "id" in strict_eq x clipId) i cs with
  | Ok (Some (_, c)) => is_object c = true
  | Ok None | OutOfModel => True
  | Throw _ | Exit _ => False
  end.
Proof.
  intros H. revert i. induction H as [|c cs Hc _ IH]; intros i; [done|].
  cbn [find_from]. destruct c; try discriminate Hc. cbn [get rbind].
  destruct (strict_eq (assoc "id" props) clipId) as [[]| | |] eqn:E; cbn [rbind];
    try done; try apply IH.
  - destruct (assoc "id" props) as [[]|], clipId as [[]|]; discriminate E.
  - destruct (assoc "id" props) as [[]|], clipId as [[]|]; discriminate E.
Qed.

Lemma markAsPosted_summary w db cs n clipId st r st' :
  clips_of db = Ok cs ->
  count_if (fun c => let* p := get (Some c) "posted" in Ok (truthy p)) cs = Ok n ->
  markAsPosted w db clipId st = (r, st') ->
  trace st' = trace st /\ disk st' = disk st
  /\ ((exists db', r = Ok db') \/ r = OutOfModel).
Proof.
  intros Hcs Hn H. apply count_if_objects in Hn.
  pose proof (find_id_result clipId cs 0 Hn) as Hfind.
  unfold markAsPosted, now_iso, with_clips in H. unfold_monad H.
  rewrite Hcs in H. cbv beta iota in H.
  destruct (find_from _ 0 cs) as [[[i clip]|]| | |]; try done.
  - destruct clip; try discriminate Hfind.
    destruct db; try discriminate Hcs.
    cbn in H. injection H as <- <-. eauto.
  - injection H as <- <-. eauto.
  - injection H as <- <-. eauto.
Qed.

Lemma saveDatabase_summary w db st r st' :
  saveDatabase w db st = (r, st') ->
  trace st' = (trace st ++ [EvWrite DATABASE_PATH (JSON_stringify db)])%list
  /\ ((r = Ok tt) \/ (exists e, r = Throw e)).
Proof.
  intros H. unfold saveDatabase, writeFileSync, set_disk in H. unfold_monad H.
  steps H; injection H as <- <-; eauto.
Qed.

(** *** The whole run *)

Lemma main_summary w st r st' :
  main w st = (r, st') -> r <> OutOfModel ->
  exists new,
    trace st' = (trace st ++ new)%list
    /\ (count_events is_write new <= 1)%nat
    /\ existsb is_write new = existsb is_posted new
    /\ (existsb is_posted new = false -> disk st' = disk st).
Proof.
  intros H Hr. unfold main, loadDatabase, existsSync, readFileSync in H.
  unfold_monad H. steps H.
  all: repeat match goal with
       | H : postClip _ _ _ = _ |- _ =>
           apply postClip_summary in H as (? & ? & ? & ? & ?)
       | H : markAsPosted _ _ _ _ = _ |- _ =>
           eapply markAsPosted_summary in H as (? & ? & ?); [|eassumption..]
       | H : saveDatabase _ _ _ = _ |- _ =>
           apply saveDatabase_summary in H as (? & ?)
       end.
  all: injection H as <- <-; cbn [trace disk record_event tick] in *.
  all: eexists; split;
    [ repeat match goal with Ht : trace _ = _ |- _ => rewrite Ht; clear Ht end;
      rewrite <- ?app_assoc; first [ reflexivity | symmetry; apply app_nil_r ] |].
  all: rewrite ?count_events_app, ?existsb_app.
  all: repeat match goal with
       | Hx : existsb is_write ?x = false |- _ =>
           rewrite (count_events_none _ _ Hx), Hx; clear Hx
       end.
  all: cbn -[String.append].
  all: try (split; [lia|]; split; [reflexivity|]; intros; congruence).
  all: repeat match goal with
       | Hx : _ /\ _ |- _ => destruct Hx
       | Hx : _ \/ _ |- _ => destruct Hx
       | Hx : exists _, _ |- _ => destruct Hx
       | Hx : existsb is_posted ?x = _ |- _ => rewrite Hx; clear Hx
       end; subst; cbn [get orb] in *; try congruence.
  all: split; [lia|]; split; [reflexivity|]; intros; congruence.
Qed.

Lemma existsb_elem_of {A} (f : A -> bool) (l : list A) :
  existsb f l = true <-> exists x, x ∈ l /\ f x = true.
Proof.
  rewrite existsb_exists. split; intros (x & Hx & Hf); exists x; split; try done;
    by apply list_elem_of_In.
Qed.

Lemma postClip_ticks w clip st r st' :
  postClip w clip st = (r, st') -> (ticks st <= ticks st')%nat.
Proof.
  intros H. unfold postClip, existsSync, readFileSync, now_iso in H.
  unfold_monad H. steps H.
  all: injection H as <- <-; cbn [ticks record_event tick]; lia.
Qed.

Lemma clock_monotone w :
  (forall k, clock w k <= clock w (S k)) ->
  forall i j, (i <= j)%nat -> clock w i <= clock w j.
Proof.
  intros Hmono i j Hij. induction Hij as [|j _ IH]; [lia|].
  specialize (Hmono j). lia.
Qed.

Lemma unique_id_first_match cs (i : nat) clip :
  NoDup (ids_of cs) -> cs !! i = Some clip ->
  forall (j : nat) c, (j < i)%nat -> cs !! j = Some c ->
                      field c "id" <> field clip "id".
Proof.
  intros Hnd Hi j c Hj Hc Heq.
  assert (i = j); [|lia].
  eapply NoDup_lookup; [exact Hnd| |]; unfold ids_of; rewrite list_lookup_fmap.
  - by rewrite Hi.
  - rewrite Hc. simpl. by rewrite Heq.
Qed.

Lemma saveDatabase_ok w db st st' :
  saveDatabase w db st = (Ok tt, st') ->
  disk st' = <[DATABASE_PATH := File (JSON_stringify db)]> (disk st).
Proof.
  intros H. unfold saveDatabase, writeFileSync, set_disk in H. unfold_monad H.
  steps H; by injection H as <-.
Qed.

(** C3. A successful run on a well-shaped queue with unique identifiers
    and at least one unposted clip leaves on disk the serialisation of the
    loaded database in which exactly the first unposted clip is changed:
    its [posted] is true and its [post_date] is the rendering of a clock
    reading not earlier than the start of the run; its other fields, the
    other clips, their number and their order are as loaded. *)
Theorem successful_run_marks_first_unposted (w : World) (st st' : State)
  (text : string) (db : value) (cs : list value) :
  disk st !! DATABASE_PATH = Some (File text) ->
  JSON_parse text = Ok db ->
  Database_shape db = true ->
  field db "clips" = Some (VArr cs) ->
  NoDup (ids_of cs) ->
  (exists c, c ∈ cs /\ posted_of c = false) ->
  (forall k, clock w k <= clock w (S k)) ->
  main w st = (Ok tt, st') ->
  exists (i : nat) clip clip' db' cs' t,
    (cs !! i = Some clip /\ posted_of clip = false
     /\ forall (j : nat) c, (j < i)%nat -> cs !! j = Some c -> posted_of c = true)
    /\ disk st' = <[DATABASE_PATH := File (JSON_stringify db')]> (disk st)
    /\ field db' "clips" = Some (VArr cs')
    /\ (forall k, k <> "clips" -> field db' k = field db k)
    /\ length cs' = length cs
    /\ cs' !! i = Some clip'
    /\ (forall j : nat, j <> i -> cs' !! j = cs !! j)
    /\ field clip' "posted" = Some (VBool true)
    /\ field clip' "post_date" = Some (VStr (toISOString w t))
    /\ clock w (ticks st) <= t
    /\ (forall k, k <> "posted" -> k <> "post_date" -> field clip' k = field clip k).
Proof.
  intros Hdisk Hparse Hshape Hcs Hnd Hsome Hmono H.
  pose proof (Database_shape_Forall db cs Hshape Hcs) as Hall.
  rewrite Forall_forall in Hall.
  unfold main, loadDatabase, existsSync, readFileSync in H. unfold_monad H.
  step H. rewrite Hdisk in H. step H. rewrite Hdisk in H. cbv beta iota in H.
  rewrite Hparse, (clips_of_shape db cs Hshape Hcs) in H. cbv beta iota in H.
  rewrite (getNextClip_list_find db cs Hshape Hcs) in H.
  destruct (list_find _ cs) as [[i clip]|] eqn:Efind; steps H.
  - (* "All clips have been posted" although [clip] is not *)
    apply list_find_Some in Efind as (Hi & _ & _).
    apply list_elem_of_lookup_2, Hall, Clip_shape_obj in Hi as [props ->].
    discriminate.
  - (* the clip was published, marked and saved *)
    apply list_find_Some in Efind as (Hi & Hun & Hbefore).
    apply negb_true_iff in Hun.
    pose proof (list_elem_of_lookup_2 _ _ _ Hi) as Hin.
    destruct (Clip_shape_obj clip (Hall _ Hin)) as [cprops ->].
    cbn [get] in *. simplify_eq.
    match goal with Hs : saveDatabase _ _ _ = (Ok ?u, _) |- _ => destruct u end.
    destruct (markAsPosted_match w db cs (field (VObj cprops) "id") s i (VObj cprops)
                Hshape Hcs Hi eq_refl (unique_id_first_match cs i _ Hnd Hi))
      as (props & cprops' & -> & [= <-] & Emark).
    cbn [field] in Emark.
    match goal with Hm : markAsPosted _ _ _ _ = _ |- _ =>
      rewrite Emark in Hm; injection Hm as <- <- end.
    match goal with Hs : saveDatabase _ _ _ = _ |- _ =>
      apply saveDatabase_ok in Hs as Hsave end.
    match goal with Hp : postClip _ _ _ = _ |- _ =>
      pose proof (postClip_ticks _ _ _ _ _ Hp) as Hticks;
      apply postClip_summary in Hp as (Hd & _) end.
    cbn [disk ticks tick record_event] in *.
    eexists i, (VObj cprops), _, _, _, (clock w (S (ticks s))).
    split.
    { split; [done|]. split; [done|]. intros j c Hj Hc.
      specialize (Hbefore j c Hc Hj). by destruct (posted_of c). }
    split; [by rewrite Hsave, Hd|].
    split; [apply assoc_assign_eq|].
    split; [intros k Hk; by apply assoc_assign_ne|].
    split; [apply length_insert|].
    split; [apply list_lookup_insert_eq; by eapply lookup_lt_Some|].
    split; [intros j Hj; by apply list_lookup_insert_ne|].
    cbn [field].
    split; [rewrite assoc_assign_ne by done; apply assoc_assign_eq|].
    split; [apply assoc_assign_eq|].
    split; [apply (clock_monotone w Hmono); lia|].
    intros k Hk1 Hk2. by rewrite !assoc_assign_ne.
  - (* nothing selected, yet some clip is unposted *)
    apply list_find_None in Efind. rewrite Forall_forall in Efind.
    destruct Hsome as (c & Hc & Hun). destruct (Efind c Hc). by rewrite Hun.
Qed.

(** The scenario of the specification: the third clip is published and
    marked, the first two are untouched. *)
Lemma successful_run_scenario :
  exists (i : nat) clip clip' db' cs' t,
    ([chicken_dance true (VStr "2023-11-12T15:00:00.000Z");
      her true (VStr "2023-11-13T15:00:00.000Z");
      banana_stand "ad_s01e01_001" false VNull] !! i = Some clip
     /\ posted_of clip = false
     /\ forall (j : nat) c, (j < i)%nat ->
         [chicken_dance true (VStr "2023-11-12T15:00:00.000Z");
          her true (VStr "2023-11-13T15:00:00.000Z");
          banana_stand "ad_s01e01_001" false VNull] !! j = Some c ->
         posted_of c = true)
    /\ disk (snd (main calm scenario_start))
       = <[DATABASE_PATH := File (JSON_stringify db')]> (disk scenario_start)
    /\ field db' "clips" = Some (VArr cs')
    /\ (forall k, k <> "clips" -> field db' k = field scenario_db k)
    /\ length cs' = 3%nat
    /\ cs' !! i = Some clip'
    /\ (forall j : nat, j <> i ->
        cs' !! j
        = [chicken_dance true (VStr "2023-11-12T15:00:00.000Z");
           her true (VStr "2023-11-13T15:00:00.000Z");
           banana_stand "ad_s01e01_001" false VNull] !! j)
    /\ field clip' "posted" = Some (VBool true)
    /\ field clip' "post_date" = Some (VStr (iso8601 t))
    /\ 1700000000000 <= t
    /\ (forall k, k <> "posted" -> k <> "post_date" -> field clip' k = field clip k).
Proof.
  apply (successful_run_marks_first_unposted calm scenario_start
           (snd (main calm scenario_start)) (JSON_stringify scenario_db) scenario_db
           [chicken_dance true (VStr "2023-11-12T15:00:00.000Z");
            her true (VStr "2023-11-13T15:00:00.000Z");
            banana_stand "ad_s01e01_001" false VNull]).
  - by vm_compute.
  - by vm_compute.
  - reflexivity.
  - reflexivity.
  - repeat (apply NoDup_cons; split;
            [intros Hin; repeat (apply elem_of_cons in Hin as [Hin|Hin];
                                 [discriminate Hin|]); by apply elem_of_nil in Hin|]).
    apply NoDup_nil_2.
  - exists (banana_stand "ad_s01e01_001" false VNull). split; [|reflexivity].
    do 2 apply list_elem_of_further. apply list_elem_of_here.
  - intros k. cbn [clock calm]. lia.
  - by vm_compute.
Defined.

(** Outside that invariant: when the unposted clip repeats the identifier
    of an earlier clip, the run publishes the unposted clip and marks the
    earlier one, so the unposted clip stays unposted. *)
Lemma run_with_repeated_identifier :
  let st := start (disk_with (JSON_stringify duplicate_db) ["banana_stand_money.mp4"]) in
  fst (main calm st) = Ok tt
  /\ disk (snd (main calm st)) !! DATABASE_PATH
     = Some (File (JSON_stringify
                     (VObj [("clips",
                             VArr [banana_stand "ad_s01e01_001" true
                                     (VStr "2023-11-14T22:13:22.000Z");
                                   banana_stand "ad_s01e01_001" false VNull])]))).
Proof. split; by vm_compute. Qed.

(** ** What a publish sends *)

Lemma effects_app {A} (m : M A) st new :
  trace (snd (m st)) = (trace st ++ new)%list -> effects m st = new.
Proof. unfold effects. intros ->. apply drop_app_length. Qed.

Ltac exec_postClip H :=
  unfold postClip, existsSync, readFileSync, now_iso in H;
  unfold_monad H; steps H.

(** Splits a membership in an explicit list into its cases. *)
Ltac members H :=
  repeat (apply elem_of_cons in H as [H|H]; [try discriminate H|]);
  try (by apply elem_of_nil in H).

Lemma postClip_posts w props q ch st r st' :
  assoc "quote" props = Some (VStr q) ->
  assoc "character" props = Some (VStr ch) ->
  is_opt_str (assoc "description" props) = true ->
  postClip w (VObj props) st = (r, st') ->
  exists new,
    trace st' = (trace st ++ new)%list
    /\ forall p ok, EvPost p ok ∈ new ->
         text p = String DQ q +:+ String DQ (String LF (String LF "— ")) +:+ ch
         /\ alt p = VStr (description_of (VObj props)).
Proof.
  intros Hq Hch Hd H. unfold description_of. cbn [field].
  exec_postClip H.
  all: cbn [get rbind] in *; rewrite ?Hq, ?Hch in *; cbn [ToString] in *.
  all: leaf H.
  all: intros p ok Hin; members Hin.
  all: injection Hin as -> ->; cbn [text alt]; simplify_eq.
  all: split; [reflexivity|].
  all: destruct (assoc "description" props) as [[]|]; try discriminate Hd; try done.
  all: simplify_eq; try done.
  all: cbn [truthy] in *.
  all: match goal with
       | Hb : ?b = false |- _ =>
           apply negb_false_iff, String.eqb_eq in Hb; by subst
       end.
Qed.

(** C4. Whatever the world, a post that [postClip] submits for a
    well-shaped clip carries as text the quote between quotation marks,
    an empty line, then an em-dash, a space and the speaker; and as
    accessibility text the description, or the empty string when the clip
    has none. *)
Theorem postClip_caption_and_alt (w : World) (clip : value) (q ch : string)
  (st : State) (p : post_record) (ok : bool) :
  Clip_shape clip = true ->
  field clip "quote" = Some (VStr q) ->
  field clip "character" = Some (VStr ch) ->
  EvPost p ok ∈ effects (postClip w clip) st ->
  text p = String DQ q +:+ String DQ (String LF (String LF "— ")) +:+ ch
  /\ alt p = VStr (description_of clip).
Proof.
  intros Hshape Hq Hch Hin.
  destruct (Clip_shape_obj clip Hshape) as [props ->].
  assert (Hd : is_opt_str (assoc "description" props) = true).
  { unfold Clip_shape in Hshape. cbn [field] in Hshape.
    repeat (apply andb_prop in Hshape; destruct Hshape as [Hshape ?]). done. }
  destruct (postClip w (VObj props) st) as [r st'] eqn:H.
  destruct (postClip_posts w props q ch st r st' Hq Hch Hd H) as (new & Ht & Hnew).
  rewrite (effects_app (postClip w (VObj props)) st new) in Hin; [eauto|].
  by rewrite H.
Qed.

(** The caption of the scenario, as the service receives it. *)
Lemma postClip_caption_scenario :
  EvPost {| text := String DQ "There's always money in the banana stand"
                    +:+ String DQ (String LF (String LF "— George Sr."));
            embed_type := "app.bsky.embed.video";
            video := "blob-1";
            alt := VStr "George Sr. tells Michael about the banana stand";
            createdAt := "2023-11-14T22:13:21.000Z" |} true
    ∈ effects (postClip calm (banana_stand "ad_s01e01_001" false VNull)) scenario_start
  /\ String DQ "There's always money in the banana stand"
     +:+ String DQ (String LF (String LF "— George Sr."))
     = String DQ "There's always money in the banana stand"
       +:+ String DQ (String LF (String LF "— ")) +:+ "George Sr."
  /\ VStr "George Sr. tells Michael about the banana stand"
     = VStr (description_of (banana_stand "ad_s01e01_001" false VNull)).
Proof.
  assert (Hin : EvPost {| text := String DQ "There's always money in the banana stand"
                                 +:+ String DQ (String LF (String LF "— George Sr."));
                         embed_type := "app.bsky.embed.video";
                         video := "blob-1";
                         alt := VStr "George Sr. tells Michael about the banana stand";
                         createdAt := "2023-11-14T22:13:21.000Z" |} true
                ∈ effects (postClip calm (banana_stand "ad_s01e01_001" false VNull))
                    scenario_start).
  { vm_compute. do 7 apply list_elem_of_further. apply list_elem_of_here. }
  split; [exact Hin|].
  exact (postClip_caption_and_alt calm (banana_stand "ad_s01e01_001" false VNull)
           "There's always money in the banana stand" "George Sr."
           scenario_start _ true eq_refl eq_refl eq_refl Hin).
Defined.

(** ** The order of the publish steps *)

Lemma postClip_missing_media w props filename st r st' :
  assoc "filename" props = Some (VStr filename) ->
  disk st !! (CLIPS_FOLDER +:+ "/" +:+ filename) = None ->
  postClip w (VObj props) st = (r, st') ->
  disk st' = disk st
  /\ r = match agent_login w (BLUESKY_USERNAME w) (BLUESKY_APP_PASSWORD w) with
         | None => Throw (VideoFileNotFound (CLIPS_FOLDER +:+ "/" +:+ filename))
         | Some msg => Throw (LoginError msg)
         end
  /\ exists new,
      trace st' = (trace st ++ new)%list
      /\ existsb is_upload_or_post new = false.
Proof.
  intros Hf Hdisk H. exec_postClip H.
  all: cbn [get rbind] in *; rewrite ?Hf in *; cbn [ToString] in *; simplify_eq.
  all: try (destruct (BLUESKY_USERNAME w); discriminate).
  all: rewrite ?Hdisk in *; try discriminate.
  all: repeat match goal with Ho : agent_login _ _ _ = _ |- _ => rewrite Ho; clear Ho end.
  all: cbn [disk trace record_event tick].
  all: split; [done|]; split; [done|].
  all: eexists; split; [rewrite <- ?app_assoc; reflexivity|reflexivity].
Qed.

Lemma postClip_in_order w clip st r st' :
  postClip w clip st = (r, st') ->
  exists new,
    trace st' = (trace st ++ new)%list /\ in_order false false new = true.
Proof.
  intros H. exec_postClip H.
  all: leaf H; try reflexivity.
  all: match goal with
       | Hb : negb ?b = false |- _ => apply negb_false_iff in Hb; by rewrite Hb
       end.
Qed.

(** C8, as amended.  When the media file of the clip is absent, the
    publish makes no upload and no post, leaves the disk as it was, and
    fails: with the error "Video file not found" if the login was
    accepted, and with the login error otherwise.  In every publish an
    upload comes only after the media file was found, and a post only
    after an upload was accepted. *)
Theorem missing_media_stops_publish (w : World) (clip : value) (filename : string)
  (st : State) :
  field clip "filename" = Some (VStr filename) ->
  disk st !! (CLIPS_FOLDER +:+ "/" +:+ filename) = None ->
  (forall e, e ∈ effects (postClip w clip) st -> is_upload_or_post e = false)
  /\ disk (snd (postClip w clip st)) = disk st
  /\ fst (postClip w clip st)
     = match agent_login w (BLUESKY_USERNAME w) (BLUESKY_APP_PASSWORD w) with
       | None => Throw (VideoFileNotFound (CLIPS_FOLDER +:+ "/" +:+ filename))
       | Some msg => Throw (LoginError msg)
       end
  /\ (forall w' clip' st', in_order false false (effects (postClip w' clip') st') = true).
Proof.
  intros Hf Hdisk. destruct clip; try discriminate Hf. cbn [field] in Hf.
  destruct (postClip w (VObj props) st) as [r st'] eqn:H.
  destruct (postClip_missing_media w props filename st r st' Hf Hdisk H)
    as (Hd & Hr & new & Ht & Hnew).
  split; [|split; [done|split; [done|]]].
  - rewrite (effects_app (postClip w (VObj props)) st new) by by rewrite H.
    intros e He. destruct (is_upload_or_post e) eqn:E; [|done].
    assert (existsb is_upload_or_post new = true); [|congruence].
    apply existsb_elem_of. eauto.
  - intros w' clip' st0. destruct (postClip w' clip' st0) as [r0 st1] eqn:H'.
    destruct (postClip_in_order w' clip' st0 r0 st1 H') as (new' & Ht' & Ho).
    rewrite (effects_app (postClip w' clip') st0 new'); [done|]. by rewrite H'.
Qed.

(** The media file is absent and the login is accepted: the publish fails
    with "Video file not found" before any upload. *)
Lemma missing_media_scenario :
  (forall e,
     e ∈ effects (postClip calm (banana_stand "ad_s01e01_001" false VNull))
           scenario_without_video ->
     is_upload_or_post e = false)
  /\ fst (postClip calm (banana_stand "ad_s01e01_001" false VNull) scenario_without_video)
     = Throw (VideoFileNotFound "./clips/banana_stand_money.mp4").
Proof.
  pose proof (missing_media_stops_publish calm
                (banana_stand "ad_s01e01_001" false VNull)
                "banana_stand_money.mp4" scenario_without_video eq_refl)
    as H.
  destruct H as (H1 & _ & H3 & _); [by vm_compute|].
  split; [exact H1|exact H3].
Defined.

(** The media file is absent and the login is rejected: the publish, and
    the run, fail with the login error, not with "Video file not found". *)
Lemma missing_media_with_rejected_login :
  disk scenario_without_video !! (CLIPS_FOLDER +:+ "/" +:+ "banana_stand_money.mp4")
  = None
  /\ getNextClip scenario_db = Ok (banana_stand "ad_s01e01_001" false VNull)
  /\ fst (postClip rejecting_login (banana_stand "ad_s01e01_001" false VNull)
            scenario_without_video)
     = Throw (LoginError "Invalid identifier or password")
  /\ fst (main rejecting_login scenario_without_video) = Exit 1
  /\ EvReport (LoginError "Invalid identifier or password")
     ∈ effects (main rejecting_login) scenario_without_video
  /\ ~ (exists path, EvReport (VideoFileNotFound path)
                     ∈ effects (main rejecting_login) scenario_without_video).
Proof.
  split; [by vm_compute|]. split; [reflexivity|]. split; [by vm_compute|].
  split; [by vm_compute|].
  assert (E : effects (main rejecting_login) scenario_without_video
              = [EvLog "Loading clip database...";
                 EvExists "./clips_database.json" true;
                 EvRead "./clips_database.json";
                 EvLog (String LF "Database: 2/3 clips posted");
                 EvLog (String LF "Next clip:");
                 EvLog ("  George Sr.: " +:+ String DQ "There's always money in the banana stand"
                        +:+ String DQ "");
                 EvLog "  File: banana_stand_money.mp4";
                 EvLog (String LF "Logging in as bot.bsky.social...");
                 EvLogin (Some "bot.bsky.social") (Some "abcd-efgh-ijkl-mnop") false;
                 EvReport (LoginError "Invalid identifier or password")]).
  { by vm_compute. }
  rewrite E. split.
  - do 9 apply list_elem_of_further. apply list_elem_of_here.
  - intros (path & Hin). members Hin.
Qed.

(** ** The declared media type *)

Lemma postClip_uploads w clip st r st' :
  postClip w clip st = (r, st') ->
  exists new,
    trace st' = (trace st ++ new)%list /\ forallb declares_mp4 new = true.
Proof. intros H. exec_postClip H. all: by leaf H. Qed.

Lemma markAsPosted_trace w db clipId st r st' :
  markAsPosted w db clipId st = (r, st') -> trace st' = trace st.
Proof.
  intros H. unfold markAsPosted, now_iso, with_clips in H. unfold_monad H.
  steps H; by injection H as <- <-.
Qed.

Lemma main_uploads w st r st' :
  main w st = (r, st') ->
  exists new,
    trace st' = (trace st ++ new)%list /\ forallb declares_mp4 new = true.
Proof.
  intros H. unfold main, loadDatabase, existsSync, readFileSync in H.
  unfold_monad H. steps H.
  all: repeat match goal with
       | H : postClip _ _ _ = _ |- _ =>
           apply postClip_uploads in H as (? & ? & ?)
       | H : markAsPosted _ _ _ _ = _ |- _ => apply markAsPosted_trace in H
       | H : saveDatabase _ _ _ = _ |- _ =>
           apply saveDatabase_summary in H as (? & _)
       end.
  all: injection H as <- <-; cbn [trace disk record_event tick] in *.
  all: eexists; split;
    [ repeat match goal with Ht : trace _ = _ |- _ => rewrite Ht; clear Ht end;
      rewrite <- ?app_assoc; first [ reflexivity | symmetry; apply app_nil_r ] |].
  all: rewrite ?forallb_app; cbn -[String.append].
  all: repeat match goal with Hx : forallb _ _ = true |- _ => rewrite Hx; clear Hx end.
  all: reflexivity.
Qed.

(** C10. Every call of [agent.uploadBlob] in a run declares the type
    [video/mp4], whatever the clip's file name and the bytes of the file. *)
Theorem uploads_declare_mp4 (w : World) (st : State)
  (data encoding : string) (ok : bool) :
  EvUpload data encoding ok ∈ effects (main w) st -> encoding = "video/mp4".
Proof.
  destruct (main w st) as [r st'] eqn:H.
  destruct (main_uploads w st r st' H) as (new & Ht & Hall).
  rewrite (effects_app (main w) st new) by by rewrite H.
  intros Hin. apply list_elem_of_In in Hin.
  rewrite forallb_forall in Hall. specialize (Hall _ Hin).
  by apply String.eqb_eq in Hall.
Qed.

(** The upload of the scenario. *)
Lemma uploads_declare_mp4_scenario :
  EvUpload "mp4-bytes" "video/mp4" true ∈ effects (main calm) scenario_start
  /\ "video/mp4" = "video/mp4".
Proof.
  assert (Hin : EvUpload "mp4-bytes" "video/mp4" true
                ∈ effects (main calm) scenario_start).
  { vm_compute. do 12 apply list_elem_of_further. apply list_elem_of_here. }
  split; [exact Hin|].
  exact (uploads_declare_mp4 calm scenario_start "mp4-bytes" "video/mp4" true Hin).
Defined.

(** ** Loading *)

Lemma loadDatabase_absent st :
  disk st !! DATABASE_PATH = None ->
  loadDatabase st
  = (Exit 1,
     record_event (EvError "Error: Database file not found at ./clips_database.json")
       (record_event (EvExists DATABASE_PATH false) st)).
Proof.
  intros H. unfold loadDatabase, existsSync, readFileSync.
  unfold bind, ret, process_exit, lift, console_error, emit. by rewrite H.
Qed.

Lemma loadDatabase_present st text :
  disk st !! DATABASE_PATH = Some (File text) ->
  loadDatabase st
  = (JSON_parse text,
     record_event (EvRead DATABASE_PATH)
       (record_event (EvExists DATABASE_PATH true) st)).
Proof.
  intros H. unfold loadDatabase, existsSync, readFileSync.
  unfold bind, ret, process_exit, lift, console_error, emit.
  cbn [disk record_event]. rewrite H.
  rewrite bool_decide_true by eauto. cbn [negb disk record_event].
  by rewrite H.
Qed.

(** C5, as amended.  [loadDatabase] ends the process with status 1 when
    the record is absent.  When the record is a file, the result is
    what [JSON.parse] makes of its text and nothing else is checked: a
    text that is not JSON throws a [SyntaxError], and every text that
    parses is returned, whatever its shape and whether or not two clips
    share an identifier. *)
Theorem loadDatabase_outcomes (st : State) :
  (disk st !! DATABASE_PATH = None -> fst (loadDatabase st) = Exit 1)
  /\ (forall text,
        disk st !! DATABASE_PATH = Some (File text) ->
        fst (loadDatabase st) = JSON_parse text
        /\ forall db, JSON_parse text = Ok db -> fst (loadDatabase st) = Ok db)
  /\ disk (snd (loadDatabase st)) = disk st.
Proof.
  split; [|split].
  - intros H. by rewrite (loadDatabase_absent st H).
  - intros text H. rewrite (loadDatabase_present st text H). cbn [fst].
    split; [done|]. by intros db ->.
  - destruct (loadDatabase st) as [r st'] eqn:H.
    unfold loadDatabase, existsSync, readFileSync in H. unfold_monad H.
    steps H; by injection H as <- <-.
Qed.

(** Loading the record of the scenario, and loading when there is no
    record. *)
Lemma loadDatabase_scenario :
  (disk (start ∅) !! DATABASE_PATH = None /\ fst (loadDatabase (start ∅)) = Exit 1)
  /\ disk scenario_start !! DATABASE_PATH = Some (File (JSON_stringify scenario_db))
  /\ fst (loadDatabase scenario_start) = JSON_parse (JSON_stringify scenario_db)
  /\ JSON_parse (JSON_stringify scenario_db) = Ok scenario_db.
Proof.
  assert (Hfile : disk scenario_start !! DATABASE_PATH
                  = Some (File (JSON_stringify scenario_db))) by by vm_compute.
  destruct (loadDatabase_outcomes (start ∅)) as (H1 & _ & _).
  destruct (loadDatabase_outcomes scenario_start) as (_ & H2 & _).
  split; [split; [reflexivity | exact (H1 eq_refl)]|].
  split; [exact Hfile|].
  split; [exact (proj1 (H2 _ Hfile)) | by vm_compute].
Defined.

(** A record without [clips], and a record in which two clips carry the
    same identifier, both load without error. *)
Lemma loadDatabase_accepts_any_json :
  fst (loadDatabase (start (disk_with "{}" []))) = Ok (VObj [])
  /\ Database_shape (VObj []) = false
  /\ fst (loadDatabase (start (disk_with (JSON_stringify duplicate_db) [])))
     = Ok duplicate_db
  /\ ids_of [banana_stand "ad_s01e01_001" true (VStr "2023-11-12T15:00:00.000Z");
             banana_stand "ad_s01e01_001" false VNull]
     = [Some (VStr "ad_s01e01_001"); Some (VStr "ad_s01e01_001")].
Proof. repeat split; by vm_compute. Qed.

(** ** Saving *)

(** C7, as amended.  [saveDatabase] makes one call of [writeFileSync]
    with the serialisation of the whole database.  When the write goes
    through, the record is that text; when the file cannot be opened the
    record is as before and the error is thrown; when the write fails
    after the file was opened, the error is thrown and the record holds
    only the part written so far. *)
Theorem saveDatabase_outcomes (w : World) (db : value) (st : State) :
  disk st !! DATABASE_PATH <> Some Directory ->
  effects (saveDatabase w db) st = [EvWrite DATABASE_PATH (JSON_stringify db)]
  /\ match write_fault_of w DATABASE_PATH (JSON_stringify db) with
     | NoFault =>
         fst (saveDatabase w db st) = Ok tt
         /\ disk (snd (saveDatabase w db st))
            = <[DATABASE_PATH := File (JSON_stringify db)]> (disk st)
     | OpenFails =>
         fst (saveDatabase w db st) = Throw (FsError DATABASE_PATH)
         /\ disk (snd (saveDatabase w db st)) = disk st
     | FailsAfter k =>
         fst (saveDatabase w db st) = Throw (FsError DATABASE_PATH)
         /\ disk (snd (saveDatabase w db st))
            = <[DATABASE_PATH := File (String.substring 0 k (JSON_stringify db))]>
                (disk st)
     end.
Proof.
  intros Hdir. split.
  - apply effects_app. destruct (saveDatabase w db st) as [r st'] eqn:H.
    cbn [snd]. by destruct (saveDatabase_summary w db st r st' H) as [-> _].
  - unfold saveDatabase, writeFileSync, set_disk.
    unfold bind, ret, throw, lift, emit. cbn [disk record_event].
    destruct (disk st !! DATABASE_PATH) as [[]|]; try done;
      by destruct (write_fault_of w DATABASE_PATH (JSON_stringify db)).
Qed.

(** Saving on a disk that takes the write. *)
Lemma saveDatabase_scenario :
  effects (saveDatabase calm scenario_db) scenario_start
  = [EvWrite DATABASE_PATH (JSON_stringify scenario_db)]
  /\ fst (saveDatabase calm scenario_db scenario_start) = Ok tt
  /\ disk (snd (saveDatabase calm scenario_db scenario_start))
     = <[DATABASE_PATH := File (JSON_stringify scenario_db)]> (disk scenario_start).
Proof.
  destruct (saveDatabase_outcomes calm scenario_db scenario_start) as [H1 H2].
  - by vm_compute.
  - split; [exact H1 | exact H2].
Defined.

(** A write that fails after ten bytes: the run has published the clip,
    the record on disk is neither the old one nor the new one, and the
    next load cannot read it. *)
Lemma saveDatabase_not_atomic :
  let st' := snd (main (failing_disk (FailsAfter 10)) scenario_start) in
  fst (main (failing_disk (FailsAfter 10)) scenario_start) = Exit 1
  /\ disk scenario_start !! DATABASE_PATH = Some (File (JSON_stringify scenario_db))
  /\ disk st' !! DATABASE_PATH
     = Some (File ("{" +:+ String LF "  " +:+ String DQ "clips"))
  /\ fst (loadDatabase st') = Throw SyntaxError.
Proof. repeat split; by vm_compute. Qed.

(** ** A load followed by a save *)


(** ** Strings *)

Lemma append_cons (x : ascii) (a b : string) :
  String x a +:+ b = String x (a +:+ b).
Proof. reflexivity. Qed.

Lemma append_nil_l (b : string) : "" +:+ b = b.
Proof. reflexivity. Qed.

Lemma append_assoc (a b c : string) : (a +:+ b) +:+ c = a +:+ b +:+ c.
Proof.
  induction a as [|x a IH]; [done|]. rewrite !append_cons. by f_equal.
Qed.

Lemma append_nil_r (a : string) : a +:+ "" = a.
Proof.
  induction a as [|x a IH]; [done|]. rewrite append_cons. by f_equal.
Qed.

Lemma length_append (a b : string) :
  String.length (a +:+ b) = (String.length a + String.length b)%nat.
Proof.
  induction a as [|x a IH]; [done|]. rewrite append_cons.
  cbn [String.length]. by rewrite IH.
Qed.

(** Brings the characters at the head of a concatenation to the front. *)
Ltac heads := rewrite ?append_assoc, ?append_cons, ?append_nil_l.

(** ** Induction on values *)

Lemma value_ind (P : value -> Prop) :
  P VNull -> (forall b, P (VBool b)) -> (forall n, P (VNum n)) ->
  (forall s, P (VStr s)) ->
  (forall items, Forall P items -> P (VArr items)) ->
  (forall props, Forall (fun kv => P (snd kv)) props -> P (VObj props)) ->
  forall v, P v.
Proof.
  intros Hnull Hbool Hnum Hstr Harr Hobj.
  fix IH 1. intros [| b | n | s | items | props].
  - exact Hnull.
  - apply Hbool.
  - apply Hnum.
  - apply Hstr.
  - apply Harr. induction items as [|x xs IHxs]; constructor; [apply IH | exact IHxs].
  - apply Hobj. induction props as [|[k x] ps IHps]; constructor;
      [apply IH | exact IHps].
Qed.

(** ** The serialisation, unfolded *)

Lemma stringify_at_items ind x xs :
  stringify_at ind (VArr (x :: xs))
  = "[" +:+ newline (2 + ind) +:+ stringify_at (2 + ind) x
    +:+ more_items ind xs +:+ newline ind +:+ "]".
Proof.
  cbn [stringify_at]. do 4 f_equal.
  induction xs as [|y ys IH]; [done|]. cbn [more_items]. by rewrite <- IH.
Qed.

Lemma stringify_at_members ind k x ps :
  stringify_at ind (VObj ((k, x) :: ps))
  = "{" +:+ newline (2 + ind) +:+ quote k +:+ ": " +:+ stringify_at (2 + ind) x
    +:+ more_members ind ps +:+ newline ind +:+ "}".
Proof.
  cbn [stringify_at]. do 6 f_equal.
  induction ps as [|[k' y] ys IH]; [done|]. cbn [more_members]. by rewrite <- IH.
Qed.

Lemma in_fragment_items items :
  in_fragment (VArr items) <-> Forall in_fragment items.
Proof.
  cbn [in_fragment]. induction items as [|x xs IH].
  - split; [intros _; constructor | done].
  - rewrite Forall_cons, <- IH. tauto.
Qed.

Lemma in_fragment_members props :
  in_fragment (VObj props)
  <-> NoDup (map fst props)
      /\ Forall (fun kv => key_ok (fst kv) = true /\ in_fragment (snd kv)) props.
Proof.
  cbn [in_fragment]. apply and_iff_compat_l.
  induction props as [|[k x] ps IH].
  - split; [intros _; constructor | done].
  - rewrite Forall_cons. cbn [fst snd]. rewrite <- IH. tauto.
Qed.

Lemma fuel_for_arr items : fuel_for (VArr items) = S (fuel_for_items items).
Proof.
  reflexivity.
Qed.

Lemma fuel_for_obj props : fuel_for (VObj props) = S (fuel_for_members props).
Proof.
  reflexivity.
Qed.

(** ** Reading back what [JSON_stringify] writes *)

Lemma skip_ws_spaces n s : skip_ws (spaces n +:+ s) = skip_ws s.
Proof. induction n as [|n IH]; [done|]. exact IH. Qed.

Lemma skip_ws_newline n s : skip_ws (newline n +:+ s) = skip_ws s.
Proof. unfold newline. rewrite append_cons. apply skip_ws_spaces. Qed.

Lemma skip_ws_head c r : is_ws c = false -> skip_ws (String c r) = String c r.
Proof. intros H. cbn [skip_ws]. by rewrite H. Qed.

Lemma read_escape_char c tail :
  (N_of_ascii c <? 128)%N = true ->
  read_chars (escape_char c +:+ tail) = push_char c (read_chars tail).
Proof.
  destruct c as [[] [] [] [] [] [] [] b7]; destruct b7;
    intros H; try (vm_compute in H; discriminate H); reflexivity.
Qed.

Lemma read_escape s rest :
  ascii_only s = true ->
  read_chars (escape s +:+ String DQ rest) = Ok (s, rest).
Proof.
  induction s as [|c s IH]; intros H; [done|].
  cbn [ascii_only] in H. apply andb_prop in H as [Hc Hs].
  cbn [escape]. rewrite append_assoc, (read_escape_char c _ Hc), (IH Hs). done.
Qed.

Lemma read_quote s rest :
  ascii_only s = true ->
  read_chars (escape s +:+ String DQ "" +:+ rest) = Ok (s, rest).
Proof. intros H. rewrite append_cons, append_nil_l. by apply read_escape. Qed.

(** *** Numbers *)

Lemma parse_value_number fuel c r :
  number_head c = true ->
  parse_value (S fuel) (String c r) = read_number (String c r).
Proof.
  destruct c as [[] [] [] [] [] [] [] b7]; destruct b7;
    intros H; try (vm_compute in H; discriminate H); reflexivity.
Qed.

Lemma read_digits_back u rest :
  ends_number rest = true ->
  read_digits (NilEmpty.string_of_uint u +:+ rest) = (u, rest).
Proof.
  intros Hrest.
  induction u; cbn [NilEmpty.string_of_uint]; rewrite ?append_cons;
    try (cbn -[String.append]; by rewrite IHu).
  rewrite append_nil_l. destruct rest as [|c r]; [done|].
  cbn [read_digits]. unfold ends_number in Hrest.
  by destruct (digit_of c).
Qed.

Lemma to_uint_head p :
  match Pos.to_uint p with
  | Nil | D0 _ => False
  | _ => True
  end.
Proof.
  pose proof (DecimalPos.Unsigned.to_uint_nonzero p) as Hz.
  pose proof (DecimalPos.Unsigned.to_uint_nonnil p) as Hn.
  assert (Hnorm : unorm (Pos.to_uint p) = Pos.to_uint p).
  { rewrite <- (DecimalPos.Unsigned.to_of (Pos.to_uint p)).
    by rewrite DecimalPos.Unsigned.of_to. }
  destruct (Pos.to_uint p) as [|u| | | | | | | | |] eqn:E; try done.
  rewrite unorm_D0 in Hnorm.
  assert (Hcase : u = Nil \/ u <> Nil) by (destruct u; [left | right..]; done).
  destruct Hcase as [->|Hu]; [done|].
  pose proof (nb_digits_unorm u Hu) as Hle. rewrite Hnorm in Hle.
  cbn [nb_digits] in Hle. lia.
Qed.

Lemma string_of_uint_nonnil u :
  u <> Nil -> NilZero.string_of_uint u = NilEmpty.string_of_uint u.
Proof. by destruct u. Qed.

Lemma read_unsigned_back u rest :
  match u with Nil => False | D0 Nil => True | D0 _ => False | _ => True end ->
  (nb_digits u <= 15)%nat ->
  ends_number rest = true ->
  read_unsigned (NilEmpty.string_of_uint u +:+ rest) = Ok (u, rest).
Proof.
  intros Hhead Hlen Hrest. unfold read_unsigned.
  rewrite (read_digits_back u rest Hrest). cbn [fst snd].
  assert (Hfrac : starts_fraction_or_exponent rest = false).
  { destruct rest as [|c r]; [done|]. unfold ends_number in Hrest.
    destruct (digit_of c); [done|]. by apply negb_true_iff in Hrest. }
  assert (Hfew : (15 <? nb_digits u)%nat = false) by (apply Nat.ltb_ge; lia).
  rewrite Hfrac, Hfew.
  destruct u as [|[]| | | | | | | | |]; done.
Qed.

Lemma read_number_digits u rest :
  u <> Nil ->
  read_number (NilEmpty.string_of_uint u +:+ rest)
  = (let* p := read_unsigned (NilEmpty.string_of_uint u +:+ rest) in
     Ok (VNum (Z.of_int (Pos (fst p))), snd p))
  /\ exists c r, NilEmpty.string_of_uint u +:+ rest = String c r
                 /\ number_head c = true.
Proof.
  destruct u; try done; intros _; cbn [NilEmpty.string_of_uint];
    rewrite append_cons; (split; [reflexivity | by eexists _, _]).
Qed.

Lemma read_number_back n rest :
  (digits_of_Z n <= 15)%nat ->
  ends_number rest = true ->
  read_number (string_of_Z n +:+ rest) = Ok (VNum n, rest)
  /\ exists c r, string_of_Z n +:+ rest = String c r /\ number_head c = true.
Proof.
  intros Hlen Hrest. unfold string_of_Z, digits_of_Z in *.
  pose proof (DecimalZ.of_to n) as Hback.
  destruct n as [|p|p]; cbn [Z.to_int NilZero.string_of_int] in *.
  - change (NilZero.string_of_uint zero) with (NilEmpty.string_of_uint (D0 Nil)).
    destruct (read_number_digits (D0 Nil) rest) as [-> Hhead]; [done|].
    split; [|done]. by rewrite read_unsigned_back.
  - pose proof (to_uint_head p) as Hp.
    rewrite string_of_uint_nonnil by (by destruct (Pos.to_uint p)).
    destruct (read_number_digits (Pos.to_uint p) rest) as [-> Hhead];
      [by destruct (Pos.to_uint p)|].
    split; [|done].
    rewrite read_unsigned_back;
      [|by destruct (Pos.to_uint p) as [|[]| | | | | | | | |]|done..].
    cbn [rbind fst snd]. by rewrite Hback.
  - pose proof (to_uint_head p) as Hp.
    rewrite string_of_uint_nonnil by (by destruct (Pos.to_uint p)).
    rewrite append_cons. split; [|by eexists _, _].
    cbn [read_number].
    rewrite read_unsigned_back;
      [|by destruct (Pos.to_uint p) as [|[]| | | | | | | | |]|done..].
    cbn [rbind fst snd]. by rewrite Hback.
Qed.

(** *** Values *)

Lemma skip_ws_idem s : skip_ws (skip_ws s) = skip_ws s.
Proof.
  induction s as [|c s IH]; [done|]. cbn [skip_ws].
  destruct (is_ws c) eqn:E; [done|]. cbn [skip_ws]. by rewrite E.
Qed.

Lemma parse_value_skip fuel s : parse_value fuel (skip_ws s) = parse_value fuel s.
Proof. destruct fuel; [done|]. cbn [parse_value]. by rewrite skip_ws_idem. Qed.

Lemma parse_elements_skip fuel s acc :
  parse_elements fuel (skip_ws s) acc = parse_elements fuel s acc.
Proof. destruct fuel; [done|]. cbn [parse_elements]. by rewrite parse_value_skip. Qed.

Lemma parse_members_skip fuel s acc :
  parse_members fuel (skip_ws s) acc = parse_members fuel s acc.
Proof. destruct fuel; [done|]. cbn [parse_members]. by rewrite skip_ws_idem. Qed.

Lemma number_head_value_head c : number_head c = true -> value_head c = true.
Proof.
  destruct c as [[] [] [] [] [] [] [] b7]; destruct b7;
    intros H; try (vm_compute in H; discriminate H); reflexivity.
Qed.

Lemma array_dispatch fuel s c r :
  skip_ws s = String c r -> value_head c = true ->
  parse_value (S fuel) (String "[" s) = parse_elements fuel (String c r) [].
Proof.
  intros Hs Hc. cbn [parse_value]. rewrite skip_ws_head by done.
  cbn -[skip_ws parse_elements]. rewrite Hs. clear Hs.
  destruct c as [[] [] [] [] [] [] [] b7]; destruct b7;
    try (vm_compute in Hc; discriminate Hc); reflexivity.
Qed.

Lemma object_dispatch fuel s r :
  skip_ws s = String DQ r ->
  parse_value (S fuel) (String "{" s) = parse_members fuel (String DQ r) [].
Proof.
  intros Hs. cbn [parse_value]. rewrite skip_ws_head by done.
  cbn -[skip_ws parse_members]. by rewrite Hs.
Qed.

Lemma stringify_head ind v rest :
  in_fragment v -> ends_number rest = true ->
  exists c r, stringify_at ind v +:+ rest = String c r /\ value_head c = true.
Proof.
  intros Hv Hrest. destruct v as [| [] | n | s | [|x xs] | [|[k x] ps]];
    try (by eexists _, _).
  - destruct (read_number_back n rest Hv Hrest) as (_ & c & r & E & Hc).
    exists c, r. split; [done|]. by apply number_head_value_head.
Qed.

Lemma ends_number_comma s : ends_number (String "," s) = true.
Proof. reflexivity. Qed.

Lemma ends_number_newline n s : ends_number (newline n +:+ s) = true.
Proof. reflexivity. Qed.

(** The elements of an array, given that each of them reads back. *)
Lemma parse_elements_back ind rest xs :
  Forall (fun v =>
            forall ind fuel rest,
              (fuel_for v <= fuel)%nat -> ends_number rest = true ->
              parse_value fuel (stringify_at ind v +:+ rest) = Ok (v, rest)) xs ->
  forall x acc fuel,
    (forall ind fuel rest,
       (fuel_for x <= fuel)%nat -> ends_number rest = true ->
       parse_value fuel (stringify_at ind x +:+ rest) = Ok (x, rest)) ->
    (fuel_for_items (x :: xs) <= fuel)%nat ->
    parse_elements fuel
      (stringify_at (2 + ind) x +:+ more_items ind xs +:+ newline ind +:+ "]" +:+ rest)
      acc
    = Ok (VArr (rev acc ++ x :: xs), rest).
Proof.
  induction 1 as [|y ys Hy _ IH]; intros x acc fuel Hx Hfuel;
    cbn [fuel_for_items] in Hfuel; (destruct fuel as [|fuel]; [lia|]);
    cbn [parse_elements more_items].
  - rewrite append_nil_l, Hx by (done || lia). cbn [rbind fst snd].
    rewrite skip_ws_newline. reflexivity.
  - rewrite !append_assoc, append_cons, append_nil_l.
    rewrite Hx by (done || lia). cbn [rbind fst snd].
    rewrite skip_ws_head by done.
    rewrite <- parse_elements_skip, skip_ws_newline, parse_elements_skip.
    rewrite <- !append_assoc, !append_assoc.
    rewrite (IH y (x :: acc) fuel Hy) by (cbn [fuel_for_items]; lia).
    cbn [rev]. by rewrite <- app_assoc.
Qed.

Lemma assoc_None k props : k ∉ map fst props -> assoc k props = None.
Proof.
  induction props as [|[k' v] ps IH]; [done|]. cbn [map fst assoc].
  intros Hk. apply not_elem_of_cons in Hk as [Hne Hk].
  destruct (String.eqb k k') eqn:E; [by apply String.eqb_eq in E|]. by apply IH.
Qed.

Lemma read_key k tail :
  ascii_only k = true ->
  read_chars (escape k +:+ String DQ "" +:+ tail) = Ok (k, tail).
Proof. apply read_quote. Qed.

Lemma parse_members_key fuel acc k tail :
  ascii_only k = true -> digit_key k = false ->
  parse_members (S fuel) (quote k +:+ ": " +:+ tail) acc
  = (let* p := parse_value fuel tail in
     match skip_ws (snd p) with
     | String "," r'' => parse_members fuel r'' (assign k (fst p) acc)
     | String "}" r'' => Ok (VObj (assign k (fst p) acc), r'')
     | _ => Throw SyntaxError
     end).
Proof.
  intros Hk Hd. unfold quote. rewrite !append_cons, !append_assoc.
  cbn [parse_members]. rewrite skip_ws_head by done.
  change (N_of_ascii DQ =? 34)%N with true. cbv iota.
  rewrite !append_cons, append_nil_l, read_escape by done.
  cbn [rbind fst snd]. rewrite Hd, skip_ws_head by done.
  rewrite append_nil_l.
  rewrite <- (parse_value_skip fuel (String " " tail)). cbn [skip_ws].
  change (is_ws " ") with true. cbv iota. by rewrite parse_value_skip.
Qed.

(** The members of an object, given that each value reads back. *)
Lemma parse_members_back ind rest ps :
  Forall (fun kv =>
            key_ok (fst kv) = true
            /\ forall ind fuel rest,
                (fuel_for (snd kv) <= fuel)%nat -> ends_number rest = true ->
                parse_value fuel (stringify_at ind (snd kv) +:+ rest)
                = Ok (snd kv, rest)) ps ->
  forall k x acc fuel,
    key_ok k = true ->
    (forall ind fuel rest,
       (fuel_for x <= fuel)%nat -> ends_number rest = true ->
       parse_value fuel (stringify_at ind x +:+ rest) = Ok (x, rest)) ->
    NoDup (map fst acc ++ k :: map fst ps) ->
    (fuel_for_members ((k, x) :: ps) <= fuel)%nat ->
    parse_members fuel
      (quote k +:+ ": " +:+ stringify_at (2 + ind) x +:+ more_members ind ps
       +:+ newline ind +:+ "}" +:+ rest)
      acc
    = Ok (VObj (acc ++ (k, x) :: ps), rest).
Proof.
  induction 1 as [|[k' y] ys [Hk' Hy] _ IH]; intros k x acc fuel Hk Hx Hnd Hfuel;
    cbn [fuel_for_members] in Hfuel; (destruct fuel as [|fuel]; [lia|]);
    apply andb_prop in Hk as [Hascii Hdigit]; apply negb_true_iff in Hdigit;
    assert (Hfresh : assoc k acc = None)
      by (apply assoc_None; apply NoDup_app in Hnd as (_ & Hnd & _);
          intros Hin; apply (Hnd k Hin); left);
    rewrite parse_members_key by done; cbn [more_members].
  - rewrite append_nil_l, Hx by (done || lia). cbn [rbind fst snd].
    rewrite (assign_keys_missing _ _ _ Hfresh).
    by rewrite skip_ws_newline.
  - rewrite !append_assoc, append_cons, append_nil_l.
    rewrite Hx by (done || lia). cbn [rbind fst snd].
    rewrite (assign_keys_missing _ _ _ Hfresh).
    rewrite skip_ws_head by done.
    rewrite <- parse_members_skip, skip_ws_newline, parse_members_skip.
    cbn [fst snd] in *.
    rewrite <- !append_assoc, !append_assoc.
    rewrite (IH k' y (acc ++ [(k, x)])%list fuel Hk' Hy).
    + by rewrite <- app_assoc.
    + rewrite map_app, <- app_assoc. exact Hnd.
    + cbn [fuel_for_members]. lia.
Qed.

(** Every value of the fragment reads back from its serialisation, with
    the text that follows it left over. *)
Lemma parse_value_back v :
  in_fragment v ->
  forall ind fuel rest,
    (fuel_for v <= fuel)%nat -> ends_number rest = true ->
    parse_value fuel (stringify_at ind v +:+ rest) = Ok (v, rest).
Proof.
  induction v as [| b | n | s | items IH | props IH] using value_ind;
    intros Hv ind fuel rest Hfuel Hrest;
    (destruct fuel as [|fuel]; [cbn [fuel_for] in Hfuel; lia|]).
  - reflexivity.
  - by destruct b.
  - destruct (read_number_back n rest Hv Hrest) as (Hread & c & r & E & Hc).
    cbn [stringify_at]. rewrite E, (parse_value_number fuel c r Hc), <- E. exact Hread.
  - cbn [stringify_at in_fragment] in *. unfold quote.
    rewrite append_cons, append_assoc, append_cons, append_nil_l.
    cbn [parse_value]. rewrite skip_ws_head by done.
    change (N_of_ascii DQ =? 123)%N with false.
    change (N_of_ascii DQ =? 91)%N with false.
    change (N_of_ascii DQ =? 34)%N with true. cbv iota.
    by rewrite read_escape.
  - apply in_fragment_items in Hv. rewrite fuel_for_arr in Hfuel.
    destruct items as [|x xs]; [reflexivity|].
    apply Forall_cons in IH as [IHx IHxs]. apply Forall_cons in Hv as [Hx Hxs].
    rewrite stringify_at_items, !append_assoc, append_cons, append_nil_l.
    destruct (stringify_head (2 + ind) x
                (more_items ind xs +:+ newline ind +:+ "]" +:+ rest) Hx)
      as (c & r & E & Hc); [by destruct xs|].
    erewrite array_dispatch; [|by rewrite skip_ws_newline, E, skip_ws_head
                                  by (by apply andb_prop in Hc as [?%negb_true_iff _])
                               |done].
    rewrite <- E.
    rewrite (parse_elements_back ind rest xs) with (acc := []); [done| |by auto|lia].
    eapply Forall_impl; [apply Forall_and; split; [exact Hxs | exact IHxs]|].
    intros v [Hv' IHv]. by apply IHv.
  - apply in_fragment_members in Hv as [Hnd Hv]. rewrite fuel_for_obj in Hfuel.
    destruct props as [|[k x] ps]; [reflexivity|].
    apply Forall_cons in IH as [IHx IHps]. apply Forall_cons in Hv as [[Hk Hx] Hps].
    cbn [fst snd] in *.
    rewrite stringify_at_members, !append_assoc, append_cons, append_nil_l.
    erewrite object_dispatch;
      [|unfold quote; by rewrite skip_ws_newline, !append_cons, skip_ws_head by done].
    replace (String DQ _)
      with (quote k +:+ ": " +:+ stringify_at (2 + ind) x +:+ more_members ind ps
            +:+ newline ind +:+ "}" +:+ rest)
      by (unfold quote; by rewrite !append_cons, !append_assoc).
    rewrite (parse_members_back ind rest ps) with (acc := []); [done| |done|by auto|done|lia].
    eapply Forall_impl; [apply Forall_and; split; [exact Hps | exact IHps]|].
    intros [k' y] [[Hk' Hy] IHy]. split; [done|]. by apply IHy.
Qed.

(** *** Enough fuel *)

Lemma string_of_Z_length n : (1 <= String.length (string_of_Z n))%nat.
Proof.
  unfold string_of_Z. destruct n as [|p|p]; cbn [Z.to_int NilZero.string_of_int].
  - cbn. lia.
  - pose proof (to_uint_head p) as Hp.
    destruct (Pos.to_uint p); try done; cbn [NilZero.string_of_uint
      NilEmpty.string_of_uint String.length]; lia.
  - cbn [String.length]. lia.
Qed.

Lemma fuel_for_bound v ind :
  (fuel_for v <= 2 * String.length (stringify_at ind v))%nat.
Proof.
  revert ind.
  induction v as [| b | n | s | items IH | props IH] using value_ind; intros ind.
  - cbn. lia.
  - destruct b; cbn; lia.
  - cbn [fuel_for stringify_at]. pose proof (string_of_Z_length n). lia.
  - cbn [fuel_for stringify_at quote String.length]. lia.
  - rewrite fuel_for_arr. destruct items as [|x xs]; [cbn; lia|].
    apply Forall_cons in IH as [IHx IHxs].
    rewrite stringify_at_items, !length_append. cbn [fuel_for_items String.length].
    specialize (IHx (2 + ind)%nat).
    assert (Hmore : (fuel_for_items xs <= 2 * String.length (more_items ind xs))%nat).
    { induction IHxs as [|y ys IHy _ IHys]; [cbn; lia|].
      cbn [fuel_for_items more_items]. rewrite !length_append.
      specialize (IHy (2 + ind)%nat). cbn [String.length]. lia. }
    lia.
  - rewrite fuel_for_obj. destruct props as [|[k x] ps]; [cbn; lia|].
    apply Forall_cons in IH as [IHx IHps]. cbn [snd] in IHx.
    rewrite stringify_at_members, !length_append. cbn [fuel_for_members String.length].
    specialize (IHx (2 + ind)%nat).
    assert (Hmore : (fuel_for_members ps <= 2 * String.length (more_members ind ps))%nat).
    { induction IHps as [|[k' y] ys IHy _ IHys]; [cbn; lia|].
      cbn [fuel_for_members more_members]. rewrite !length_append.
      cbn [snd] in IHy. specialize (IHy (2 + ind)%nat). cbn [String.length]. lia. }
    lia.
Qed.

(** Parsing the serialisation of a value of the fragment gives the value
    back. *)
Lemma JSON_parse_stringify v :
  in_fragment v -> JSON_parse (JSON_stringify v) = Ok v.
Proof.
  intros Hv. unfold JSON_parse, JSON_stringify.
  rewrite <- (append_nil_r (stringify_at 0 v)) at 2.
  rewrite (parse_value_back v Hv 0); [done| |done].
  pose proof (fuel_for_bound v 0). lia.
Qed.

(** ** What [JSON_parse] returns lies in the fragment *)

Lemma push_char_ok c r k rest :
  push_char c r = Ok (k, rest) ->
  exists k', r = Ok (k', rest) /\ k = String c k'.
Proof.
  unfold push_char. destruct r as [[k' rest']| | |]; try discriminate.
  cbn [rbind fst snd]. intros [= <- <-]. eauto.
Qed.

Lemma simple_escape_ascii e ch :
  simple_escape e = Some ch -> (N_of_ascii ch <? 128)%N = true.
Proof.
  unfold simple_escape.
  repeat match goal with
         | |- context [if ?b then _ else _] => destruct b
         end; intros [= <-]; reflexivity.
Qed.

Lemma read_chars_ascii n : forall s k rest,
  (String.length s <= n)%nat -> read_chars s = Ok (k, rest) -> ascii_only k = true.
Proof.
  induction n as [|n IH]; intros [|c r] k rest Hlen H; try discriminate H;
    cbn [String.length] in Hlen; [lia|].
  cbn [read_chars] in H.
  destruct (N_of_ascii c =? 34)%N; [by injection H as <- <-|].
  destruct (N_of_ascii c =? 92)%N.
  - destruct r as [|e r']; [discriminate|]. cbn [String.length] in Hlen.
    destruct (simple_escape e) as [ch|] eqn:He.
    + apply push_char_ok in H as (k' & H & ->). cbn [ascii_only].
      rewrite (simple_escape_ascii e ch He). apply (IH r' k' rest); [lia|done].
    + destruct (N_of_ascii e =? 117)%N; [|discriminate].
      destruct r' as [|h3 [|h2 [|h1 [|h0 r'']]]]; try discriminate.
      destruct (hex_value h3), (hex_value h2), (hex_value h1), (hex_value h0);
        try discriminate.
      match type of H with context [(?code <? 128)%N] =>
        destruct (code <? 128)%N eqn:Hcode; [|discriminate];
        apply push_char_ok in H as (k' & H & ->); cbn [ascii_only];
        rewrite N_ascii_embedding by (apply N.ltb_lt in Hcode; lia);
        rewrite Hcode
      end.
      apply (IH r'' k' rest); [cbn [String.length] in Hlen; lia|done].
  - destruct (N_of_ascii c <? 32)%N; [discriminate|].
    destruct (128 <=? N_of_ascii c)%N eqn:Hc; [discriminate|].
    apply push_char_ok in H as (k' & H & ->). cbn [ascii_only].
    apply N.leb_gt, N.ltb_lt in Hc. rewrite Hc. apply (IH r k' rest); [lia|done].
Qed.

Lemma read_unsigned_digits s u rest :
  read_unsigned s = Ok (u, rest) -> u <> Nil /\ (nb_digits u <= 15)%nat.
Proof.
  unfold read_unsigned. destruct (read_digits s) as [u' rest']. cbn [fst snd].
  destruct (starts_fraction_or_exponent rest');
    [by destruct u' as [|[]| | | | | | | | |]|].
  destruct (15 <? nb_digits u')%nat eqn:E;
    [by destruct u' as [|[]| | | | | | | | |]|].
  apply Nat.ltb_ge in E.
  destruct u' as [|[]| | | | | | | | |]; try discriminate; by intros [= <- <-].
Qed.

Lemma digits_of_int_bound d :
  match d with Pos u | Neg u => u <> Nil /\ (nb_digits u <= 15)%nat end ->
  (digits_of_Z (Z.of_int d) <= 15)%nat.
Proof.
  unfold digits_of_Z. rewrite DecimalZ.to_of.
  destruct d as [u|u]; intros [Hnil Hlen]; cbn [norm].
  - pose proof (nb_digits_unorm u Hnil). lia.
  - pose proof (nb_digits_nzhead u).
    destruct (nzhead u) eqn:E; cbn [nb_digits] in *; lia.
Qed.

Lemma read_number_fragment s v rest :
  read_number s = Ok (v, rest) -> in_fragment v.
Proof.
  unfold read_number. intros H.
  assert (Hcase :
    (exists r u, read_unsigned r = Ok (u, rest) /\ v = VNum (Z.of_int (Neg u)))
    \/ (exists u, read_unsigned s = Ok (u, rest) /\ v = VNum (Z.of_int (Pos u)))).
  { destruct s as [|c r].
    - discriminate H.
    - destruct (Ascii.eqb c "-") eqn:Ec.
      + apply Ascii.eqb_eq in Ec as ->. left.
        destruct (read_unsigned r) as [[u r0]| | |] eqn:Eu; try discriminate.
        injection H as <- <-. eauto.
      + right.
        assert (Hs : (let* p := read_unsigned (String c r) in
                      Ok (VNum (Z.of_int (Pos (fst p))), snd p)) = Ok (v, rest)).
        { destruct c as [[] [] [] [] [] [] [] []]; try discriminate Ec; exact H. }
        destruct (read_unsigned (String c r)) as [[u r0]| | |] eqn:Eu;
          try discriminate.
        injection Hs as <- <-. eauto. }
  destruct Hcase as [(r & u & Hu & ->)|(u & Hu & ->)];
    apply read_unsigned_digits in Hu; by apply digits_of_int_bound.
Qed.

Lemma assign_keys_subset k v ps x :
  x ∈ map fst (assign k v ps) -> x = k \/ x ∈ map fst ps.
Proof.
  induction ps as [|[k0 v0] ps IH]; cbn [assign map fst].
  - intros H. apply elem_of_cons in H as [->|H]; [by left|by right].
  - destruct (String.eqb k k0) eqn:E; cbn [map fst]; [by right|].
    intros H. apply elem_of_cons in H as [->|H]; [right; by left|].
    destruct (IH H) as [->|Hin]; [by left|right; by right].
Qed.

Lemma assign_fragment k v acc :
  key_ok k = true -> in_fragment v -> in_fragment (VObj acc) ->
  in_fragment (VObj (assign k v acc)).
Proof.
  intros Hk Hv. rewrite !in_fragment_members. intros [Hnd Hall].
  induction acc as [|[k0 v0] ps IH]; cbn [assign].
  - split; [apply NoDup_singleton|]. by repeat constructor.
  - cbn [map fst] in Hnd. apply NoDup_cons in Hnd as [Hk0 Hnd].
    apply Forall_cons in Hall as [[Hk0ok Hv0] Hall].
    destruct (String.eqb k k0) eqn:E.
    + split; [by apply NoDup_cons|]. by repeat constructor.
    + destruct (IH Hnd Hall) as [Hnd' Hall']. split.
      * cbn [map fst]. apply NoDup_cons. split; [|done].
        intros Hin. apply assign_keys_subset in Hin as [->|Hin]; [|done].
        by rewrite String.eqb_refl in E.
      * by repeat constructor.
Qed.

Lemma object_start_cases fuel r v rest :
  match skip_ws r with
  | String "}" r' => Ok (VObj [], r')
  | r' => parse_members fuel r' []
  end = Ok (v, rest) ->
  v = VObj [] \/ exists s, parse_members fuel s [] = Ok (v, rest).
Proof.
  destruct (skip_ws r) as [|c r']; [eauto|].
  destruct c as [[] [] [] [] [] [] [] []]; try (by eauto).
  intros [= <- <-]. by left.
Qed.

Lemma array_start_cases fuel r v rest :
  match skip_ws r with
  | String "]" r' => Ok (VArr [], r')
  | r' => parse_elements fuel r' []
  end = Ok (v, rest) ->
  v = VArr [] \/ exists s, parse_elements fuel s [] = Ok (v, rest).
Proof.
  destruct (skip_ws r) as [|c r']; [eauto|].
  destruct c as [[] [] [] [] [] [] [] []]; try (by eauto).
  intros [= <- <-]. by left.
Qed.

Lemma element_end_cases fuel s x acc v rest :
  match skip_ws s with
  | String "," r => parse_elements fuel r (x :: acc)
  | String "]" r => Ok (VArr (rev (x :: acc)), r)
  | _ => Throw SyntaxError
  end = Ok (v, rest) ->
  v = VArr (rev (x :: acc))
  \/ exists r, parse_elements fuel r (x :: acc) = Ok (v, rest).
Proof.
  destruct (skip_ws s) as [|c r']; [discriminate|].
  destruct c as [[] [] [] [] [] [] [] []]; try discriminate; try (by eauto).
  intros [= <- <-]. by left.
Qed.

Lemma member_end_cases fuel s k x acc v rest :
  match skip_ws s with
  | String "," r => parse_members fuel r (assign k x acc)
  | String "}" r => Ok (VObj (assign k x acc), r)
  | _ => Throw SyntaxError
  end = Ok (v, rest) ->
  v = VObj (assign k x acc)
  \/ exists r, parse_members fuel r (assign k x acc) = Ok (v, rest).
Proof.
  destruct (skip_ws s) as [|c r']; [discriminate|].
  destruct c as [[] [] [] [] [] [] [] []]; try discriminate; try (by eauto).
  intros [= <- <-]. by left.
Qed.

Lemma member_colon_cases {A} s (k : string -> result A) (r : result A) v :
  match skip_ws s with
  | String ":" r' => k r'
  | _ => r
  end = Ok v ->
  r = Ok v \/ exists r', k r' = Ok v.
Proof.
  destruct (skip_ws s) as [|c r']; [eauto|].
  destruct c as [[] [] [] [] [] [] [] []]; by eauto.
Qed.

Lemma parse_fragment fuel :
  (forall s v rest, parse_value fuel s = Ok (v, rest) -> in_fragment v)
  /\ (forall s acc v rest,
        Forall in_fragment acc ->
        parse_elements fuel s acc = Ok (v, rest) -> in_fragment v)
  /\ (forall s acc v rest,
        in_fragment (VObj acc) ->
        parse_members fuel s acc = Ok (v, rest) -> in_fragment v).
Proof.
  induction fuel as [|fuel (IHv & IHe & IHm)]; [by repeat split|].
  split; [|split].
  - intros s v rest H. cbn [parse_value] in H.
    destruct (skip_ws s) as [|c r]; [discriminate|].
    destruct (N_of_ascii c =? 123)%N.
    { apply object_start_cases in H as [->|(s' & H)]; [by split; [constructor|]|].
      eapply IHm; [|exact H]. by split; [constructor|]. }
    destruct (N_of_ascii c =? 91)%N.
    { apply array_start_cases in H as [->|(s' & H)]; [done|].
      eapply IHe; [|exact H]. constructor. }
    destruct (N_of_ascii c =? 34)%N.
    { destruct (read_chars r) as [[k r']| | |] eqn:E; try discriminate.
      injection H as <- <-. cbn [in_fragment fst].
      by eapply read_chars_ascii. }
    destruct (strip_prefix "true" (String c r)); [by injection H as <- <-|].
    destruct (strip_prefix "false" (String c r)); [by injection H as <- <-|].
    destruct (strip_prefix "null" (String c r)); [by injection H as <- <-|].
    by eapply read_number_fragment.
  - intros s acc v rest Hacc H. cbn [parse_elements] in H.
    destruct (parse_value fuel s) as [[x r]| | |] eqn:E; try discriminate.
    cbn [rbind fst snd] in H. apply IHv in E.
    apply element_end_cases in H as [->|(r' & H)].
    + apply in_fragment_items, Forall_rev. by constructor.
    + eapply IHe; [|exact H]. by constructor.
  - intros s acc v rest Hacc H. cbn [parse_members] in H.
    destruct (skip_ws s) as [|c r]; [discriminate|].
    destruct (N_of_ascii c =? 34)%N; [|discriminate].
    destruct (read_chars r) as [[k r']| | |] eqn:Ek; try discriminate.
    cbn [rbind fst snd] in H.
    destruct (digit_key k) eqn:Ed; [discriminate|].
    apply member_colon_cases in H as [H|(r'' & H)]; [discriminate|].
    destruct (parse_value fuel r'') as [[x r3]| | |] eqn:E; try discriminate.
    cbn [rbind fst snd] in H. apply IHv in E.
    assert (Hk : key_ok k = true).
    { unfold key_ok. rewrite Ed. by erewrite read_chars_ascii. }
    pose proof (assign_fragment k x acc Hk E Hacc) as Hnew.
    apply member_end_cases in H as [->|(r4 & H)]; [done|].
    by eapply IHm.
Qed.

Lemma JSON_parse_fragment text v : JSON_parse text = Ok v -> in_fragment v.
Proof.
  unfold JSON_parse. intros H.
  destruct (parse_value _ text) as [[x r]| | |] eqn:E; try discriminate.
  cbn [rbind fst snd] in H. destruct (skip_ws r); [|discriminate].
  injection H as <-. by eapply (proj1 (parse_fragment _)).
Qed.

(** Whatever text loads, saving the loaded value gives a text that loads
    to the same value. *)
Lemma JSON_parse_fixpoint text v :
  JSON_parse text = Ok v -> JSON_parse (JSON_stringify v) = Ok v.
Proof. intros H. by apply JSON_parse_stringify, (JSON_parse_fragment text). Qed.

(** ** The fuel of [JSON_parse] is never what decides the answer *)

Lemma skip_ws_length s : (String.length (skip_ws s) <= String.length s)%nat.
Proof.
  induction s as [|c s IH]; [done|]. cbn [skip_ws].
  destruct (is_ws c); cbn [String.length]; lia.
Qed.

Lemma read_chars_length n : forall s k rest,
  (String.length s <= n)%nat -> read_chars s = Ok (k, rest) ->
  (String.length rest < String.length s)%nat.
Proof.
  induction n as [|n IH]; intros [|c r] k rest Hlen H; try discriminate H;
    cbn [String.length] in Hlen; [lia|].
  cbn [read_chars] in H. cbn [String.length].
  destruct (N_of_ascii c =? 34)%N; [injection H as <- <-; lia|].
  destruct (N_of_ascii c =? 92)%N.
  - destruct r as [|e r']; [discriminate|]. cbn [String.length] in *.
    destruct (simple_escape e) as [ch|] eqn:He.
    + apply push_char_ok in H as (k' & H & ->).
      apply IH in H; lia.
    + destruct (N_of_ascii e =? 117)%N; [|discriminate].
      destruct r' as [|h3 [|h2 [|h1 [|h0 r'']]]]; try discriminate.
      destruct (hex_value h3), (hex_value h2), (hex_value h1), (hex_value h0);
        try discriminate.
      match type of H with context [(?code <? 128)%N] =>
        destruct (code <? 128)%N; [|discriminate]
      end.
      apply push_char_ok in H as (k' & H & ->). cbn [String.length] in *.
      apply IH in H; lia.
  - destruct (N_of_ascii c <? 32)%N; [discriminate|].
    destruct (128 <=? N_of_ascii c)%N; [discriminate|].
    apply push_char_ok in H as (k' & H & ->). apply IH in H; lia.
Qed.

Lemma read_digits_length s :
  (String.length (snd (read_digits s)) + nb_digits (fst (read_digits s))
   = String.length s)%nat.
Proof.
  induction s as [|c s IH]; [done|]. cbn [read_digits].
  destruct (digit_of c) as [d|] eqn:E; [|cbn; lia].
  cbn [fst snd String.length]. rewrite <- IH.
  unfold digit_of in E.
  repeat match type of E with
         | (if ?b then _ else _) = _ => destruct b; [injection E as <-; cbn; lia|]
         end.
  discriminate.
Qed.

Lemma read_unsigned_length s u rest :
  read_unsigned s = Ok (u, rest) -> (String.length rest < String.length s)%nat.
Proof.
  intros H. pose proof (read_digits_length s) as Hlen.
  unfold read_unsigned in H. destruct (read_digits s) as [u' rest']. cbn [fst snd] in *.
  assert (Hu : u' <> Nil /\ rest' = rest).
  { destruct (starts_fraction_or_exponent rest');
      [by destruct u' as [|[]| | | | | | | | |]|].
    destruct (15 <? nb_digits u')%nat;
      [by destruct u' as [|[]| | | | | | | | |]|].
    destruct u' as [|[]| | | | | | | | |]; try discriminate;
      by injection H as <- <-. }
  destruct Hu as [Hu <-]. destruct u'; cbn [nb_digits] in Hlen; try done; lia.
Qed.

Lemma read_number_length s v rest :
  read_number s = Ok (v, rest) -> (String.length rest < String.length s)%nat.
Proof.
  unfold read_number. intros H.
  assert (Hcase :
    (exists c r u, s = String c r /\ read_unsigned r = Ok (u, rest))
    \/ (exists u, read_unsigned s = Ok (u, rest))).
  { destruct s as [|c r]; [discriminate H|].
    destruct (Ascii.eqb c "-") eqn:Ec.
    - apply Ascii.eqb_eq in Ec as ->. left.
      destruct (read_unsigned r) as [[u r0]| | |] eqn:Eu; try discriminate.
      injection H as <- <-. eauto.
    - right.
      assert (Hs : (let* p := read_unsigned (String c r) in
                    Ok (VNum (Z.of_int (Pos (fst p))), snd p)) = Ok (v, rest)).
      { destruct c as [[] [] [] [] [] [] [] []]; try discriminate Ec; exact H. }
      destruct (read_unsigned (String c r)) as [[u r0]| | |] eqn:Eu;
        try discriminate.
      injection Hs as <- <-. eauto. }
  destruct Hcase as [(c & r & u & -> & Hu)|(u & Hu)];
    apply read_unsigned_length in Hu; cbn [String.length]; lia.
Qed.

Lemma strip_prefix_length p s r :
  strip_prefix p s = Some r ->
  (String.length r + String.length p = String.length s)%nat.
Proof.
  revert s. induction p as [|a p IH]; intros s H.
  - injection H as <-. cbn. lia.
  - destruct s as [|b s]; [discriminate|]. cbn [strip_prefix] in H.
    destruct (Ascii.eqb a b); [|discriminate]. apply IH in H.
    cbn [String.length]. lia.
Qed.

Lemma close_brace_inv {A} s (a : A) (F : string -> result (A * string)) v rest :
  match skip_ws s with
  | String "}" r' => Ok (a, r')
  | r' => F r'
  end = Ok (v, rest) ->
  skip_ws s = String "}" rest \/ F (skip_ws s) = Ok (v, rest).
Proof.
  destruct (skip_ws s) as [|c r']; [by right|].
  destruct c as [[] [] [] [] [] [] [] []]; try (by right).
  intros [= <- <-]. by left.
Qed.

Lemma close_bracket_inv {A} s (a : A) (F : string -> result (A * string)) v rest :
  match skip_ws s with
  | String "]" r' => Ok (a, r')
  | r' => F r'
  end = Ok (v, rest) ->
  skip_ws s = String "]" rest \/ F (skip_ws s) = Ok (v, rest).
Proof.
  destruct (skip_ws s) as [|c r']; [by right|].
  destruct c as [[] [] [] [] [] [] [] []]; try (by right).
  intros [= <- <-]. by left.
Qed.

Lemma comma_or_bracket_inv {A} s (a : A) (F : string -> result (A * string)) v rest :
  match skip_ws s with
  | String "," r => F r
  | String "]" r => Ok (a, r)
  | _ => Throw SyntaxError
  end = Ok (v, rest) ->
  (exists t, skip_ws s = String "," t /\ F t = Ok (v, rest))
  \/ skip_ws s = String "]" rest.
Proof.
  destruct (skip_ws s) as [|c r']; [discriminate|].
  destruct c as [[] [] [] [] [] [] [] []]; try discriminate.
  - intros [= <- <-]. by right.
  - intros H. left. eauto.
Qed.

Lemma comma_or_brace_inv {A} s (a : A) (F : string -> result (A * string)) v rest :
  match skip_ws s with
  | String "," r => F r
  | String "}" r => Ok (a, r)
  | _ => Throw SyntaxError
  end = Ok (v, rest) ->
  (exists t, skip_ws s = String "," t /\ F t = Ok (v, rest))
  \/ skip_ws s = String "}" rest.
Proof.
  destruct (skip_ws s) as [|c r']; [discriminate|].
  destruct c as [[] [] [] [] [] [] [] []]; try discriminate.
  - intros [= <- <-]. by right.
  - intros H. left. eauto.
Qed.

Lemma colon_inv {A} s (F : string -> result A) v :
  match skip_ws s with
  | String ":" r' => F r'
  | _ => Throw SyntaxError
  end = Ok v ->
  exists t, skip_ws s = String ":" t /\ F t = Ok v.
Proof.
  destruct (skip_ws s) as [|c r']; [discriminate|].
  destruct c as [[] [] [] [] [] [] [] []]; try discriminate. eauto.
Qed.

(** A value that is read takes at least one character. *)
Lemma parse_progress fuel :
  (forall s v rest, parse_value fuel s = Ok (v, rest) ->
                    (String.length rest < String.length s)%nat)
  /\ (forall s acc v rest, parse_elements fuel s acc = Ok (v, rest) ->
                           (String.length rest < String.length s)%nat)
  /\ (forall s acc v rest, parse_members fuel s acc = Ok (v, rest) ->
                           (String.length rest < String.length s)%nat).
Proof.
  induction fuel as [|fuel (IHv & IHe & IHm)]; [by repeat split|].
  split; [|split].
  - intros s v rest H. cbn [parse_value] in H.
    pose proof (skip_ws_length s) as Hs.
    destruct (skip_ws s) as [|c r]; [discriminate|]. cbn [String.length] in Hs.
    pose proof (skip_ws_length r) as Hr.
    destruct (N_of_ascii c =? 123)%N.
    { apply (close_brace_inv _ _ (fun t => parse_members fuel t [])) in H as [H|H].
      - rewrite H in Hr. cbn [String.length] in Hr. lia.
      - apply IHm in H. lia. }
    destruct (N_of_ascii c =? 91)%N.
    { apply (close_bracket_inv _ _ (fun t => parse_elements fuel t [])) in H as [H|H].
      - rewrite H in Hr. cbn [String.length] in Hr. lia.
      - apply IHe in H. lia. }
    destruct (N_of_ascii c =? 34)%N.
    { destruct (read_chars r) as [[k r']| | |] eqn:E; try discriminate.
      injection H as <- <-. cbn [snd].
      apply (read_chars_length _ _ _ _ (le_n _)) in E. lia. }
    destruct (strip_prefix "true" (String c r)) eqn:E1;
      [injection H as <- <-; apply strip_prefix_length in E1;
       cbn [String.length] in E1; lia|].
    destruct (strip_prefix "false" (String c r)) eqn:E2;
      [injection H as <- <-; apply strip_prefix_length in E2;
       cbn [String.length] in E2; lia|].
    destruct (strip_prefix "null" (String c r)) eqn:E3;
      [injection H as <- <-; apply strip_prefix_length in E3;
       cbn [String.length] in E3; lia|].
    apply read_number_length in H. cbn [String.length] in H. lia.
  - intros s acc v rest H. cbn [parse_elements] in H.
    destruct (parse_value fuel s) as [[x r]| | |] eqn:E; try discriminate.
    cbn [rbind fst snd] in H. apply IHv in E.
    pose proof (skip_ws_length r) as Hr.
    apply (comma_or_bracket_inv _ _ (fun t => parse_elements fuel t (x :: acc)))
      in H as [(t & Ht & H)|H];
      rewrite ?Ht, ?H in Hr; cbn [String.length] in Hr; [apply IHe in H|]; lia.
  - intros s acc v rest H. cbn [parse_members] in H.
    pose proof (skip_ws_length s) as Hs.
    destruct (skip_ws s) as [|c r]; [discriminate|]. cbn [String.length] in Hs.
    destruct (N_of_ascii c =? 34)%N; [|discriminate].
    destruct (read_chars r) as [[k r']| | |] eqn:Ek; try discriminate.
    cbn [rbind fst snd] in H.
    apply (read_chars_length _ _ _ _ (le_n _)) in Ek.
    destruct (digit_key k); [discriminate|].
    pose proof (skip_ws_length r') as Hr'.
    apply (colon_inv _
             (fun t => let* p := parse_value fuel t in
                       match skip_ws (snd p) with
                       | String "," r'' => parse_members fuel r'' (assign k (fst p) acc)
                       | String "}" r'' => Ok (VObj (assign k (fst p) acc), r'')
                       | _ => Throw SyntaxError
                       end)) in H as (t & Ht & H). rewrite Ht in Hr'.
    cbn [String.length] in Hr'.
    destruct (parse_value fuel t) as [[x r3]| | |] eqn:E; try discriminate.
    cbn [rbind fst snd] in H. apply IHv in E.
    pose proof (skip_ws_length r3) as Hr3.
    apply (comma_or_brace_inv _ _ (fun t => parse_members fuel t (assign k x acc)))
      in H as [(t' & Ht' & H)|H];
      rewrite ?Ht', ?H in Hr3; cbn [String.length] in Hr3; [apply IHm in H|]; lia.
Qed.

Lemma close_brace_congr {A} s (a : string -> A) (F G : string -> A) :
  F (skip_ws s) = G (skip_ws s) ->
  match skip_ws s with
  | String "}" r' => a r'
  | r' => F r'
  end
  = match skip_ws s with
    | String "}" r' => a r'
    | r' => G r'
    end.
Proof.
  destruct (skip_ws s) as [|c r']; [done|].
  by destruct c as [[] [] [] [] [] [] [] []].
Qed.

Lemma close_bracket_congr {A} s (a : string -> A) (F G : string -> A) :
  F (skip_ws s) = G (skip_ws s) ->
  match skip_ws s with
  | String "]" r' => a r'
  | r' => F r'
  end
  = match skip_ws s with
    | String "]" r' => a r'
    | r' => G r'
    end.
Proof.
  destruct (skip_ws s) as [|c r']; [done|].
  by destruct c as [[] [] [] [] [] [] [] []].
Qed.

Lemma comma_or_bracket_congr {A} s (a : string -> A) (b : A) (F G : string -> A) :
  (forall t, skip_ws s = String "," t -> F t = G t) ->
  match skip_ws s with
  | String "," r => F r
  | String "]" r => a r
  | _ => b
  end
  = match skip_ws s with
    | String "," r => G r
    | String "]" r => a r
    | _ => b
    end.
Proof.
  destruct (skip_ws s) as [|c r']; [done|].
  destruct c as [[] [] [] [] [] [] [] []]; try done. intros H. by apply H.
Qed.

Lemma comma_or_brace_congr {A} s (a : string -> A) (b : A) (F G : string -> A) :
  (forall t, skip_ws s = String "," t -> F t = G t) ->
  match skip_ws s with
  | String "," r => F r
  | String "}" r => a r
  | _ => b
  end
  = match skip_ws s with
    | String "," r => G r
    | String "}" r => a r
    | _ => b
    end.
Proof.
  destruct (skip_ws s) as [|c r']; [done|].
  destruct c as [[] [] [] [] [] [] [] []]; try done. intros H. by apply H.
Qed.

Lemma colon_congr {A} s (b : A) (F G : string -> A) :
  (forall t, skip_ws s = String ":" t -> F t = G t) ->
  match skip_ws s with
  | String ":" r' => F r'
  | _ => b
  end
  = match skip_ws s with
    | String ":" r' => G r'
    | _ => b
    end.
Proof.
  destruct (skip_ws s) as [|c r']; [done|].
  destruct c as [[] [] [] [] [] [] [] []]; try done. intros H. by apply H.
Qed.

(** Past twice the length of the text, one more unit of fuel changes
    nothing. *)
Lemma parse_fuel_step fuel :
  (forall s, (2 * String.length s + 1 <= fuel)%nat ->
             parse_value (S fuel) s = parse_value fuel s)
  /\ (forall s acc, (2 * String.length s + 2 <= fuel)%nat ->
                    parse_elements (S fuel) s acc = parse_elements fuel s acc)
  /\ (forall s acc, (2 * String.length s + 2 <= fuel)%nat ->
                    parse_members (S fuel) s acc = parse_members fuel s acc).
Proof.
  induction fuel as [|fuel (IHv & IHe & IHm)]; [repeat split; intros; lia|].
  split; [|split].
  - intros s Hlen. cbn [parse_value].
    pose proof (skip_ws_length s) as Hs.
    destruct (skip_ws s) as [|c r]; [done|]. cbn [String.length] in Hs.
    pose proof (skip_ws_length r) as Hr.
    destruct (N_of_ascii c =? 123)%N.
    { apply (close_brace_congr r (fun r' => Ok (VObj [], r'))
               (fun t => parse_members (S fuel) t [])
               (fun t => parse_members fuel t [])).
      apply IHm. lia. }
    destruct (N_of_ascii c =? 91)%N; [|done].
    apply (close_bracket_congr r (fun r' => Ok (VArr [], r'))
             (fun t => parse_elements (S fuel) t [])
             (fun t => parse_elements fuel t [])).
    apply IHe. lia.
  - intros s acc Hlen. cbn [parse_elements]. rewrite IHv by lia.
    destruct (parse_value fuel s) as [[x r]| | |] eqn:E; try done.
    cbn [rbind fst snd].
    apply (proj1 (parse_progress fuel)) in E.
    pose proof (skip_ws_length r) as Hr.
    apply (comma_or_bracket_congr r (fun t => Ok (VArr (rev (x :: acc)), t))
             (Throw SyntaxError)
             (fun t => parse_elements (S fuel) t (x :: acc))
             (fun t => parse_elements fuel t (x :: acc))).
    intros t Ht. rewrite Ht in Hr. cbn [String.length] in Hr. apply IHe. lia.
  - intros s acc Hlen. cbn [parse_members].
    pose proof (skip_ws_length s) as Hs.
    destruct (skip_ws s) as [|c r]; [done|]. cbn [String.length] in Hs.
    destruct (N_of_ascii c =? 34)%N; [|done].
    destruct (read_chars r) as [[k r']| | |] eqn:Ek; try done.
    cbn [rbind fst snd].
    apply (read_chars_length _ _ _ _ (le_n _)) in Ek.
    destruct (digit_key k); [done|].
    pose proof (skip_ws_length r') as Hr'.
    apply (colon_congr r' (Throw SyntaxError)
             (fun t => let* p := parse_value (S fuel) t in
                       match skip_ws (snd p) with
                       | String "," r'' =>
                           parse_members (S fuel) r'' (assign k (fst p) acc)
                       | String "}" r'' => Ok (VObj (assign k (fst p) acc), r'')
                       | _ => Throw SyntaxError
                       end)
             (fun t => let* p := parse_value fuel t in
                       match skip_ws (snd p) with
                       | String "," r'' =>
                           parse_members fuel r'' (assign k (fst p) acc)
                       | String "}" r'' => Ok (VObj (assign k (fst p) acc), r'')
                       | _ => Throw SyntaxError
                       end)).
    intros t Ht. rewrite Ht in Hr'. cbn [String.length] in Hr'.
    rewrite IHv by lia.
    destruct (parse_value fuel t) as [[x r3]| | |] eqn:E; try done.
    cbn [rbind fst snd].
    apply (proj1 (parse_progress fuel)) in E.
    pose proof (skip_ws_length r3) as Hr3.
    apply (comma_or_brace_congr r3 (fun u => Ok (VObj (assign k x acc), u))
             (Throw SyntaxError)
             (fun u => parse_members (S fuel) u (assign k x acc))
             (fun u => parse_members fuel u (assign k x acc))).
    intros u Hu. rewrite Hu in Hr3. cbn [String.length] in Hr3. apply IHm. lia.
Qed.

(** The answer of [JSON_parse] is the answer of the parser with any
    larger amount of fuel. *)
Lemma JSON_parse_fuel text extra :
  parse_value (2 * String.length text + 2 + extra) text
  = parse_value (2 * String.length text + 2) text.
Proof.
  induction extra as [|extra IH]; [by rewrite Nat.add_0_r|].
  rewrite Nat.add_succ_r, <- IH.
  apply (proj1 (parse_fuel_step _)). lia.
Qed.



(** * Further properties of the run *)

(** ** [JSON_parse] gives a value or a [SyntaxError] *)

Lemma parse_answer_bind {A B} (r : result A) (k : A -> result B) :
  parse_answer r = true -> (forall a, parse_answer (k a) = true) ->
  parse_answer (rbind r k) = true.
Proof. destruct r as [a|e| |]; cbn [rbind]; auto. Qed.

Lemma read_chars_answer n : forall s,
  (String.length s <= n)%nat -> parse_answer (read_chars s) = true.
Proof.
  induction n as [|n IH]; intros [|c r] Hlen; try reflexivity;
    cbn [String.length] in Hlen; [lia|].
  cbn [read_chars].
  destruct (N_of_ascii c =? 34)%N; [done|].
  destruct (N_of_ascii c =? 92)%N.
  - destruct r as [|e r']; [done|]. cbn [String.length] in Hlen.
    destruct (simple_escape e) as [ch|].
    + apply parse_answer_bind; [apply IH; lia|done].
    + destruct (N_of_ascii e =? 117)%N; [|done].
      destruct r' as [|h3 [|h2 [|h1 [|h0 r'']]]]; try done.
      destruct (hex_value h3), (hex_value h2), (hex_value h1), (hex_value h0);
        try done.
      match goal with |- context [(?code <? 128)%N] => destruct (code <? 128)%N end;
        [|done].
      apply parse_answer_bind; [apply IH; cbn [String.length] in Hlen; lia|done].
  - destruct (N_of_ascii c <? 32)%N; [done|].
    destruct (128 <=? N_of_ascii c)%N; [done|].
    apply parse_answer_bind; [apply IH; lia|done].
Qed.

Lemma read_unsigned_answer s : parse_answer (read_unsigned s) = true.
Proof.
  unfold read_unsigned. destruct (fst (read_digits s)) as [|u|u|u|u|u|u|u|u|u|u];
    try done;
    try (destruct (starts_fraction_or_exponent _); [done|];
         destruct (15 <? _)%nat; done).
  destruct u; try done;
    destruct (starts_fraction_or_exponent _); try done;
    destruct (15 <? _)%nat; done.
Qed.

Lemma read_number_answer s : parse_answer (read_number s) = true.
Proof.
  unfold read_number.
  destruct s as [|c r]; [apply parse_answer_bind; [apply read_unsigned_answer|done]|].
  destruct c as [[] [] [] [] [] [] [] []];
    (apply parse_answer_bind; [apply read_unsigned_answer|done]).
Qed.

Lemma parse_answers fuel :
  (forall s, parse_answer (parse_value fuel s) = true)
  /\ (forall s acc, parse_answer (parse_elements fuel s acc) = true)
  /\ (forall s acc, parse_answer (parse_members fuel s acc) = true).
Proof.
  induction fuel as [|fuel (IHv & IHe & IHm)]; [by repeat split|].
  split; [|split].
  - intros s. cbn [parse_value].
    destruct (skip_ws s) as [|c r]; [done|].
    destruct (N_of_ascii c =? 123)%N.
    { destruct (skip_ws r) as [|c' r']; [apply IHm|].
      destruct c' as [[] [] [] [] [] [] [] []]; try apply IHm. done. }
    destruct (N_of_ascii c =? 91)%N.
    { destruct (skip_ws r) as [|c' r']; [apply IHe|].
      destruct c' as [[] [] [] [] [] [] [] []]; try apply IHe. done. }
    destruct (N_of_ascii c =? 34)%N.
    { apply parse_answer_bind; [by eapply read_chars_answer|done]. }
    destruct (strip_prefix "true" (String c r)); [done|].
    destruct (strip_prefix "false" (String c r)); [done|].
    destruct (strip_prefix "null" (String c r)); [done|].
    apply read_number_answer.
  - intros s acc. cbn [parse_elements].
    apply parse_answer_bind; [apply IHv|]. intros [x r]. cbn [fst snd].
    destruct (skip_ws r) as [|c' r']; [done|].
    destruct c' as [[] [] [] [] [] [] [] []]; try done; apply IHe.
  - intros s acc. cbn [parse_members].
    destruct (skip_ws s) as [|c r]; [done|].
    destruct (N_of_ascii c =? 34)%N; [|done].
    apply parse_answer_bind; [by eapply read_chars_answer|]. intros [k r'].
    cbn [fst snd]. destruct (digit_key k); [done|].
    destruct (skip_ws r') as [|c' r'']; [done|].
    destruct c' as [[] [] [] [] [] [] [] []]; try done.
    apply parse_answer_bind; [apply IHv|]. intros [x r3]. cbn [fst snd].
    destruct (skip_ws r3) as [|c3 r4]; [done|].
    destruct c3 as [[] [] [] [] [] [] [] []]; try done; apply IHm.
Qed.

Lemma JSON_parse_answer text : parse_answer (JSON_parse text) = true.
Proof.
  unfold JSON_parse. apply parse_answer_bind; [apply (proj1 (parse_answers _))|].
  intros [v r]. cbn [fst snd]. by destruct (skip_ws r).
Qed.

(** ** Only [process.exit] ends the process *)

Lemma no_exit_bind {A B} (r : result A) (k : A -> result B) :
  no_exit r = true -> (forall a, no_exit (k a) = true) -> no_exit (rbind r k) = true.
Proof. destruct r as [a|e| |]; cbn [rbind]; auto. Qed.

Lemma get_no_exit o k : no_exit (get o k) = true.
Proof. by destruct o as [[]|]. Qed.

Lemma ToString_no_exit v : no_exit (ToString v) = true.
Proof. by destruct v as [[| [] | | | |]|]. Qed.

Lemma find_from_no_exit p i l :
  (forall x, no_exit (p x) = true) -> no_exit (find_from p i l) = true.
Proof.
  intros Hp. revert i. induction l as [|x l IH]; intros i; [done|].
  cbn [find_from]. apply no_exit_bind; [apply Hp|]. intros []; [done|apply IH].
Qed.

Lemma count_if_no_exit p l :
  (forall x, no_exit (p x) = true) -> no_exit (count_if p l) = true.
Proof.
  intros Hp. induction l as [|x l IH]; [done|].
  cbn [count_if]. apply no_exit_bind; [apply Hp|]. intros b.
  apply no_exit_bind; [apply IH|done].
Qed.

Lemma clips_of_no_exit db : no_exit (clips_of db) = true.
Proof.
  unfold clips_of. apply no_exit_bind; [apply get_no_exit|]. by intros [[]|].
Qed.

Lemma getNextClip_no_exit db : no_exit (getNextClip db) = true.
Proof.
  unfold getNextClip. apply no_exit_bind; [apply clips_of_no_exit|]. intros cs.
  apply no_exit_bind; [|done]. apply find_from_no_exit. intros x.
  apply no_exit_bind; [apply get_no_exit|done].
Qed.

Lemma JSON_parse_no_exit text : no_exit (JSON_parse text) = true.
Proof.
  pose proof (JSON_parse_answer text) as H. by destruct (JSON_parse text) as [|[]| |].
Qed.

Lemma field_text_no_exit o k : no_exit (let* x := get o k in ToString x) = true.
Proof. apply no_exit_bind; [apply get_no_exit|]. intros a. apply ToString_no_exit. Qed.

Lemma posted_test_no_exit c :
  no_exit (let* p := get (Some c) "posted" in Ok (truthy p)) = true.
Proof. apply no_exit_bind; [apply get_no_exit|done]. Qed.

(** Discharges a case in which a computation that cannot end the process
    is supposed to have ended it. *)
Ltac never_exits :=
  match goal with
  | H : ?x = Exit _ |- _ =>
      let N := fresh in
      assert (N : no_exit x = true)
        by first [ apply get_no_exit | apply ToString_no_exit | apply clips_of_no_exit
                 | apply getNextClip_no_exit | apply JSON_parse_no_exit
                 | apply field_text_no_exit
                 | apply count_if_no_exit; apply posted_test_no_exit ];
      rewrite H in N; discriminate N
  end.

(** ** The effects of a run, one by one *)

(** What a publish does: it logs in with the credentials of the
    environment, looks only at the media path, and makes each call at most
    once. *)
Lemma postClip_events w clip st r st' :
  postClip w clip st = (r, st') ->
  exists new,
    trace st' = (trace st ++ new)%list
    /\ Forall (run_event w) new
    /\ (count_events is_login new <= 1)%nat
    /\ (count_events is_upload new <= 1)%nat
    /\ (count_events is_post new <= 1)%nat.
Proof.
  intros H. exec_postClip H.
  all: leaf H.
  all: (split; [repeat (apply Forall_cons; split; [cbn [run_event]; by eauto|]);
                apply Forall_nil_2|]).
  all: repeat split; lia.
Qed.

(** The same for the whole run, which logs in only after it has found
    both credentials. *)
Lemma main_events w st r st' :
  main w st = (r, st') ->
  exists new,
    trace st' = (trace st ++ new)%list
    /\ Forall (run_event w) new
    /\ ((exists e, e ∈ new /\ is_login e = true) ->
        truthy_env (BLUESKY_USERNAME w) = true
        /\ truthy_env (BLUESKY_APP_PASSWORD w) = true)
    /\ (count_events is_login new <= 1)%nat
    /\ (count_events is_upload new <= 1)%nat
    /\ (count_events is_post new <= 1)%nat.
Proof.
  intros H. unfold main, loadDatabase, existsSync, readFileSync in H.
  unfold_monad H. steps H.
  all: repeat match goal with
       | H : postClip _ _ _ = _ |- _ =>
           apply postClip_events in H as (? & ? & ? & ? & ? & ?)
       | H : markAsPosted _ _ _ _ = _ |- _ => apply markAsPosted_trace in H
       | H : saveDatabase _ _ _ = _ |- _ =>
           apply saveDatabase_summary in H as (? & _)
       end.
  all: injection H as <- <-; cbn [trace disk record_event tick] in *.
  all: eexists; split;
    [ repeat match goal with Ht : trace _ = _ |- _ => rewrite Ht; clear Ht end;
      rewrite <- ?app_assoc; first [ reflexivity | symmetry; apply app_nil_r ] |].
  all: split;
    [ repeat first [ apply Forall_nil_2 | assumption
                   | apply Forall_cons; split; [cbn [run_event]; by eauto|]
                   | apply Forall_app; split ] |].
  all: split;
    [ try (intros _; match goal with
                     | Hb : _ || _ = false |- _ =>
                         apply orb_false_iff in Hb as [Hu Hp];
                         apply negb_false_iff in Hu, Hp; by split
                     end) |].
  all: try (intros (e & He & Hl); exfalso; members He; subst; discriminate).
  all: rewrite ?count_events_app; cbn -[String.append]; lia.
Qed.

(** ** The credentials *)

(** X1. When one of the two credentials is unset or empty, the run prints
    the one error line about the missing credentials and ends the process
    with status 1; it looks at no file, reads no clock and calls nothing. *)
Theorem main_without_credentials (w : World) (st : State) :
  BLUESKY_USERNAME w = None \/ BLUESKY_USERNAME w = Some ""
  \/ BLUESKY_APP_PASSWORD w = None \/ BLUESKY_APP_PASSWORD w = Some "" ->
  main w st
  = (Exit 1,
     record_event
       (EvError "Error: Missing BLUESKY_USERNAME or BLUESKY_APP_PASSWORD in .env file")
       st).
Proof.
  intros H. unfold main, try_catch, bind, console_error, emit, process_exit, lift.
  assert (E : negb (truthy_env (BLUESKY_USERNAME w))
              || negb (truthy_env (BLUESKY_APP_PASSWORD w)) = true).
  { destruct H as [-> | [-> | [-> | ->]]]; cbn [truthy_env String.eqb negb orb];
      try reflexivity; apply orb_true_r. }
  by rewrite E.
Qed.

(** The scenario with an empty password. *)
Lemma main_without_credentials_empty_password :
  main empty_password scenario_start
  = (Exit 1,
     record_event
       (EvError "Error: Missing BLUESKY_USERNAME or BLUESKY_APP_PASSWORD in .env file")
       scenario_start).
Proof.
  apply (main_without_credentials empty_password scenario_start).
  right; right; right. reflexivity.
Defined.

(** A publish never ends the process. *)
Lemma postClip_no_exit w clip st r st' :
  postClip w clip st = (r, st') -> forall c, r <> Exit c.
Proof.
  intros H c ->. exec_postClip H.
  all: destruct clip; try discriminate; cbn [get rbind] in *; try no_throw.
  all: try (destruct (BLUESKY_USERNAME w); discriminate).
Qed.

Lemma drop_trace (l new : list event) : drop (length l) (l ++ new)%list = new.
Proof. apply drop_app_length. Qed.

(** X2. No error escapes [main]: a run (within the model) ends normally or
    ends the process, and then always with status 1 and with a line on the
    error stream as its last effect. *)
Theorem main_failures_exit_1 (w : World) (st : State) :
  match fst (main w st) with
  | Ok _ | OutOfModel => True
  | Throw _ => False
  | Exit c =>
      c = 1 /\ exists before e,
                 effects (main w) st = (before ++ [e])%list /\ is_report e = true
  end.
Proof.
  unfold effects. destruct (main w st) as [r st'] eqn:H. cbn [fst snd].
  unfold main, loadDatabase, existsSync, readFileSync in H.
  unfold_monad H. steps H.
  all: repeat match goal with
       | H : postClip _ _ _ = (?r, _) |- _ =>
           pose proof (postClip_no_exit _ _ _ _ _ H);
           apply postClip_summary in H as (_ & ? & ? & _)
       | H : markAsPosted _ _ _ _ = _ |- _ =>
           eapply markAsPosted_summary in H as (? & _ & ?); [|eassumption..]
       | H : saveDatabase _ _ _ = _ |- _ =>
           apply saveDatabase_summary in H as (? & ?)
       end.
  all: injection H as <- <-; cbn [trace disk record_event tick] in *.
  all: try exact I.
  all: try never_exits.
  all: try (exfalso; repeat match goal with
              | Hx : _ \/ _ |- _ => destruct Hx
              | Hx : exists _, _ |- _ => destruct Hx
              end; congruence).
  all: split; [reflexivity|].
  all: repeat match goal with Ht : trace _ = _ |- _ => rewrite Ht; clear Ht end.
  all: rewrite drop_app_le by (rewrite ?length_app; lia).
  all: eexists _, _; split; reflexivity.
Qed.

(** X3. The run logs in only with the two credentials of the environment,
    and only when both are set and not empty: the check at the head of
    [main] is what makes the non-null assertions of [postClip] safe. *)
Theorem login_only_with_credentials (w : World) (st : State)
  (u p : option string) (ok : bool) :
  EvLogin u p ok ∈ effects (main w) st ->
  u = BLUESKY_USERNAME w /\ p = BLUESKY_APP_PASSWORD w
  /\ (exists s, u = Some s /\ s <> "") /\ (exists s, p = Some s /\ s <> "").
Proof.
  destruct (main w st) as [r st'] eqn:H.
  destruct (main_events w st r st' H) as (new & Ht & Hall & Hcred & _).
  rewrite (effects_app (main w) st new) by by rewrite H.
  intros Hin. rewrite Forall_forall in Hall.
  destruct (Hall _ Hin) as [-> ->]. split; [done|]. split; [done|].
  destruct Hcred as [Hu Hp]; [by exists (EvLogin (BLUESKY_USERNAME w) (BLUESKY_APP_PASSWORD w) ok)|].
  split.
  - destruct (BLUESKY_USERNAME w) as [s|]; [|discriminate]. exists s. split; [done|].
    intros ->. discriminate.
  - destruct (BLUESKY_APP_PASSWORD w) as [s|]; [|discriminate]. exists s.
    split; [done|]. intros ->. discriminate.
Qed.

(** The login of the scenario. *)
Lemma login_only_with_credentials_scenario :
  EvLogin (Some "bot.bsky.social") (Some "abcd-efgh-ijkl-mnop") true
    ∈ effects (main calm) scenario_start
  /\ Some "bot.bsky.social" = BLUESKY_USERNAME calm
  /\ Some "abcd-efgh-ijkl-mnop" = BLUESKY_APP_PASSWORD calm
  /\ (exists s, Some "bot.bsky.social" = Some s /\ s <> "")
  /\ (exists s, Some "abcd-efgh-ijkl-mnop" = Some s /\ s <> "").
Proof.
  assert (Hin : EvLogin (Some "bot.bsky.social") (Some "abcd-efgh-ijkl-mnop") true
                ∈ effects (main calm) scenario_start).
  { vm_compute. do 8 apply list_elem_of_further. apply list_elem_of_here. }
  split; [exact Hin|].
  exact (login_only_with_credentials calm scenario_start _ _ true Hin).
Defined.

(** X4. A run makes at most one login, one upload and one post: it
    publishes at most one clip and repeats no call that failed. *)
Theorem at_most_one_publish (w : World) (st : State) :
  (count_events is_login (effects (main w) st) <= 1)%nat
  /\ (count_events is_upload (effects (main w) st) <= 1)%nat
  /\ (count_events is_post (effects (main w) st) <= 1)%nat.
Proof.
  destruct (main w st) as [r st'] eqn:H.
  destruct (main_events w st r st' H) as (new & Ht & _ & _ & Hcount).
  by rewrite (effects_app (main w) st new) by by rewrite H.
Qed.

(** The files of a publish. *)
Lemma postClip_media w clip st r st' :
  postClip w clip st = (r, st') ->
  exists new,
    trace st' = (trace st ++ new)%list /\ Forall (media_event clip) new.
Proof.
  intros H. exec_postClip H.
  all: leaf H.
  all: destruct clip; try discriminate.
  all: try match goal with
       | Hf : (let* f := get (Some (VObj _)) "filename" in ToString f) = Ok _ |- _ =>
           cbn [get rbind] in Hf
       end.
  all: repeat (apply Forall_cons; split; [cbn [media_event field is_object]; by eauto|]).
  all: apply Forall_nil_2.
Qed.

(** The files of a run. *)
Lemma main_files w st r st' :
  main w st = (r, st') ->
  exists new,
    trace st' = (trace st ++ new)%list /\ Forall (file_event st) new.
Proof.
  intros H. unfold main, loadDatabase, existsSync, readFileSync in H.
  unfold_monad H. steps H.
  all: repeat match goal with
       | H : postClip _ _ _ = _ |- _ => apply postClip_media in H as (? & ? & ?)
       | H : markAsPosted _ _ _ _ = _ |- _ => apply markAsPosted_trace in H
       | H : saveDatabase _ _ _ = _ |- _ =>
           apply saveDatabase_summary in H as (? & _)
       end.
  all: injection H as <- <-; cbn [trace disk record_event tick] in *.
  all: eexists; split;
    [ repeat match goal with Ht : trace _ = _ |- _ => rewrite Ht; clear Ht end;
      rewrite <- ?app_assoc; first [ reflexivity | symmetry; apply app_nil_r ] |].
  all: repeat first
         [ apply Forall_nil_2
         | apply Forall_cons; split; [cbn [file_event]; by eauto|]
         | apply Forall_app; split ].
  all: match goal with
       | Hm : Forall (media_event _) ?x |- Forall (file_event _) ?x =>
           eapply Forall_impl; [exact Hm|]
       end.
  all: intros [] He; cbn [media_event file_event] in *; try done.
  all: destruct He as (Hobj & name & Hname & ->); right; subst.
  all: by eexists _, _, _, name.
Qed.

(** X5. The only file a run writes is the database, and the only paths it
    looks at are the database and the media file of the clip it has
    selected from the record: the clips folder, a slash, and the
    [filename] of that clip as a template literal renders it, with nothing
    taken out and nothing checked. *)
Theorem files_touched (w : World) (st : State) (e : event) :
  e ∈ effects (main w) st ->
  match e with
  | EvWrite path _ => path = DATABASE_PATH
  | EvExists path _ | EvRead path =>
      path = DATABASE_PATH
      \/ exists text db clip name,
          disk st !! DATABASE_PATH = Some (File text)
          /\ JSON_parse text = Ok db
          /\ getNextClip db = Ok clip
          /\ is_object clip = true
          /\ ToString (field clip "filename") = Ok name
          /\ path = CLIPS_FOLDER +:+ "/" +:+ name
  | _ => True
  end.
Proof.
  destruct (main w st) as [r st'] eqn:H.
  destruct (main_files w st r st' H) as (new & Ht & Hall).
  rewrite (effects_app (main w) st new) by by rewrite H.
  intros Hin. rewrite Forall_forall in Hall. specialize (Hall _ Hin).
  by destruct e.
Qed.

(** The media file of the scenario. *)
Lemma files_touched_scenario :
  EvExists "./clips/banana_stand_money.mp4" true ∈ effects (main calm) scenario_start
  /\ ("./clips/banana_stand_money.mp4" = DATABASE_PATH
      \/ exists text db clip name,
          disk scenario_start !! DATABASE_PATH = Some (File text)
          /\ JSON_parse text = Ok db
          /\ getNextClip db = Ok clip
          /\ is_object clip = true
          /\ ToString (field clip "filename") = Ok name
          /\ "./clips/banana_stand_money.mp4" = CLIPS_FOLDER +:+ "/" +:+ name).
Proof.
  assert (Hin : EvExists "./clips/banana_stand_money.mp4" true
                ∈ effects (main calm) scenario_start).
  { vm_compute. do 9 apply list_elem_of_further. apply list_elem_of_here. }
  split; [exact Hin|].
  exact (files_touched calm scenario_start _ Hin).
Defined.

(** X6. A run that ends normally has either found nothing to post (its
    last line says so, it has called nothing and the disk is as before), or
    had a post accepted and left on disk the serialisation of a database,
    which is the text of its write. *)
Theorem normal_end_means_done (w : World) (st : State) :
  fst (main w st) = Ok tt ->
  ((forall e, e ∈ effects (main w) st -> is_network e = false /\ is_write e = false)
   /\ disk (snd (main w st)) = disk st
   /\ exists before,
       effects (main w) st
       = (before ++ [EvLog (String LF "✓ All clips have been posted!")])%list)
  \/ (exists p db',
        EvPost p true ∈ effects (main w) st
        /\ EvWrite DATABASE_PATH (JSON_stringify db') ∈ effects (main w) st
        /\ disk (snd (main w st))
           = <[DATABASE_PATH := File (JSON_stringify db')]> (disk st)).
Proof.
  unfold effects. destruct (main w st) as [r st'] eqn:H. cbn [fst snd]. intros ->.
  unfold main, loadDatabase, existsSync, readFileSync in H.
  unfold_monad H. steps H.
  - (* nothing to post *)
    left. injection H as <-. cbn [trace disk record_event].
    rewrite drop_app_le by (rewrite ?length_app; lia).
    split; [|split; [done|by eexists]].
    rewrite <- !app_assoc, drop_trace. intros e He. members He; by subst.
  - (* published, marked and saved *)
    right. injection H as <-. cbn [trace disk record_event] in *.
    match goal with
    | Hp : postClip _ _ _ = _, Hm : markAsPosted _ _ _ _ = (Ok ?d, _),
      Hs : saveDatabase _ _ _ = (Ok ?u, _) |- _ =>
        destruct u;
        apply postClip_summary in Hp as (Hdp & new & Htp & _ & Hposted & _);
        eapply markAsPosted_summary in Hm as (Htm & Hdm & _); [|eassumption..];
        pose proof (saveDatabase_ok _ _ _ _ Hs) as Hds;
        apply saveDatabase_summary in Hs as (Hts & _);
        apply existsb_elem_of in Hposted as (e & He & Hpe);
        destruct e as [| | | | | | | |p []]; try discriminate Hpe;
        exists p, d
    end.
    cbn [trace disk record_event] in *.
    rewrite Hts, Htm, Htp, Hds, Hdm, Hdp. rewrite <- !app_assoc, drop_trace.
    split; [|split; [|done]].
    + do 7 apply list_elem_of_further. apply elem_of_app. by left.
    + do 7 apply list_elem_of_further. apply elem_of_app. right.
      apply list_elem_of_here.
Qed.

(** The scenario ends normally. *)
Lemma normal_end_means_done_scenario :
  fst (main calm scenario_start) = Ok tt
  /\ (((forall e, e ∈ effects (main calm) scenario_start ->
                  is_network e = false /\ is_write e = false)
       /\ disk (snd (main calm scenario_start)) = disk scenario_start
       /\ exists before,
           effects (main calm) scenario_start
           = (before ++ [EvLog (String LF "✓ All clips have been posted!")])%list)
      \/ (exists p db',
            EvPost p true ∈ effects (main calm) scenario_start
            /\ EvWrite DATABASE_PATH (JSON_stringify db')
                 ∈ effects (main calm) scenario_start
            /\ disk (snd (main calm scenario_start))
               = <[DATABASE_PATH := File (JSON_stringify db')]> (disk scenario_start))).
Proof.
  assert (H : fst (main calm scenario_start) = Ok tt) by (by vm_compute).
  split; [exact H|]. exact (normal_end_means_done calm scenario_start H).
Defined.

Lemma saveDatabase_open_fails w db st :
  write_fault_of w DATABASE_PATH (JSON_stringify db) = OpenFails ->
  saveDatabase w db st
  = (Throw (FsError DATABASE_PATH),
     record_event (EvWrite DATABASE_PATH (JSON_stringify db)) st).
Proof.
  intros Hf. unfold saveDatabase, writeFileSync, bind, emit.
  cbn [disk record_event]. rewrite Hf.
  by destruct (disk st !! DATABASE_PATH) as [[]|].
Qed.

Lemma not_posted_in (new : list event) (p : post_record) :
  existsb is_posted new = false -> EvPost p true ∈ new -> False.
Proof.
  intros Hno Hin.
  assert (existsb is_posted new = true); [|congruence].
  apply existsb_elem_of. by exists (EvPost p true).
Qed.

(** X7. When the post was accepted and the database then cannot be opened
    for writing, the run reports the file error and ends with status 1,
    and the record on disk is the one the run started from: the clip is
    published and still listed as unposted. *)
Theorem published_but_not_recorded (w : World) (st : State) (p : post_record) :
  EvPost p true ∈ effects (main w) st ->
  (forall data, write_fault_of w DATABASE_PATH data = OpenFails) ->
  fst (main w st) <> OutOfModel ->
  fst (main w st) = Exit 1
  /\ disk (snd (main w st)) = disk st
  /\ exists before data,
      effects (main w) st
      = (before ++ [EvWrite DATABASE_PATH data; EvReport (FsError DATABASE_PATH)])%list.
Proof.
  unfold effects. destruct (main w st) as [r st'] eqn:H. cbn [fst snd].
  intros Hin Hfault Hr.
  unfold main, loadDatabase, existsSync, readFileSync in H.
  unfold_monad H. steps H.
  all: repeat match goal with
       | Hs : saveDatabase _ _ _ = _ |- _ =>
           rewrite saveDatabase_open_fails in Hs by apply Hfault;
           first [ discriminate Hs | injection Hs as <- <- ]
       | H : markAsPosted _ _ _ _ = _ |- _ =>
           eapply markAsPosted_summary in H as (? & ? & ?); [|eassumption..]
       | H : postClip _ _ _ = _ |- _ =>
           apply postClip_summary in H as (? & ? & ? & ? & ?)
       end.
  all: try discriminate.
  all: injection H as <- <-; subst; cbn [trace disk record_event tick] in *; try done.
  all: repeat match goal with Ht : trace _ = _ |- _ => rewrite Ht in *; clear Ht end.
  all: rewrite <- ?app_assoc in Hin; rewrite ?drop_trace in Hin; cbn [app] in Hin.
  all: try (exfalso; members Hin; fail).
  all: try (exfalso; repeat (apply elem_of_cons in Hin as [Hin|Hin]; [discriminate Hin|]);
            first [ apply elem_of_app in Hin as [Hin|Hin];
                    [eapply not_posted_in; by eauto|members Hin]
                  | eapply not_posted_in; by eauto ]; fail).
  all: try never_exits.
  all: try (exfalso;
            match goal with
            | Hx : (exists db', _ = Ok db') \/ _ = OutOfModel |- _ =>
                destruct Hx as [[? ?]|?]; discriminate
            end).
  all: try (match goal with
            | Hx : _ /\ exists props, _ = VObj props |- _ =>
                destruct Hx as (_ & ? & ->)
            end; discriminate).
  split; [done|]. split; [congruence|].
  rewrite <- (app_assoc _ [EvWrite _ _] [EvReport _]).
  rewrite drop_app_le by (rewrite ?length_app; lia).
  by eexists _, _.
Qed.

(** The scenario on a disk that refuses the write. *)
Lemma published_but_not_recorded_scenario :
  let p := {| text := String DQ "There's always money in the banana stand"
                      +:+ String DQ (String LF (String LF "— George Sr."));
              embed_type := "app.bsky.embed.video";
              video := "blob-1";
              alt := VStr "George Sr. tells Michael about the banana stand";
              createdAt := "2023-11-14T22:13:21.000Z" |} in
  EvPost p true ∈ effects (main (failing_disk OpenFails)) scenario_start
  /\ fst (main (failing_disk OpenFails) scenario_start) = Exit 1
  /\ disk (snd (main (failing_disk OpenFails) scenario_start)) = disk scenario_start
  /\ exists before data,
      effects (main (failing_disk OpenFails)) scenario_start
      = (before ++ [EvWrite DATABASE_PATH data; EvReport (FsError DATABASE_PATH)])%list.
Proof.
  intros p.
  assert (Hin : EvPost p true ∈ effects (main (failing_disk OpenFails)) scenario_start).
  { vm_compute. do 14 apply list_elem_of_further. apply list_elem_of_here. }
  split; [exact Hin|].
  apply (published_but_not_recorded (failing_disk OpenFails) scenario_start p Hin).
  - intros data. reflexivity.
  - vm_compute. discriminate.
Defined.

(** ** Runs on a well-shaped record *)

Lemma posted_test cs :
  Forall (fun c => Clip_shape c = true) cs ->
  Forall (fun c => (let* p := get (Some c) "posted" in Ok (truthy p))
                   = Ok (posted_of c)) cs.
Proof.
  intros HF. eapply Forall_impl; [exact HF|].
  intros c H. by destruct (Clip_shape_obj c H) as [props ->].
Qed.

(** The statistics of a well-shaped queue. *)
Lemma count_posted db cs :
  Database_shape db = true -> field db "clips" = Some (VArr cs) ->
  count_if (fun c => let* p := get (Some c) "posted" in Ok (truthy p)) cs
  = Ok (length (filter (fun c => posted_of c = true) cs)).
Proof.
  intros H Hcs. apply count_if_total, posted_test. by eapply Database_shape_Forall.
Qed.

(** The first steps of a run whose credentials are set and whose record
    is a well-shaped database. *)
Lemma main_loaded w st text db cs :
  truthy_env (BLUESKY_USERNAME w) = true ->
  truthy_env (BLUESKY_APP_PASSWORD w) = true ->
  disk st !! DATABASE_PATH = Some (File text) ->
  JSON_parse text = Ok db ->
  Database_shape db = true ->
  field db "clips" = Some (VArr cs) ->
  main w st
  = try_catch
      (clip <- lift (getNextClip db) ;;
       if negb (truthy (Some clip)) then
         console_log (String LF "✓ All clips have been posted!")
       else
         console_log (String LF "Next clip:") ;;
         character <- lift (let* c := get (Some clip) "character" in ToString c) ;;
         quote_text <- lift (let* q := get (Some clip) "quote" in ToString q) ;;
         console_log ("  " +:+ character +:+ ": " +:+ String DQ quote_text
                      +:+ String DQ "") ;;
         filename <- lift (let* f := get (Some clip) "filename" in ToString f) ;;
         console_log ("  File: " +:+ filename) ;;
         postClip w clip ;;
         id <- lift (get (Some clip) "id") ;;
         db' <- markAsPosted w db id ;;
         saveDatabase w db' ;;
         console_log ("✓ Database updated" +:+ String LF ""))
      (fun error => emit (EvReport error) ;; process_exit 1)
      {| disk := disk st; ticks := ticks st;
         trace := trace st ++
           [EvLog "Loading clip database...";
            EvExists DATABASE_PATH true;
            EvRead DATABASE_PATH;
            EvLog (String LF "Database: "
                   +:+ string_of_Z (Z.of_nat (length (filter (fun c => posted_of c = true) cs)))
                   +:+ "/" +:+ string_of_Z (Z.of_nat (length cs))
                   +:+ " clips posted")] |}.
Proof.
  intros Hu Hp Hdisk Hparse Hshape Hcs.
  unfold main. rewrite Hu, Hp. cbn [negb orb]. unfold try_catch.
  match goal with
  | |- match ?A with _ => _ end = match ?B with _ => _ end =>
      assert (E : A = B); [|by rewrite E]
  end.
  unfold bind, console_log, emit, lift. cbv beta iota.
  rewrite (loadDatabase_present _ text) by done. rewrite Hparse.
  rewrite (clips_of_shape db cs Hshape Hcs), (count_posted db cs Hshape Hcs).
  unfold record_event. cbn [disk ticks trace]. rewrite <- !app_assoc. reflexivity.
Qed.

Lemma nothing_unposted db cs :
  Database_shape db = true -> field db "clips" = Some (VArr cs) ->
  (forall c, c ∈ cs -> posted_of c = true) ->
  getNextClip db = Ok VNull.
Proof.
  intros H Hcs Hall. rewrite (getNextClip_list_find db cs H Hcs).
  destruct (list_find _ cs) as [[i c]|] eqn:E; [|done].
  apply list_find_Some in E as (Hi & Hun & _).
  apply list_elem_of_lookup_2, Hall in Hi. by rewrite Hi in Hun.
Qed.

(** X8. On a well-shaped record in which every clip is posted (an empty
    queue included) the run ends normally after five effects: it announces
    the load, looks at the record and reads it, prints the statistics [n/n]
    and the line that all clips have been posted.  It does not log in,
    reads no clock and writes nothing. *)
Theorem nothing_to_post (w : World) (st : State) (text : string) (db : value)
  (cs : list value) :
  truthy_env (BLUESKY_USERNAME w) = true ->
  truthy_env (BLUESKY_APP_PASSWORD w) = true ->
  disk st !! DATABASE_PATH = Some (File text) ->
  JSON_parse text = Ok db ->
  Database_shape db = true ->
  field db "clips" = Some (VArr cs) ->
  (forall c, c ∈ cs -> posted_of c = true) ->
  main w st
  = (Ok tt,
     {| disk := disk st; ticks := ticks st;
        trace := trace st ++
          [EvLog "Loading clip database...";
           EvExists DATABASE_PATH true;
           EvRead DATABASE_PATH;
           EvLog (String LF "Database: " +:+ string_of_Z (Z.of_nat (length cs))
                  +:+ "/" +:+ string_of_Z (Z.of_nat (length cs))
                  +:+ " clips posted");
           EvLog (String LF "✓ All clips have been posted!")] |}).
Proof.
  intros Hu Hp Hdisk Hparse Hshape Hcs Hall.
  rewrite (main_loaded w st text db cs Hu Hp Hdisk Hparse Hshape Hcs).
  unfold try_catch, bind, lift. rewrite (nothing_unposted db cs Hshape Hcs Hall).
  cbn [truthy negb]. unfold console_log, emit, record_event. cbn [disk ticks trace].
  assert (E : filter (fun c => posted_of c = true) cs = cs).
  { clear -Hall. induction cs as [|c cs IH]; [done|].
    rewrite filter_cons, decide_True by (apply Hall; apply list_elem_of_here).
    f_equal. apply IH. intros x Hx. apply Hall. by apply list_elem_of_further. }
  rewrite E, <- app_assoc. reflexivity.
Qed.

(** An empty queue. *)
Lemma nothing_to_post_empty_queue :
  let st := start (disk_with (JSON_stringify (VObj [("clips", VArr [])])) []) in
  main calm st
  = (Ok tt,
     {| disk := disk st; ticks := ticks st;
        trace := trace st ++
          [EvLog "Loading clip database...";
           EvExists DATABASE_PATH true;
           EvRead DATABASE_PATH;
           EvLog (String LF "Database: " +:+ string_of_Z (Z.of_nat (length (@nil value)))
                  +:+ "/" +:+ string_of_Z (Z.of_nat (length (@nil value)))
                  +:+ " clips posted");
           EvLog (String LF "✓ All clips have been posted!")] |}).
Proof.
  intros st.
  apply (nothing_to_post calm st (JSON_stringify (VObj [("clips", VArr [])]))
           (VObj [("clips", VArr [])]) []).
  - reflexivity.
  - reflexivity.
  - by vm_compute.
  - by vm_compute.
  - reflexivity.
  - reflexivity.
  - intros c Hc. by apply elem_of_nil in Hc.
Defined.

(** ** The outcome of a publish *)

(** X9. The outcome of a publish of a well-shaped clip is decided by the
    first step that fails, in this order: the login, the look-up of the
    media file (absent, or present but not a regular file), the upload of
    its bytes as [video/mp4], the post of the record built from the clip,
    the reference the upload returned and the first clock reading.  With
    no failure the publish returns. *)
Theorem postClip_outcome (w : World) (clip : value) (filename : string) (st : State) :
  Clip_shape clip = true ->
  field clip "filename" = Some (VStr filename) ->
  fst (postClip w clip st)
  = match agent_login w (BLUESKY_USERNAME w) (BLUESKY_APP_PASSWORD w) with
    | Some msg => Throw (LoginError msg)
    | None =>
        match disk st !! (CLIPS_FOLDER +:+ "/" +:+ filename) with
        | None => Throw (VideoFileNotFound (CLIPS_FOLDER +:+ "/" +:+ filename))
        | Some Directory => Throw (FsError (CLIPS_FOLDER +:+ "/" +:+ filename))
        | Some (File data) =>
            match agent_uploadBlob w data "video/mp4" with
            | inl msg => Throw (UploadError msg)
            | inr blob =>
                match agent_post w (post_of w clip blob st) with
                | Some msg => Throw (PostError msg)
                | None => Ok tt
                end
            end
        end
    end.
Proof.
  intros Hshape Hf.
  destruct (Clip_shape_fields clip Hshape)
    as ((id & Hid) & _ & (q & Hq) & (ch & Hch) & Hd & _).
  destruct (Clip_shape_obj clip Hshape) as [props ->].
  unfold post_of, description_of. rewrite Hq, Hch. cbn [field] in *.
  destruct (postClip w (VObj props) st) as [r st'] eqn:H. cbn [fst].
  exec_postClip H.
  all: cbn [get rbind] in *; rewrite ?Hf, ?Hq, ?Hch, ?Hid in *; cbn [ToString] in *;
    simplify_eq.
  all: try (destruct (BLUESKY_USERNAME w); discriminate).
  all: repeat match goal with
       | Hb : negb (bool_decide (is_Some ?x)) = _ |- _ =>
           destruct x as [[]|] eqn:?; try discriminate Hb; clear Hb
       end.
  all: simplify_eq.
  all: destruct Hd as [Hd | [d Hd]]; rewrite ?Hd in *; simplify_eq; cbn [truthy] in *;
    try (destruct (String.eqb_spec d ""); subst; cbn [negb] in * ); try discriminate.
  all: repeat match goal with
       | Ho : agent_login _ _ _ = _ |- _ => rewrite ?Ho; clear Ho
       | Ho : disk _ !! _ = _ |- _ => rewrite ?Ho; clear Ho
       | Ho : agent_uploadBlob _ _ _ = _ |- _ => rewrite ?Ho; clear Ho
       | Ho : agent_post _ _ = _ |- _ => rewrite ?Ho; clear Ho
       end.
  all: reflexivity.
Qed.

(** The publish of the scenario. *)
Lemma postClip_outcome_scenario :
  fst (postClip calm (banana_stand "ad_s01e01_001" false VNull) scenario_start)
  = match agent_login calm (BLUESKY_USERNAME calm) (BLUESKY_APP_PASSWORD calm) with
    | Some msg => Throw (LoginError msg)
    | None =>
        match disk scenario_start !! (CLIPS_FOLDER +:+ "/" +:+ "banana_stand_money.mp4") with
        | None =>
            Throw (VideoFileNotFound (CLIPS_FOLDER +:+ "/" +:+ "banana_stand_money.mp4"))
        | Some Directory =>
            Throw (FsError (CLIPS_FOLDER +:+ "/" +:+ "banana_stand_money.mp4"))
        | Some (File data) =>
            match agent_uploadBlob calm data "video/mp4" with
            | inl msg => Throw (UploadError msg)
            | inr blob =>
                match agent_post calm
                        (post_of calm (banana_stand "ad_s01e01_001" false VNull) blob
                           scenario_start) with
                | Some msg => Throw (PostError msg)
                | None => Ok tt
                end
            end
        end
    end.
Proof.
  apply (postClip_outcome calm (banana_stand "ad_s01e01_001" false VNull)
           "banana_stand_money.mp4" scenario_start); reflexivity.
Defined.

(** A publish in which every step is accepted, in full. *)
Lemma postClip_accepted w clip st id filename data blob :
  Clip_shape clip = true ->
  field clip "id" = Some (VStr id) ->
  field clip "filename" = Some (VStr filename) ->
  agent_login w (BLUESKY_USERNAME w) (BLUESKY_APP_PASSWORD w) = None ->
  disk st !! (CLIPS_FOLDER +:+ "/" +:+ filename) = Some (File data) ->
  agent_uploadBlob w data "video/mp4" = inr blob ->
  agent_post w (post_of w clip blob st) = None ->
  postClip w clip st
  = (Ok tt,
     {| disk := disk st; ticks := S (ticks st);
        trace := trace st ++
          [EvLog (String LF "Logging in as " +:+ username_text w +:+ "...");
           EvLogin (BLUESKY_USERNAME w) (BLUESKY_APP_PASSWORD w) true;
           EvExists (CLIPS_FOLDER +:+ "/" +:+ filename) true;
           EvLog ("Uploading video: " +:+ filename +:+ "...");
           EvRead (CLIPS_FOLDER +:+ "/" +:+ filename);
           EvUpload data "video/mp4" true;
           EvLog "Posting to Bluesky...";
           EvPost (post_of w clip blob st) true;
           EvLog ("✓ Posted: " +:+ id)] |}).
Proof.
  intros Hshape Hid Hf Hlogin Hdisk Hup Hpost.
  destruct (Clip_shape_fields clip Hshape)
    as (_ & _ & (q & Hq) & (ch & Hch) & Hd & _).
  destruct (Clip_shape_obj clip Hshape) as [props ->].
  unfold post_of, description_of, username_text in *. rewrite Hq, Hch in *.
  cbn [field] in *.
  destruct (postClip w (VObj props) st) as [r st'] eqn:H.
  exec_postClip H.
  all: cbn [get rbind] in *; rewrite ?Hf, ?Hq, ?Hch, ?Hid in *; cbn [ToString] in *;
    simplify_eq.
  all: try (destruct (BLUESKY_USERNAME w); discriminate).
  all: repeat match goal with
       | Hb : negb (bool_decide (is_Some ?x)) = _ |- _ =>
           destruct x as [[]|] eqn:?; try discriminate Hb; clear Hb
       end.
  all: simplify_eq.
  all: destruct Hd as [Hd | [d Hd]]; rewrite ?Hd in *; simplify_eq; cbn [truthy] in *;
    try (destruct (String.eqb_spec d ""); subst; cbn [negb] in * ); try discriminate.
  all: try congruence.
  all: repeat match goal with
       | Hs : agent_uploadBlob _ _ _ = inr ?s |- _ =>
           rewrite Hup in Hs; injection Hs as <-
       end.
  all: try congruence.
  all: unfold record_event, tick; cbn [disk ticks trace]; rewrite <- !app_assoc.
  all: rewrite ?bool_decide_true by eauto.
  all: destruct (BLUESKY_USERNAME w); cbn [option_map ToString] in *; simplify_eq.
  all: reflexivity.
Qed.

(** ** A run in which every step is accepted *)

(** What [markAsPosted] returns on a well-shaped database, by the first
    clip that carries the identifier. *)
Lemma markAsPosted_first_match w db cs clipId st :
  Database_shape db = true -> field db "clips" = Some (VArr cs) ->
  match list_find (fun c => id_matches clipId c = true) cs with
  | None => markAsPosted w db clipId st = (Ok db, st)
  | Some (j, cj) =>
      exists props cprops,
        db = VObj props /\ cj = VObj cprops
        /\ markAsPosted w db clipId st
           = (Ok (VObj (assign "clips"
                          (VArr (<[j := VObj (assign "post_date"
                                                (VStr (toISOString w (clock w (S (ticks st)))))
                                                (assign "posted" (VBool true) cprops))]> cs))
                          props)),
              tick st)
  end.
Proof.
  intros H Hcs.
  pose proof (Database_shape_Forall db cs H Hcs) as Hshape.
  rewrite Forall_forall in Hshape.
  destruct (list_find _ cs) as [[j cj]|] eqn:E.
  - apply list_find_Some in E as (Hj & Hm & Hbefore).
    apply (markAsPosted_match w db cs clipId st j cj H Hcs Hj).
    + apply id_matches_iff; [|done]. by eapply Hshape, list_elem_of_lookup_2.
    + intros k c Hk Hc Hid. apply (Hbefore k c Hc Hk).
      apply id_matches_iff; [|done]. by eapply Hshape, list_elem_of_lookup_2.
  - apply (markAsPosted_no_match w db cs clipId st H Hcs).
    intros c Hc Hid. apply list_find_None in E. rewrite Forall_forall in E.
    apply (E c Hc). apply id_matches_iff; [by apply Hshape|done].
Qed.

(** Marking a clip of the queue by its own identifier always marks some
    clip. *)
Lemma markAsPosted_own_id w db cs clip st :
  Database_shape db = true -> field db "clips" = Some (VArr cs) ->
  clip ∈ cs ->
  exists db', markAsPosted w db (field clip "id") st = (Ok db', tick st).
Proof.
  intros H Hcs Hin.
  pose proof (Database_shape_Forall db cs H Hcs) as Hshape.
  rewrite Forall_forall in Hshape.
  pose proof (markAsPosted_first_match w db cs (field clip "id") st H Hcs) as Hm.
  destruct (list_find _ cs) as [[j cj]|] eqn:E.
  - destruct Hm as (props & cprops & _ & _ & ->). eauto.
  - apply list_find_None in E. rewrite Forall_forall in E.
    destruct (E clip Hin). apply id_matches_iff; [by apply Hshape|done].
Qed.

Lemma selected_in_queue db cs clip :
  Database_shape db = true -> field db "clips" = Some (VArr cs) ->
  getNextClip db = Ok clip -> clip <> VNull ->
  exists i : nat,
    cs !! i = Some clip /\ posted_of clip = false
    /\ forall (j : nat) c, (j < i)%nat -> cs !! j = Some c -> posted_of c = true.
Proof.
  intros H Hcs Hnext Hnn. rewrite (getNextClip_list_find db cs H Hcs) in Hnext.
  destruct (list_find _ cs) as [[i c]|] eqn:E; [|congruence].
  injection Hnext as ->. apply list_find_Some in E as (Hi & Hun & Hbefore).
  exists i. split; [done|]. split; [by apply negb_true_iff|].
  intros j c Hj Hc. specialize (Hbefore j c Hc Hj). by destruct (posted_of c).
Qed.

(** X10. With both credentials set, a well-shaped record whose next clip
    has its media file on disk, a service that accepts the login, the
    upload and the post, and a disk that takes the write, the run ends
    normally after exactly these eighteen effects in this order, the clock
    has been read twice, and the disk differs from the initial one only in
    the database, which holds the text of the write. *)
Theorem run_succeeds (w : World) (st : State) (text : string) (db clip : value)
  (cs : list value) (id filename character quote_text data blob : string) :
  truthy_env (BLUESKY_USERNAME w) = true ->
  truthy_env (BLUESKY_APP_PASSWORD w) = true ->
  disk st !! DATABASE_PATH = Some (File text) ->
  JSON_parse text = Ok db ->
  Database_shape db = true ->
  field db "clips" = Some (VArr cs) ->
  getNextClip db = Ok clip ->
  field clip "id" = Some (VStr id) ->
  field clip "filename" = Some (VStr filename) ->
  field clip "character" = Some (VStr character) ->
  field clip "quote" = Some (VStr quote_text) ->
  agent_login w (BLUESKY_USERNAME w) (BLUESKY_APP_PASSWORD w) = None ->
  disk st !! (CLIPS_FOLDER +:+ "/" +:+ filename) = Some (File data) ->
  agent_uploadBlob w data "video/mp4" = inr blob ->
  agent_post w (post_of w clip blob st) = None ->
  (forall record, write_fault_of w DATABASE_PATH record = NoFault) ->
  exists db',
    main w st
    = (Ok tt,
       {| disk := <[DATABASE_PATH := File (JSON_stringify db')]> (disk st);
          ticks := S (S (ticks st));
          trace := trace st ++
            [EvLog "Loading clip database...";
             EvExists DATABASE_PATH true;
             EvRead DATABASE_PATH;
             EvLog (String LF "Database: "
                    +:+ string_of_Z (Z.of_nat (length (filter (fun c => posted_of c = true) cs)))
                    +:+ "/" +:+ string_of_Z (Z.of_nat (length cs))
                    +:+ " clips posted");
             EvLog (String LF "Next clip:");
             EvLog ("  " +:+ character +:+ ": " +:+ String DQ quote_text
                    +:+ String DQ "");
             EvLog ("  File: " +:+ filename);
             EvLog (String LF "Logging in as " +:+ username_text w +:+ "...");
             EvLogin (BLUESKY_USERNAME w) (BLUESKY_APP_PASSWORD w) true;
             EvExists (CLIPS_FOLDER +:+ "/" +:+ filename) true;
             EvLog ("Uploading video: " +:+ filename +:+ "...");
             EvRead (CLIPS_FOLDER +:+ "/" +:+ filename);
             EvUpload data "video/mp4" true;
             EvLog "Posting to Bluesky...";
             EvPost (post_of w clip blob st) true;
             EvLog ("✓ Posted: " +:+ id);
             EvWrite DATABASE_PATH (JSON_stringify db');
             EvLog ("✓ Database updated" +:+ String LF "")] |}).
Proof.
  intros Hu Hp Hdisk Hparse Hshape Hcs Hnext Hid Hf Hch Hq Hlogin Hvideo Hup Hpost Hfault.
  assert (Hnn : clip <> VNull) by (intros ->; discriminate Hid).
  destruct (selected_in_queue db cs clip Hshape Hcs Hnext Hnn) as (i & Hi & _ & _).
  pose proof (list_elem_of_lookup_2 _ _ _ Hi) as Hin.
  pose proof (Database_shape_Forall db cs Hshape Hcs) as Hall.
  rewrite Forall_forall in Hall. pose proof (Hall clip Hin) as Hclip.
  destruct (Clip_shape_obj clip Hclip) as [props ->].
  rewrite (main_loaded w st text db cs Hu Hp Hdisk Hparse Hshape Hcs).
  unfold try_catch. unfold bind at 1. unfold lift at 1. rewrite Hnext.
  cbn [truthy negb].
  unfold bind at 1. unfold console_log at 1. unfold emit at 1.
  unfold bind at 1. unfold lift at 1. cbn [field] in Hch, Hq, Hf, Hid.
  cbn [get rbind]. rewrite Hch. cbn [ToString].
  unfold bind at 1. unfold lift at 1. rewrite Hq. cbn [ToString].
  unfold bind at 1. unfold console_log at 1. unfold emit at 1.
  unfold bind at 1. unfold lift at 1. rewrite Hf. cbn [ToString].
  unfold bind at 1. unfold console_log at 1. unfold emit at 1.
  unfold bind at 1.
  erewrite (postClip_accepted w (VObj props) _ id filename data blob); try done.
  unfold bind at 1. unfold lift at 1. rewrite Hid.
  unfold bind at 1.
  match goal with
  | |- context [markAsPosted w db ?i ?s] =>
      destruct (markAsPosted_own_id w db cs (VObj props) s Hshape Hcs Hin) as [db' Hm]
  end.
  cbn [field] in Hm. rewrite Hid in Hm. rewrite Hm.
  exists db'.
  unfold bind at 1. unfold saveDatabase, writeFileSync, bind, emit, set_disk, console_log, emit.
  unfold record_event, tick. cbn [disk ticks trace]. rewrite Hdisk, Hfault.
  unfold post_of. cbn [disk ticks trace]. rewrite <- !app_assoc. reflexivity.
Qed.

(** The run of the scenario, effect by effect. *)
Lemma run_succeeds_scenario :
  let clip := banana_stand "ad_s01e01_001" false VNull in
  let cs := [chicken_dance true (VStr "2023-11-12T15:00:00.000Z");
             her true (VStr "2023-11-13T15:00:00.000Z"); clip] in
  exists db',
    main calm scenario_start
    = (Ok tt,
       {| disk := <[DATABASE_PATH := File (JSON_stringify db')]> (disk scenario_start);
          ticks := S (S (ticks scenario_start));
          trace := trace scenario_start ++
            [EvLog "Loading clip database...";
             EvExists DATABASE_PATH true;
             EvRead DATABASE_PATH;
             EvLog (String LF "Database: "
                    +:+ string_of_Z (Z.of_nat (length (filter (fun c => posted_of c = true) cs)))
                    +:+ "/" +:+ string_of_Z (Z.of_nat (length cs))
                    +:+ " clips posted");
             EvLog (String LF "Next clip:");
             EvLog ("  " +:+ "George Sr." +:+ ": "
                    +:+ String DQ "There's always money in the banana stand"
                    +:+ String DQ "");
             EvLog ("  File: " +:+ "banana_stand_money.mp4");
             EvLog (String LF "Logging in as " +:+ username_text calm +:+ "...");
             EvLogin (BLUESKY_USERNAME calm) (BLUESKY_APP_PASSWORD calm) true;
             EvExists (CLIPS_FOLDER +:+ "/" +:+ "banana_stand_money.mp4") true;
             EvLog ("Uploading video: " +:+ "banana_stand_money.mp4" +:+ "...");
             EvRead (CLIPS_FOLDER +:+ "/" +:+ "banana_stand_money.mp4");
             EvUpload "mp4-bytes" "video/mp4" true;
             EvLog "Posting to Bluesky...";
             EvPost (post_of calm clip "blob-1" scenario_start) true;
             EvLog ("✓ Posted: " +:+ "ad_s01e01_001");
             EvWrite DATABASE_PATH (JSON_stringify db');
             EvLog ("✓ Database updated" +:+ String LF "")] |}).
Proof.
  intros clip cs.
  apply (run_succeeds calm scenario_start (JSON_stringify scenario_db) scenario_db clip cs
           "ad_s01e01_001" "banana_stand_money.mp4" "George Sr."
           "There's always money in the banana stand" "mp4-bytes" "blob-1").
  - reflexivity.
  - reflexivity.
  - by vm_compute.
  - by vm_compute.
  - reflexivity.
  - reflexivity.
  - by vm_compute.
  - reflexivity.
  - reflexivity.
  - reflexivity.
  - reflexivity.
  - reflexivity.
  - by vm_compute.
  - reflexivity.
  - reflexivity.
  - intros record. reflexivity.
Defined.

(** ** Runs on a record that cannot be used *)

(** X11. When the record is absent, is not a regular file, is not JSON, or
    is JSON without a [clips] array, the run ends with status 1 without
    any call of the service and without any write; the disk is as
    before. *)
Theorem unusable_record_stops_before_login (w : World) (st : State) :
  disk st !! DATABASE_PATH = None
  \/ disk st !! DATABASE_PATH = Some Directory
  \/ (exists text,
        disk st !! DATABASE_PATH = Some (File text)
        /\ (JSON_parse text = Throw SyntaxError
            \/ exists db, JSON_parse text = Ok db /\ clips_of db = Throw TypeError)) ->
  fst (main w st) = Exit 1
  /\ disk (snd (main w st)) = disk st
  /\ forall e, e ∈ effects (main w) st -> is_network e = false /\ is_write e = false.
Proof.
  intros Hbad. unfold effects. destruct (main w st) as [r st'] eqn:H. cbn [fst snd].
  unfold main, loadDatabase, existsSync, readFileSync in H. unfold_monad H. steps H.
  all: destruct Hbad as [Hb | [Hb | (text & Hb & [Hs | (db & Hs & Hc)])]].
  all: try never_exits.
  all: try congruence.
  all: try (rewrite Hb in *; simplify_eq; congruence).
  all: injection H as <- <-; cbn [disk trace record_event].
  all: (split; [done|]; split; [done|]).
  all: rewrite <- ?app_assoc, ?drop_trace; intros ev Hev; members Hev; by subst.
Qed.

(** A record that is the empty object. *)
Lemma unusable_record_empty_object :
  let st := start (disk_with "{}" ["banana_stand_money.mp4"]) in
  fst (main calm st) = Exit 1
  /\ disk (snd (main calm st)) = disk st
  /\ forall e, e ∈ effects (main calm) st -> is_network e = false /\ is_write e = false.
Proof.
  intros st. apply (unusable_record_stops_before_login calm st).
  right; right. exists "{}". split; [by vm_compute|].
  right. exists (VObj []). split; by vm_compute.
Defined.

(** ** The queue after a clip is marked *)

(** The clip as [markAsPosted] leaves it. *)
Lemma marked_clip_shape cprops date :
  Clip_shape (VObj cprops) = true ->
  Clip_shape (VObj (assign "post_date" (VStr date)
                      (assign "posted" (VBool true) cprops))) = true.
Proof.
  unfold Clip_shape. cbn [field]. intros H.
  repeat (apply andb_prop in H; destruct H as [H ?]).
  rewrite !assoc_assign_eq.
  rewrite !(assoc_assign_ne "post_date") by done.
  rewrite !(assoc_assign_ne "posted") by done.
  rewrite assoc_assign_eq.
  repeat (apply andb_true_intro; split); done.
Qed.

Lemma marked_clip_posted cprops date :
  posted_of (VObj (assign "post_date" (VStr date)
                     (assign "posted" (VBool true) cprops))) = true.
Proof.
  unfold posted_of. cbn [field]. rewrite assoc_assign_ne by done.
  by rewrite assoc_assign_eq.
Qed.

Lemma marked_clip_id cprops date :
  field (VObj (assign "post_date" (VStr date)
                 (assign "posted" (VBool true) cprops))) "id"
  = field (VObj cprops) "id".
Proof. cbn [field]. by rewrite !assoc_assign_ne. Qed.

Lemma Database_shape_with_clips props cs :
  Forall (fun c => Clip_shape c = true) cs ->
  Database_shape (VObj (assign "clips" (VArr cs) props)) = true.
Proof.
  intros H. unfold Database_shape. cbn [field]. rewrite assoc_assign_eq.
  apply forallb_forall. intros c Hc. rewrite Forall_forall in H.
  apply H. by apply list_elem_of_In.
Qed.

(** X12. On a well-shaped database [markAsPosted] always returns, whatever
    the identifier, and what it returns is again a well-shaped database
    with the same identifiers in the same order, in which no clip that was
    posted has become unposted. *)
Theorem markAsPosted_keeps_queue (w : World) (db : value) (cs : list value)
  (clipId : option value) (st : State) :
  Database_shape db = true ->
  field db "clips" = Some (VArr cs) ->
  exists db' cs' st',
    markAsPosted w db clipId st = (Ok db', st')
    /\ Database_shape db' = true
    /\ field db' "clips" = Some (VArr cs')
    /\ ids_of cs' = ids_of cs
    /\ (forall (j : nat) c c',
          cs !! j = Some c -> cs' !! j = Some c' ->
          posted_of c = true -> posted_of c' = true).
Proof.
  intros H Hcs.
  pose proof (Database_shape_Forall db cs H Hcs) as Hshape.
  pose proof (markAsPosted_first_match w db cs clipId st H Hcs) as Hm.
  destruct (list_find _ cs) as [[i ci]|] eqn:E.
  - destruct Hm as (props & cprops & -> & -> & ->).
    apply list_find_Some in E as (Hi & _ & _).
    eexists _, _, _. split; [reflexivity|]. split; [|split; [|split]].
    + apply Database_shape_with_clips, Forall_insert; [done|].
      apply marked_clip_shape. rewrite Forall_forall in Hshape.
      by eapply Hshape, list_elem_of_lookup_2.
    + cbn [field]. apply assoc_assign_eq.
    + unfold ids_of. rewrite list_fmap_insert, marked_clip_id.
      apply list_insert_id. by rewrite list_lookup_fmap, Hi.
    + intros j c c' Hc Hc' Hp. destruct (decide (j = i)) as [->|Hne].
      * rewrite list_lookup_insert_eq in Hc' by by eapply lookup_lt_Some.
        injection Hc' as <-. apply marked_clip_posted.
      * rewrite list_lookup_insert_ne in Hc' by done. congruence.
  - exists db, cs, st. split; [done|]. split; [done|]. split; [done|].
    split; [done|]. intros j c c' Hc Hc' Hp. congruence.
Qed.

(** Marking the third clip of the scenario. *)
Lemma markAsPosted_keeps_queue_scenario :
  exists db' cs' st',
    markAsPosted calm scenario_db (Some (VStr "ad_s01e01_001")) scenario_start
    = (Ok db', st')
    /\ Database_shape db' = true
    /\ field db' "clips" = Some (VArr cs')
    /\ ids_of cs'
       = ids_of [chicken_dance true (VStr "2023-11-12T15:00:00.000Z");
                 her true (VStr "2023-11-13T15:00:00.000Z");
                 banana_stand "ad_s01e01_001" false VNull]
    /\ (forall (j : nat) c c',
          [chicken_dance true (VStr "2023-11-12T15:00:00.000Z");
           her true (VStr "2023-11-13T15:00:00.000Z");
           banana_stand "ad_s01e01_001" false VNull] !! j = Some c ->
          cs' !! j = Some c' -> posted_of c = true -> posted_of c' = true).
Proof.
  apply (markAsPosted_keeps_queue calm scenario_db); reflexivity.
Defined.

(** X13. Marking a clip keeps the layout of the record: the database keeps
    its property names in their order, and so does the marked clip, except
    that a clip that had no [post_date] gets it as its last property. *)
Theorem markAsPosted_keeps_key_order (w : World) (db : value) (cs : list value)
  (clipId : option value) (st : State) (i : nat) (clip : value) :
  Database_shape db = true ->
  field db "clips" = Some (VArr cs) ->
  cs !! i = Some clip ->
  field clip "id" = clipId ->
  (forall (j : nat) c, (j < i)%nat -> cs !! j = Some c -> field c "id" <> clipId) ->
  exists db' cs' clip',
    markAsPosted w db clipId st = (Ok db', tick st)
    /\ field db' "clips" = Some (VArr cs')
    /\ cs' !! i = Some clip'
    /\ keys_of db' = keys_of db
    /\ keys_of clip'
       = match field clip "post_date" with
         | Some _ => keys_of clip
         | None => (keys_of clip ++ ["post_date"])%list
         end.
Proof.
  intros H Hcs Hi Hid Hbefore.
  destruct (markAsPosted_match w db cs clipId st i clip H Hcs Hi Hid Hbefore)
    as (props & cprops & -> & -> & ->).
  pose proof (Database_shape_Forall _ cs H Hcs) as Hshape.
  rewrite Forall_forall in Hshape.
  pose proof (Hshape _ (list_elem_of_lookup_2 _ _ _ Hi)) as Hclip.
  destruct (Clip_shape_fields _ Hclip) as (_ & _ & _ & _ & _ & (b & Hb)).
  cbn [field] in *.
  eexists _, _, _. split; [reflexivity|].
  split; [cbn [field]; apply assoc_assign_eq|].
  split; [apply list_lookup_insert_eq; by eapply lookup_lt_Some|].
  split.
  - cbn [keys_of]. apply assign_keys_present. by rewrite Hcs.
  - cbn [keys_of].
    assert (Hk : map fst (assign "posted" (VBool true) cprops) = map fst cprops).
    { apply assign_keys_present. by rewrite Hb. }
    destruct (assoc "post_date" cprops) as [d|] eqn:Ed.
    + rewrite assign_keys_present; [done|].
      rewrite assoc_assign_ne by done. by rewrite Ed.
    + rewrite assign_keys_missing by (rewrite assoc_assign_ne by done; exact Ed).
      by rewrite map_app, Hk.
Qed.

(** The third clip of the scenario has a [post_date] (it is [null]). *)
Lemma markAsPosted_keeps_key_order_scenario :
  exists db' cs' clip',
    markAsPosted calm scenario_db (Some (VStr "ad_s01e01_001")) scenario_start
    = (Ok db', tick scenario_start)
    /\ field db' "clips" = Some (VArr cs')
    /\ cs' !! 2%nat = Some clip'
    /\ keys_of db' = keys_of scenario_db
    /\ keys_of clip'
       = match field (banana_stand "ad_s01e01_001" false VNull) "post_date" with
         | Some _ => keys_of (banana_stand "ad_s01e01_001" false VNull)
         | None => (keys_of (banana_stand "ad_s01e01_001" false VNull)
                    ++ ["post_date"])%list
         end.
Proof.
  apply (markAsPosted_keeps_key_order calm scenario_db
           [chicken_dance true (VStr "2023-11-12T15:00:00.000Z");
            her true (VStr "2023-11-13T15:00:00.000Z");
            banana_stand "ad_s01e01_001" false VNull]
           (Some (VStr "ad_s01e01_001")) scenario_start 2
           (banana_stand "ad_s01e01_001" false VNull)); try reflexivity.
  intros j c Hj Hc. destruct j as [|[|j]]; [| |lia];
    injection Hc as <-; discriminate.
Defined.

(** Replacing an unposted clip by a posted one adds one to the count. *)
Lemma count_posted_insert cs (i : nat) c c' :
  cs !! i = Some c -> posted_of c = false -> posted_of c' = true ->
  length (filter (fun x => posted_of x = true) (<[i := c']> cs))
  = S (length (filter (fun x => posted_of x = true) cs)).
Proof.
  revert i. induction cs as [|x cs IH]; intros [|i] Hi Hc Hc'; try discriminate Hi.
  - injection Hi as ->. change (<[0%nat:=c']> (c :: cs)) with (c' :: cs).
    rewrite !filter_cons.
    destruct (decide (posted_of c' = true)); [|done].
    destruct (decide (posted_of c = true)); [congruence|done].
  - change (<[S i:=c']> (x :: cs)) with (x :: <[i:=c']> cs). rewrite !filter_cons.
    destruct (decide (posted_of x = true)); cbn [length]; by rewrite (IH i).
Qed.

(** X14. With unique identifiers, marking the selected clip moves the
    selection forward: the number of posted clips grows by one, and the
    next selection is the first unposted clip after the marked one, or
    [null] when there is none. *)
Theorem queue_advances (w : World) (db : value) (cs : list value) (st : State)
  (i : nat) (clip : value) :
  Database_shape db = true ->
  field db "clips" = Some (VArr cs) ->
  NoDup (ids_of cs) ->
  cs !! i = Some clip ->
  posted_of clip = false ->
  (forall (j : nat) c, (j < i)%nat -> cs !! j = Some c -> posted_of c = true) ->
  getNextClip db = Ok clip
  /\ exists db' cs',
      markAsPosted w db (field clip "id") st = (Ok db', tick st)
      /\ field db' "clips" = Some (VArr cs')
      /\ length (filter (fun c => posted_of c = true) cs')
         = S (length (filter (fun c => posted_of c = true) cs))
      /\ (forall (k : nat) next,
            (i < k)%nat -> cs !! k = Some next -> posted_of next = false ->
            (forall (j : nat) c, (i < j < k)%nat -> cs !! j = Some c ->
                                 posted_of c = true) ->
            getNextClip db' = Ok next)
      /\ ((forall (k : nat) c, (i < k)%nat -> cs !! k = Some c -> posted_of c = true) ->
          getNextClip db' = Ok VNull).
Proof.
  intros H Hcs Hnd Hi Hun Hbefore.
  pose proof (Database_shape_Forall _ cs H Hcs) as Hshape.
  split.
  { rewrite (getNextClip_list_find db cs H Hcs).
    assert (E : list_find (fun c => negb (posted_of c) = true) cs = Some (i, clip)).
    { apply list_find_Some. split; [done|]. split; [by rewrite Hun|].
      intros j c Hc Hj. by rewrite (Hbefore j c Hj Hc). }
    by rewrite E. }
  destruct (markAsPosted_match w db cs (field clip "id") st i clip H Hcs Hi eq_refl
              (unique_id_first_match cs i clip Hnd Hi))
    as (props & cprops & -> & -> & ->).
  set (clip' := VObj (assign "post_date" _ (assign "posted" (VBool true) cprops))).
  set (cs' := <[i := clip']> cs).
  assert (Hp' : posted_of clip' = true) by apply marked_clip_posted.
  assert (Hshape' : Forall (fun c => Clip_shape c = true) cs').
  { apply Forall_insert; [done|]. apply marked_clip_shape.
    rewrite Forall_forall in Hshape. by eapply Hshape, list_elem_of_lookup_2. }
  assert (Hdb' : Database_shape (VObj (assign "clips" (VArr cs') props)) = true)
    by by apply Database_shape_with_clips.
  assert (Hcs' : field (VObj (assign "clips" (VArr cs') props)) "clips"
                 = Some (VArr cs')) by (cbn [field]; apply assoc_assign_eq).
  assert (Hlook : forall (j : nat) c, cs' !! j = Some c ->
                    (j = i /\ c = clip') \/ (j <> i /\ cs !! j = Some c)).
  { intros j c Hc. unfold cs' in Hc. destruct (decide (j = i)) as [->|Hne].
    - rewrite list_lookup_insert_eq in Hc by by eapply lookup_lt_Some.
      left. split; congruence.
    - rewrite list_lookup_insert_ne in Hc by done. by right. }
  exists (VObj (assign "clips" (VArr cs') props)), cs'.
  split; [done|]. split; [done|].
  split; [by apply (count_posted_insert cs i (VObj cprops))|].
  split.
  - intros k next Hk Hnext Hnun Hbetween.
    rewrite (getNextClip_list_find _ cs' Hdb' Hcs').
    assert (E : list_find (fun c => negb (posted_of c) = true) cs' = Some (k, next)).
    { apply list_find_Some. split; [|split; [by rewrite Hnun|]].
      - unfold cs'. rewrite list_lookup_insert_ne by lia. done.
      - intros j c Hc Hj. destruct (Hlook j c Hc) as [[-> ->]|[Hne Hc0]].
        + by rewrite Hp'.
        + destruct (decide (j < i)%nat).
          * by rewrite (Hbefore j c).
          * rewrite (Hbetween j c); [done|lia|done]. }
    by rewrite E.
  - intros Hafter. apply (nothing_unposted _ cs' Hdb' Hcs').
    intros c Hc. apply list_elem_of_lookup_1 in Hc as [j Hj].
    destruct (Hlook j c Hj) as [[-> ->]|[Hne Hc0]]; [done|].
    destruct (decide (j < i)%nat); [by apply (Hbefore j)|apply (Hafter j); [lia|done]].
Qed.

(** Marking the first clip of a queue of three unposted clips. *)
Lemma queue_advances_first_clip :
  getNextClip waiting_db = Ok (banana_stand "ad_s01e01_001" false VNull)
  /\ exists db' cs',
      markAsPosted calm waiting_db
        (field (banana_stand "ad_s01e01_001" false VNull) "id") scenario_start
      = (Ok db', tick scenario_start)
      /\ field db' "clips" = Some (VArr cs')
      /\ length (filter (fun c => posted_of c = true) cs')
         = S (length (filter (fun c => posted_of c = true) waiting_queue))
      /\ (forall (k : nat) next,
            (0 < k)%nat -> waiting_queue !! k = Some next -> posted_of next = false ->
            (forall (j : nat) c, (0 < j < k)%nat -> waiting_queue !! j = Some c ->
                                 posted_of c = true) ->
            getNextClip db' = Ok next)
      /\ ((forall (k : nat) c, (0 < k)%nat -> waiting_queue !! k = Some c ->
                               posted_of c = true) ->
          getNextClip db' = Ok VNull).
Proof.
  apply (queue_advances calm waiting_db waiting_queue scenario_start 0
           (banana_stand "ad_s01e01_001" false VNull)).
  - reflexivity.
  - reflexivity.
  - repeat (apply NoDup_cons; split;
            [intros Hin; repeat (apply elem_of_cons in Hin as [Hin|Hin];
                                 [discriminate Hin|]); by apply elem_of_nil in Hin|]).
    apply NoDup_nil_2.
  - reflexivity.
  - reflexivity.
  - intros j c Hj. lia.
Defined.

(** X15. When the selected clip repeats the identifier of an earlier clip,
    marking it by its identifier marks the earlier clip: the selected clip
    is left as it was and is selected again. *)
Theorem repeated_identifier_blocks_queue (w : World) (db : value) (cs : list value)
  (st : State) (i j : nat) (clip earlier : value) :
  Database_shape db = true ->
  field db "clips" = Some (VArr cs) ->
  cs !! i = Some clip ->
  posted_of clip = false ->
  (forall (k : nat) c, (k < i)%nat -> cs !! k = Some c -> posted_of c = true) ->
  (j < i)%nat ->
  cs !! j = Some earlier ->
  field earlier "id" = field clip "id" ->
  getNextClip db = Ok clip
  /\ exists db' cs',
      markAsPosted w db (field clip "id") st = (Ok db', tick st)
      /\ field db' "clips" = Some (VArr cs')
      /\ cs' !! i = Some clip
      /\ getNextClip db' = Ok clip.
Proof.
  intros H Hcs Hi Hun Hbefore Hji Hj Hsame.
  pose proof (Database_shape_Forall _ cs H Hcs) as Hshape.
  assert (Esel : list_find (fun c => negb (posted_of c) = true) cs = Some (i, clip)).
  { apply list_find_Some. split; [done|]. split; [by rewrite Hun|].
    intros k c Hc Hk. by rewrite (Hbefore k c Hk Hc). }
  split; [by rewrite (getNextClip_list_find db cs H Hcs), Esel|].
  pose proof (markAsPosted_first_match w db cs (field clip "id") st H Hcs) as Hm.
  destruct (list_find (fun c => id_matches (field clip "id") c = true) cs)
    as [[m cm]|] eqn:E.
  - destruct Hm as (props & cprops & -> & -> & ->).
    apply list_find_Some in E as (Hm & _ & Hfirst).
    assert (Hmj : (m <= j)%nat).
    { destruct (decide (m <= j)%nat) as [|Hgt]; [done|].
      destruct (Hfirst j earlier Hj); [lia|].
      apply id_matches_iff; [|done].
      rewrite Forall_forall in Hshape. by eapply Hshape, list_elem_of_lookup_2. }
    set (cm' := VObj (assign "post_date" _ (assign "posted" (VBool true) cprops))).
    set (cs' := <[m := cm']> cs).
    assert (Hp' : posted_of cm' = true) by apply marked_clip_posted.
    assert (Hshape' : Forall (fun c => Clip_shape c = true) cs').
    { apply Forall_insert; [done|]. apply marked_clip_shape.
      rewrite Forall_forall in Hshape. by eapply Hshape, list_elem_of_lookup_2. }
    assert (Hdb' : Database_shape (VObj (assign "clips" (VArr cs') props)) = true)
      by by apply Database_shape_with_clips.
    assert (Hcs' : field (VObj (assign "clips" (VArr cs') props)) "clips"
                   = Some (VArr cs')) by (cbn [field]; apply assoc_assign_eq).
    assert (Hi' : cs' !! i = Some clip).
    { unfold cs'. rewrite list_lookup_insert_ne by lia. done. }
    exists (VObj (assign "clips" (VArr cs') props)), cs'.
    split; [done|]. split; [done|]. split; [done|].
    rewrite (getNextClip_list_find _ cs' Hdb' Hcs').
    assert (E' : list_find (fun c => negb (posted_of c) = true) cs' = Some (i, clip)).
    { apply list_find_Some. split; [done|]. split; [by rewrite Hun|].
      intros k c Hc Hk. unfold cs' in Hc. destruct (decide (k = m)) as [->|Hne].
      - rewrite list_lookup_insert_eq in Hc by by eapply lookup_lt_Some.
        injection Hc as <-. by rewrite Hp'.
      - rewrite list_lookup_insert_ne in Hc by done. by rewrite (Hbefore k c Hk Hc). }
    by rewrite E'.
  - apply list_find_None in E. rewrite Forall_forall in E.
    destruct (E earlier (list_elem_of_lookup_2 _ _ _ Hj)).
    apply id_matches_iff; [|done].
    rewrite Forall_forall in Hshape. by eapply Hshape, list_elem_of_lookup_2.
Qed.

(** The record with a repeated identifier. *)
Lemma repeated_identifier_scenario :
  getNextClip duplicate_db = Ok (banana_stand "ad_s01e01_001" false VNull)
  /\ exists db' cs',
      markAsPosted calm duplicate_db
        (field (banana_stand "ad_s01e01_001" false VNull) "id") scenario_start
      = (Ok db', tick scenario_start)
      /\ field db' "clips" = Some (VArr cs')
      /\ cs' !! 1%nat = Some (banana_stand "ad_s01e01_001" false VNull)
      /\ getNextClip db' = Ok (banana_stand "ad_s01e01_001" false VNull).
Proof.
  apply (repeated_identifier_blocks_queue calm duplicate_db
           [banana_stand "ad_s01e01_001" true (VStr "2023-11-12T15:00:00.000Z");
            banana_stand "ad_s01e01_001" false VNull]
           scenario_start 1 0 (banana_stand "ad_s01e01_001" false VNull)
           (banana_stand "ad_s01e01_001" true (VStr "2023-11-12T15:00:00.000Z")));
    try reflexivity; [|lia].
  intros k c Hk Hc. destruct k as [|k]; [|lia]. by injection Hc as <-.
Defined.

(** ** The two clock readings of a successful run *)

Lemma postClip_ok w clip st u st' :
  postClip w clip st = (Ok u, st') ->
  ticks st' = S (ticks st) /\ disk st' = disk st
  /\ exists new p,
      trace st' = (trace st ++ new)%list
      /\ EvPost p true ∈ new
      /\ createdAt p = toISOString w (clock w (S (ticks st))).
Proof.
  intros H. exec_postClip H.
  all: injection H as <- <-; cbn [ticks disk trace record_event tick].
  all: split; [done|]; split; [done|]; eexists _, _.
  all: split; [rewrite <- !app_assoc; reflexivity|].
  all: split; [do 7 apply list_elem_of_further; apply list_elem_of_here|reflexivity].
Qed.

(** The steps of a run that ends normally on a well-shaped record with a
    clip to post. *)
Lemma successful_run_steps w st st' text db cs :
  disk st !! DATABASE_PATH = Some (File text) ->
  JSON_parse text = Ok db ->
  Database_shape db = true ->
  field db "clips" = Some (VArr cs) ->
  (exists c, c ∈ cs /\ posted_of c = false) ->
  main w st = (Ok tt, st') ->
  exists (i : nat) clip s0 s1 s2 db',
    cs !! i = Some clip /\ posted_of clip = false
    /\ (forall (j : nat) c, (j < i)%nat -> cs !! j = Some c -> posted_of c = true)
    /\ ticks s0 = ticks st /\ disk s0 = disk st
    /\ (exists pre, trace s0 = (trace st ++ pre)%list)
    /\ postClip w clip s0 = (Ok tt, s1)
    /\ markAsPosted w db (field clip "id") s1 = (Ok db', s2)
    /\ saveDatabase w db' s2
       = (Ok tt, {| disk := disk st'; ticks := ticks st';
                    trace := trace s2 ++ [EvWrite DATABASE_PATH (JSON_stringify db')] |})
    /\ trace st' = (trace s2 ++ [EvWrite DATABASE_PATH (JSON_stringify db');
                                 EvLog ("✓ Database updated" +:+ String LF "")])%list.
Proof.
  intros Hdisk Hparse Hshape Hcs Hsome H.
  pose proof (Database_shape_Forall db cs Hshape Hcs) as Hall.
  rewrite Forall_forall in Hall.
  unfold main, loadDatabase, existsSync, readFileSync in H. unfold_monad H.
  step H. rewrite Hdisk in H. step H. rewrite Hdisk in H. cbv beta iota in H.
  rewrite Hparse, (clips_of_shape db cs Hshape Hcs) in H. cbv beta iota in H.
  rewrite (getNextClip_list_find db cs Hshape Hcs) in H.
  destruct (list_find _ cs) as [[i clip]|] eqn:Efind; steps H.
  - apply list_find_Some in Efind as (Hi & _ & _).
    apply list_elem_of_lookup_2, Hall, Clip_shape_obj in Hi as [props ->].
    discriminate.
  - apply list_find_Some in Efind as (Hi & Hun & Hbefore).
    apply negb_true_iff in Hun.
    pose proof (list_elem_of_lookup_2 _ _ _ Hi) as Hin.
    destruct (Clip_shape_obj clip (Hall _ Hin)) as [cprops ->].
    cbn [get] in *. simplify_eq.
    repeat match goal with u : () |- _ => destruct u end.
    match goal with
    | Hs : saveDatabase _ _ _ = (_, ?s3) |- _ =>
        pose proof (saveDatabase_summary _ _ _ _ _ Hs) as (Hts & _)
    end.
    match goal with Hp : postClip _ _ _ = _ |- _ => rename Hp into HP end.
    match goal with Hm : markAsPosted _ _ _ _ = _ |- _ => rename Hm into HM end.
    match goal with Hs : saveDatabase _ _ _ = _ |- _ => rename Hs into HS end.
    eexists i, (VObj cprops), _, _, _, _.
    split; [done|]. split; [done|]. split.
    { intros j c Hj Hc. specialize (Hbefore j c Hc Hj). by destruct (posted_of c). }
    refine (conj _ (conj _ (conj _ (conj HP (conj HM _))))).
    + done.
    + done.
    + cbn [trace record_event]. rewrite <- !app_assoc. by eexists.
    + cbn [ticks disk trace record_event]. split.
      * rewrite HS. destruct s1 as [d1 k1 t1]. cbn [disk ticks trace] in *. by rewrite Hts.
      * rewrite Hts, <- app_assoc. reflexivity.
  - apply list_find_None in Efind. rewrite Forall_forall in Efind.
    destruct Hsome as (c & Hc & Hun). destruct (Efind c Hc). by rewrite Hun.
Qed.

Lemma saveDatabase_ticks w db st r st' :
  saveDatabase w db st = (r, st') -> ticks st' = ticks st.
Proof.
  intros H. unfold saveDatabase, writeFileSync, set_disk in H. unfold_monad H.
  steps H; by injection H as <- <-.
Qed.

(** X16. A run that ends normally after publishing has read the clock
    exactly twice: the post carries the first reading as [createdAt], and
    the [post_date] saved in the record is the second reading. *)
Theorem post_date_is_second_reading (w : World) (st st' : State) (text : string)
  (db : value) (cs : list value) :
  disk st !! DATABASE_PATH = Some (File text) ->
  JSON_parse text = Ok db ->
  Database_shape db = true ->
  field db "clips" = Some (VArr cs) ->
  (exists c, c ∈ cs /\ posted_of c = false) ->
  main w st = (Ok tt, st') ->
  ticks st' = S (S (ticks st))
  /\ (exists p,
        EvPost p true ∈ effects (main w) st
        /\ createdAt p = toISOString w (clock w (S (ticks st))))
  /\ exists db' cs' (j : nat) marked,
      disk st' !! DATABASE_PATH = Some (File (JSON_stringify db'))
      /\ field db' "clips" = Some (VArr cs')
      /\ cs' !! j = Some marked
      /\ field marked "post_date"
         = Some (VStr (toISOString w (clock w (S (S (ticks st)))))).
Proof.
  intros Hdisk Hparse Hshape Hcs Hsome H.
  destruct (successful_run_steps w st st' text db cs Hdisk Hparse Hshape Hcs Hsome H)
    as (i & clip & s0 & s1 & s2 & db' & Hi & _ & _ & Hk0 & Hd0 & (pre & Ht0)
        & HP & HM & HS & Ht').
  destruct (postClip_ok w clip s0 tt s1 HP) as (Hk1 & Hd1 & new & p & Ht1 & Hp & Hcreated).
  pose proof (markAsPosted_trace w db _ s1 _ s2 HM) as Ht2.
  pose proof (markAsPosted_first_match w db cs (field clip "id") s1 Hshape Hcs) as Hm.
  pose proof (Database_shape_Forall db cs Hshape Hcs) as Hall.
  rewrite Forall_forall in Hall.
  pose proof (list_elem_of_lookup_2 _ _ _ Hi) as Hin.
  destruct (list_find (fun c => id_matches (field clip "id") c = true) cs)
    as [[j cj]|] eqn:E.
  2:{ apply list_find_None in E. rewrite Forall_forall in E.
      destruct (E clip Hin). apply id_matches_iff; [by apply Hall|done]. }
  destruct Hm as (props & cprops & -> & -> & Hm).
  rewrite Hm in HM. injection HM as <- <-.
  apply list_find_Some in E as (Hj & _ & _).
  pose proof (saveDatabase_ticks _ _ _ _ _ HS) as Hk3.
  pose proof (saveDatabase_ok _ _ _ _ HS) as Hd3.
  cbn [ticks disk tick] in Hk3, Hd3.
  split; [rewrite Hk3, Hk1, Hk0; done|]. split.
  - exists p. split; [|by rewrite Hcreated, Hk0].
    unfold effects. rewrite H. cbn [snd]. rewrite Ht'. cbn [trace tick].
    rewrite Ht1, Ht0, <- !app_assoc, drop_trace.
    apply elem_of_app. right. apply elem_of_app. by left.
  - eexists _, _, j, _. split; [rewrite Hd3; apply lookup_insert_eq|].
    split; [cbn [field]; apply assoc_assign_eq|].
    split; [apply list_lookup_insert_eq; by eapply lookup_lt_Some|].
    cbn [field]. rewrite assoc_assign_eq. by rewrite Hk1, Hk0.
Qed.

(** The two readings of the scenario. *)
Lemma post_date_is_second_reading_scenario :
  ticks (snd (main calm scenario_start)) = S (S (ticks scenario_start))
  /\ (exists p,
        EvPost p true ∈ effects (main calm) scenario_start
        /\ createdAt p
           = toISOString calm (clock calm (S (ticks scenario_start))))
  /\ exists db' cs' (j : nat) marked,
      disk (snd (main calm scenario_start)) !! DATABASE_PATH
      = Some (File (JSON_stringify db'))
      /\ field db' "clips" = Some (VArr cs')
      /\ cs' !! j = Some marked
      /\ field marked "post_date"
         = Some (VStr (toISOString calm (clock calm (S (S (ticks scenario_start)))))).
Proof.
  apply (post_date_is_second_reading calm scenario_start (snd (main calm scenario_start))
           (JSON_stringify scenario_db) scenario_db
           [chicken_dance true (VStr "2023-11-12T15:00:00.000Z");
            her true (VStr "2023-11-13T15:00:00.000Z");
            banana_stand "ad_s01e01_001" false VNull]).
  - by vm_compute.
  - by vm_compute.
  - reflexivity.
  - reflexivity.
  - exists (banana_stand "ad_s01e01_001" false VNull). split; [|reflexivity].
    do 2 apply list_elem_of_further. apply list_elem_of_here.
  - by vm_compute.
Defined.

(** ** What the next run loads *)

Lemma in_fragment_field props k v :
  in_fragment (VObj props) -> assoc k props = Some v -> in_fragment v.
Proof.
  rewrite in_fragment_members. intros [_ Hall]. 
  induction Hall as [|[k0 v0] ps [_ Hv] _ IH]; cbn [assoc]; [done|].
  destruct (String.eqb k k0); [by intros [= <-]|exact IH].
Qed.

(** The database with one clip marked stays in the fragment when the
    date is written in ASCII. *)
Lemma marked_db_fragment props cs (i : nat) cprops date :
  in_fragment (VObj props) ->
  assoc "clips" props = Some (VArr cs) ->
  cs !! i = Some (VObj cprops) ->
  ascii_only date = true ->
  in_fragment
    (VObj (assign "clips"
             (VArr (<[i := VObj (assign "post_date" (VStr date)
                                   (assign "posted" (VBool true) cprops))]> cs))
             props)).
Proof.
  intros Hdb Hcs Hi Hdate.
  pose proof (in_fragment_field props "clips" _ Hdb Hcs) as Hq.
  apply in_fragment_items in Hq.
  apply assign_fragment; [done| |done].
  apply in_fragment_items, Forall_insert; [done|].
  apply assign_fragment; [done|done|].
  apply assign_fragment; [done|done|].
  rewrite Forall_forall in Hq. by eapply Hq, list_elem_of_lookup_2.
Qed.

(** X17. After a run that ends normally on a well-shaped record with unique
    identifiers, [loadDatabase] returns a well-shaped database in which one
    more clip is posted (the date being written in ASCII): what the run
    saved is what the next run loads. *)
Theorem next_run_loads_the_mark (w : World) (st st' : State) (text : string)
  (db : value) (cs : list value) :
  disk st !! DATABASE_PATH = Some (File text) ->
  JSON_parse text = Ok db ->
  Database_shape db = true ->
  field db "clips" = Some (VArr cs) ->
  NoDup (ids_of cs) ->
  (exists c, c ∈ cs /\ posted_of c = false) ->
  ascii_only (toISOString w (clock w (S (S (ticks st))))) = true ->
  main w st = (Ok tt, st') ->
  exists db' cs',
    fst (loadDatabase st') = Ok db'
    /\ Database_shape db' = true
    /\ field db' "clips" = Some (VArr cs')
    /\ length (filter (fun c => posted_of c = true) cs')
       = S (length (filter (fun c => posted_of c = true) cs)).
Proof.
  intros Hdisk Hparse Hshape Hcs Hnd Hsome Hascii H.
  destruct (successful_run_steps w st st' text db cs Hdisk Hparse Hshape Hcs Hsome H)
    as (i & clip & s0 & s1 & s2 & db' & Hi & Hun & _ & Hk0 & Hd0 & _
        & HP & HM & HS & _).
  destruct (postClip_ok w clip s0 tt s1 HP) as (Hk1 & _).
  destruct (markAsPosted_match w db cs (field clip "id") s1 i clip Hshape Hcs Hi eq_refl
              (unique_id_first_match cs i clip Hnd Hi))
    as (props & cprops & -> & -> & Hm).
  rewrite Hm in HM. injection HM as <- <-.
  pose proof (saveDatabase_ok _ _ _ _ HS) as Hd3. cbn [disk] in Hd3.
  pose proof (Database_shape_Forall _ cs Hshape Hcs) as Hall.
  rewrite Hk1, Hk0 in *.
  eexists _, _. split; [|split; [|split]].
  - rewrite (loadDatabase_present st' (JSON_stringify _))
      by (rewrite Hd3; apply lookup_insert_eq).
    cbn [fst]. apply JSON_parse_stringify.
    apply marked_db_fragment; [by apply (JSON_parse_fragment text)|done|done|done].
  - apply Database_shape_with_clips, Forall_insert; [done|].
    apply marked_clip_shape. rewrite Forall_forall in Hall.
    by eapply Hall, list_elem_of_lookup_2.
  - cbn [field]. apply assoc_assign_eq.
  - apply (count_posted_insert cs i (VObj cprops)); [done|done|].
    apply marked_clip_posted.
Qed.

(** Loading after the run of the scenario. *)
Lemma next_run_loads_the_mark_scenario :
  exists db' cs',
    fst (loadDatabase (snd (main calm scenario_start))) = Ok db'
    /\ Database_shape db' = true
    /\ field db' "clips" = Some (VArr cs')
    /\ length (filter (fun c => posted_of c = true) cs')
       = S (length (filter (fun c => posted_of c = true)
                      [chicken_dance true (VStr "2023-11-12T15:00:00.000Z");
                       her true (VStr "2023-11-13T15:00:00.000Z");
                       banana_stand "ad_s01e01_001" false VNull])).
Proof.
  apply (next_run_loads_the_mark calm scenario_start (snd (main calm scenario_start))
           (JSON_stringify scenario_db) scenario_db
           [chicken_dance true (VStr "2023-11-12T15:00:00.000Z");
            her true (VStr "2023-11-13T15:00:00.000Z");
            banana_stand "ad_s01e01_001" false VNull]).
  - by vm_compute.
  - by vm_compute.
  - reflexivity.
  - reflexivity.
  - repeat (apply NoDup_cons; split;
            [intros Hin; repeat (apply elem_of_cons in Hin as [Hin|Hin];
                                 [discriminate Hin|]); by apply elem_of_nil in Hin|]).
    apply NoDup_nil_2.
  - exists (banana_stand "ad_s01e01_001" false VNull). split; [|reflexivity].
    do 2 apply list_elem_of_further. apply list_elem_of_here.
  - by vm_compute.
  - by vm_compute.
Defined.

(** ** Saving and loading *)

Lemma saveDatabase_written w db st :
  disk st !! DATABASE_PATH <> Some Directory ->
  write_fault_of w DATABASE_PATH (JSON_stringify db) = NoFault ->
  saveDatabase w db st
  = (Ok tt,
     {| disk := <[DATABASE_PATH := File (JSON_stringify db)]> (disk st);
        ticks := ticks st;
        trace := trace st ++ [EvWrite DATABASE_PATH (JSON_stringify db)] |}).
Proof.
  intros Hdir Hfault. unfold saveDatabase, writeFileSync, bind, emit, set_disk.
  cbn [disk ticks trace record_event]. rewrite Hfault.
  by destruct (disk st !! DATABASE_PATH) as [[]|].
Qed.

(** X18. Saving a database and loading it back returns the database that
    was saved, for every value of the JSON fragment, when the write goes
    through. *)
Theorem save_then_load (w : World) (db : value) (st : State) :
  in_fragment db ->
  disk st !! DATABASE_PATH <> Some Directory ->
  write_fault_of w DATABASE_PATH (JSON_stringify db) = NoFault ->
  fst ((saveDatabase w db ;; loadDatabase) st) = Ok db.
Proof.
  intros Hdb Hdir Hfault. unfold bind at 1.
  rewrite (saveDatabase_written w db st Hdir Hfault).
  rewrite (loadDatabase_present _ (JSON_stringify db)) by apply lookup_insert_eq.
  cbn [fst]. by apply JSON_parse_stringify.
Qed.

(** Saving the database of the scenario on an empty disk. *)
Lemma save_then_load_scenario :
  fst ((saveDatabase calm scenario_db ;; loadDatabase) (start ∅)) = Ok scenario_db.
Proof.
  apply (save_then_load calm scenario_db (start ∅)).
  - unfold scenario_db, chicken_dance, her, banana_stand, clip_of.
    cbn [in_fragment map fst]. repeat split; try reflexivity.
    all: repeat (apply NoDup_cons; split;
                 [intros Hin; repeat (apply elem_of_cons in Hin as [Hin|Hin];
                                      [discriminate Hin|]); by apply elem_of_nil in Hin|]).
    all: apply NoDup_nil_2.
  - by vm_compute.
  - reflexivity.
Defined.

(** X19. A second load and save changes nothing: after one cycle the
    record is in the form [saveDatabase] writes, and the next cycle writes
    the same bytes. *)
Theorem load_then_save_settles (w : World) (st : State) (text : string) (db : value) :
  disk st !! DATABASE_PATH = Some (File text) ->
  JSON_parse text = Ok db ->
  write_fault_of w DATABASE_PATH (JSON_stringify db) = NoFault ->
  fst ((load_then_save w ;; load_then_save w) st) = Ok tt
  /\ disk (snd ((load_then_save w ;; load_then_save w) st))
     = disk (snd (load_then_save w st)).
Proof.
  intros Hdisk Hparse Hfault.
  assert (Hone : forall s t,
            disk s !! DATABASE_PATH = Some (File t) -> JSON_parse t = Ok db ->
            load_then_save w s
            = (Ok tt,
               {| disk := <[DATABASE_PATH := File (JSON_stringify db)]> (disk s);
                  ticks := ticks s;
                  trace := trace s ++ [EvExists DATABASE_PATH true;
                                       EvRead DATABASE_PATH;
                                       EvWrite DATABASE_PATH (JSON_stringify db)] |})).
  { intros s t Hs Ht. unfold load_then_save, bind.
    rewrite (loadDatabase_present s t Hs), Ht.
    rewrite (saveDatabase_written w db _) by (cbn [disk record_event]; congruence || done).
    cbn [disk ticks trace record_event]. by rewrite <- !app_assoc. }
  unfold bind. rewrite (Hone st text Hdisk Hparse).
  rewrite (Hone _ (JSON_stringify db)); cbn [disk fst snd].
  - split; [done|]. by rewrite insert_insert_eq.
  - apply lookup_insert_eq.
  - by apply (JSON_parse_fixpoint text).
Qed.

(** Two cycles on the compact record. *)
Lemma load_then_save_settles_compact :
  let st := start (disk_with compact_record []) in
  fst ((load_then_save calm ;; load_then_save calm) st) = Ok tt
  /\ disk (snd ((load_then_save calm ;; load_then_save calm) st))
     = disk (snd (load_then_save calm st)).
Proof.
  intros st.
  apply (load_then_save_settles calm st compact_record
           (VObj [("clips", VArr []); ("note", VStr "a/b")])); by vm_compute.
Defined.

(** ** Selection on a record of any shape *)

Lemma find_unposted_app before rest (i : nat) :
  Forall passed_over before ->
  find_from (fun clip => let* p := get (Some clip) "posted" in Ok (negb (truthy p)))
    i (before ++ rest)
  = find_from (fun clip => let* p := get (Some clip) "posted" in Ok (negb (truthy p)))
      (i + length before) rest.
Proof.
  intros H. revert i. induction H as [|c before [Hobj Hp] _ IH]; intros i.
  - by rewrite Nat.add_0_r.
  - destruct c; try discriminate Hobj. cbn [app find_from get rbind].
    cbn [field] in Hp. rewrite Hp. cbn [negb]. rewrite IH. cbn [length].
    f_equal. lia.
Qed.

(** X20. [getNextClip] on a record of any shape.  Without a [clips] array
    it throws a [TypeError].  It passes over the clips whose [posted] is
    truthy and returns the first object whose [posted] is falsy, a clip
    without the property included; it returns [null] when it has passed
    over every clip, and throws a [TypeError] when it reaches a [null]
    element. *)
Theorem getNextClip_on_any_record (props : list (string * value)) :
  ((forall cs, assoc "clips" props <> Some (VArr cs)) ->
   getNextClip (VObj props) = Throw TypeError)
  /\ (forall cs,
        assoc "clips" props = Some (VArr cs) -> Forall passed_over cs ->
        getNextClip (VObj props) = Ok VNull)
  /\ (forall before clip after,
        assoc "clips" props = Some (VArr (before ++ clip :: after)) ->
        Forall passed_over before ->
        is_object clip = true -> truthy (field clip "posted") = false ->
        getNextClip (VObj props) = Ok clip)
  /\ (forall before after,
        assoc "clips" props = Some (VArr (before ++ VNull :: after)) ->
        Forall passed_over before ->
        getNextClip (VObj props) = Throw TypeError).
Proof.
  unfold getNextClip, clips_of.
  change (get (Some (VObj props)) "clips") with (Ok (assoc "clips" props)).
  cbn [rbind]. split; [|split; [|split]].
  - intros Hno. destruct (assoc "clips" props) as [[]|]; try done.
    by destruct (Hno items).
  - intros cs -> Hall. cbn [rbind].
    pose proof (find_unposted_app cs [] 0 Hall) as E. rewrite app_nil_r in E.
    by rewrite E.
  - intros before clip after -> Hall Hobj Hun. cbn [rbind].
    rewrite (find_unposted_app before _ 0 Hall).
    destruct clip; try discriminate Hobj. cbn [find_from get rbind].
    cbn [field] in Hun. by rewrite Hun.
  - intros before after -> Hall. cbn [rbind].
    by rewrite (find_unposted_app before _ 0 Hall).
Qed.

(** A first clip whose [posted] is the string [no], then a clip without the
    property. *)
Lemma getNextClip_clip_without_flag :
  getNextClip
    (VObj [("clips", VArr [VObj [("id", VStr "a"); ("posted", VStr "no")];
                           VObj [("id", VStr "b")];
                           VObj [("id", VStr "c"); ("posted", VBool false)]])])
  = Ok (VObj [("id", VStr "b")]).
Proof.
  apply (proj1 (proj2 (proj2
           (getNextClip_on_any_record
              [("clips", VArr [VObj [("id", VStr "a"); ("posted", VStr "no")];
                               VObj [("id", VStr "b")];
                               VObj [("id", VStr "c"); ("posted", VBool false)]])])))
         [VObj [("id", VStr "a"); ("posted", VStr "no")]]
         (VObj [("id", VStr "b")])
         [VObj [("id", VStr "c"); ("posted", VBool false)]]).
  - reflexivity.
  - apply Forall_cons. split; [by split|]. apply Forall_nil_2.
  - reflexivity.
  - reflexivity.
Defined.

(** ** A clip without a file name *)

(** X21. A clip without a [filename] is published exactly as a clip whose
    file name is the word [undefined]: the media file looked for is
    [./clips/undefined]. *)
Theorem postClip_missing_filename (w : World) (props : list (string * value))
  (st : State) :
  assoc "filename" props = None ->
  postClip w (VObj props) st
  = postClip w (VObj (assign "filename" (VStr "undefined") props)) st.
Proof.
  intros Hnone. unfold postClip.
  change (get (Some (VObj props)) "filename") with (Ok (assoc "filename" props)).
  change (get (Some (VObj (assign "filename" (VStr "undefined") props))) "filename")
    with (Ok (assoc "filename" (assign "filename" (VStr "undefined") props))).
  change (get (Some (VObj (assign "filename" (VStr "undefined") props))) "quote")
    with (Ok (assoc "quote" (assign "filename" (VStr "undefined") props))).
  change (get (Some (VObj (assign "filename" (VStr "undefined") props))) "character")
    with (Ok (assoc "character" (assign "filename" (VStr "undefined") props))).
  change (get (Some (VObj (assign "filename" (VStr "undefined") props))) "description")
    with (Ok (assoc "description" (assign "filename" (VStr "undefined") props))).
  change (get (Some (VObj (assign "filename" (VStr "undefined") props))) "id")
    with (Ok (assoc "id" (assign "filename" (VStr "undefined") props))).
  rewrite assoc_assign_eq, !assoc_assign_ne by done. rewrite Hnone.
  reflexivity.
Qed.

(** A clip that has only an identifier. *)
Lemma postClip_missing_filename_example :
  postClip calm (VObj [("id", VStr "x")]) scenario_start
  = postClip calm (VObj (assign "filename" (VStr "undefined") [("id", VStr "x")]))
      scenario_start.
Proof.
  apply (postClip_missing_filename calm [("id", VStr "x")] scenario_start).
  reflexivity.
Defined.

(** ** The password reaches the service and nothing else *)

Lemma alike_bind {A B} (m1 m2 : M A) (k1 k2 : A -> M B) :
  alike m1 m2 -> (forall a, alike (k1 a) (k2 a)) -> alike (bind m1 k1) (bind m2 k2).
Proof.
  intros Hm Hk st1 st2 Hst. unfold bind.
  destruct (Hm st1 st2 Hst) as [Hr Hs].
  destruct (m1 st1) as [r1 s1], (m2 st2) as [r2 s2]. cbn [fst snd] in *. subst r2.
  destruct r1 as [a|e|c|]; [by apply Hk|done..].
Qed.

Lemma alike_try_catch {A} (m1 m2 : M A) (h1 h2 : exn -> M A) :
  alike m1 m2 -> (forall e, alike (h1 e) (h2 e)) ->
  alike (try_catch m1 h1) (try_catch m2 h2).
Proof.
  intros Hm Hh st1 st2 Hst. unfold try_catch.
  destruct (Hm st1 st2 Hst) as [Hr Hs].
  destruct (m1 st1) as [r1 s1], (m2 st2) as [r2 s2]. cbn [fst snd] in *. subst r2.
  destruct r1 as [a|e|c|]; [done|by apply Hh|done..].
Qed.

Lemma alike_emit e1 e2 :
  without_password e1 = without_password e2 -> alike (emit e1) (emit e2).
Proof.
  intros He st1 st2 (Hd & Hk & Ht). unfold emit, same_but_password.
  cbn [fst snd disk ticks trace record_event]. split; [done|].
  split; [done|]. split; [done|]. rewrite !map_app. cbn [map]. by rewrite Ht, He.
Qed.

Lemma alike_lift {A} (r : result A) : alike (lift r) (lift r).
Proof. by intros st1 st2 Hst. Qed.

Lemma alike_ret {A} (a : A) : alike (ret a) (ret a).
Proof. by intros st1 st2 Hst. Qed.

Lemma alike_existsSync path : alike (existsSync path) (existsSync path).
Proof.
  intros st1 st2 (Hd & Hk & Ht).
  unfold existsSync, bind, emit, ret, same_but_password, record_event.
  cbv beta zeta. cbn [fst snd disk ticks trace]. rewrite Hd. split; [done|].
  split; [done|]. split; [done|]. rewrite !map_app. by rewrite Ht.
Qed.

Lemma alike_readFileSync path : alike (readFileSync path) (readFileSync path).
Proof.
  intros st1 st2 (Hd & Hk & Ht).
  unfold readFileSync, bind, emit, same_but_password, record_event.
  cbv beta zeta. cbn [fst snd disk ticks trace]. rewrite Hd.
  destruct (disk st2 !! path) as [[]|]; cbn [fst snd disk ticks trace];
    (split; [done|]; split; [done|]; split; [done|]; rewrite !map_app; by rewrite Ht).
Qed.

Lemma alike_now_iso w : alike (now_iso w) (now_iso w).
Proof.
  intros st1 st2 (Hd & Hk & Ht). unfold now_iso, same_but_password.
  cbn [fst snd disk ticks trace tick]. by rewrite Hk.
Qed.

Lemma alike_writeFileSync w path data :
  alike (writeFileSync w path data) (writeFileSync w path data).
Proof.
  intros st1 st2 (Hd & Hk & Ht).
  unfold writeFileSync, bind, emit, set_disk, throw, lift, same_but_password,
    record_event.
  cbv beta zeta. cbn [fst snd disk ticks trace]. rewrite Hd.
  destruct (disk st2 !! path) as [[]|], (write_fault_of w path data);
    cbn [fst snd disk ticks trace];
    (split; [done|]; split; [done|]; split; [done|]; rewrite !map_app; by rewrite Ht).
Qed.

Lemma alike_markAsPosted w db clipId :
  alike (markAsPosted w db clipId) (markAsPosted w db clipId).
Proof.
  unfold markAsPosted.
  apply alike_bind; [apply alike_lift|]. intros cs.
  apply alike_bind; [apply alike_lift|]. intros [[i clip]|]; [|apply alike_ret].
  destruct (truthy (Some clip)); [|apply alike_ret].
  apply alike_bind; [apply alike_lift|]. intros clip1.
  apply alike_bind; [apply alike_now_iso|]. intros date.
  apply alike_bind; [apply alike_lift|]. intros clip2. apply alike_lift.
Qed.

(** Steps that are the same on both sides. *)
Ltac alike_step :=
  first [ apply alike_lift | apply alike_ret | apply alike_existsSync
        | apply alike_readFileSync | apply alike_now_iso
        | apply alike_markAsPosted | apply alike_writeFileSync
        | apply alike_emit; reflexivity
        | apply alike_bind; [|intros ?]
        | match goal with
          | |- alike (if ?b then _ else _) (if ?b then _ else _) => destruct b
          | |- alike (match ?x with _ => _ end) (match ?x with _ => _ end) => destruct x
          end ].

Lemma alike_postClip w p clip :
  agent_login w (BLUESKY_USERNAME w) p
  = agent_login w (BLUESKY_USERNAME w) (BLUESKY_APP_PASSWORD w) ->
  alike (postClip (with_password w p) clip) (postClip w clip).
Proof.
  intros Hlogin. unfold postClip, throw, console_log.
  cbn [with_password BLUESKY_USERNAME BLUESKY_APP_PASSWORD agent_login
       agent_uploadBlob agent_post].
  rewrite Hlogin.
  change (now_iso (with_password w p)) with (now_iso w).
  repeat alike_step.
Qed.

Lemma alike_main w p :
  truthy_env p = truthy_env (BLUESKY_APP_PASSWORD w) ->
  agent_login w (BLUESKY_USERNAME w) p
  = agent_login w (BLUESKY_USERNAME w) (BLUESKY_APP_PASSWORD w) ->
  alike (main (with_password w p)) (main w).
Proof.
  intros Htruthy Hlogin. unfold main, loadDatabase, process_exit, console_log, console_error.
  cbn [with_password BLUESKY_USERNAME BLUESKY_APP_PASSWORD].
  rewrite Htruthy.
  change (markAsPosted (with_password w p)) with (markAsPosted w).
  change (saveDatabase (with_password w p)) with (saveDatabase w).
  unfold saveDatabase.
  apply alike_try_catch; [|intros e; repeat alike_step].
  repeat first [ apply (alike_postClip w p _ Hlogin) | alike_step ].
Qed.

(** X22. Apart from the argument of [agent.login], nothing in a run depends
    on the password: with another password that is set or not as the first
    one is, and to which the service gives the same answer, the run has the
    same result, leaves the same disk, and has the same effects once the
    password is taken out of the login.  No console line, file access,
    upload or post carries anything of the password. *)
Theorem password_reaches_only_the_login (w : World) (p : option string) (st : State) :
  truthy_env p = truthy_env (BLUESKY_APP_PASSWORD w) ->
  agent_login w (BLUESKY_USERNAME w) p
  = agent_login w (BLUESKY_USERNAME w) (BLUESKY_APP_PASSWORD w) ->
  fst (main (with_password w p) st) = fst (main w st)
  /\ disk (snd (main (with_password w p) st)) = disk (snd (main w st))
  /\ map without_password (effects (main (with_password w p)) st)
     = map without_password (effects (main w) st).
Proof.
  intros Htruthy Hlogin.
  destruct (alike_main w p Htruthy Hlogin st st) as (Hr & Hd & _ & Ht); [done|].
  split; [done|]. split; [done|].
  unfold effects. by rewrite <- !skipn_map, Ht.
Qed.

(** The scenario with another password. *)
Lemma password_reaches_only_the_login_scenario :
  fst (main (with_password calm (Some "wxyz-wxyz-wxyz-wxyz")) scenario_start)
  = fst (main calm scenario_start)
  /\ disk (snd (main (with_password calm (Some "wxyz-wxyz-wxyz-wxyz")) scenario_start))
     = disk (snd (main calm scenario_start))
  /\ map without_password
       (effects (main (with_password calm (Some "wxyz-wxyz-wxyz-wxyz"))) scenario_start)
     = map without_password (effects (main calm) scenario_start).
Proof.
  apply (password_reaches_only_the_login calm (Some "wxyz-wxyz-wxyz-wxyz")
           scenario_start); reflexivity.
Defined.

(** ** The login comes first *)

(** X23. In a publish the media file is looked for, read, uploaded and
    posted only after the login was accepted: a rejected login ends the
    publish before it has touched the disk or sent anything. *)
Theorem postClip_logs_in_first (w : World) (clip : value) (st : State) :
  after_login false (effects (postClip w clip) st) = true.
Proof.
  destruct (postClip w clip st) as [r st'] eqn:H.
  assert (Hnew : exists new, trace st' = (trace st ++ new)%list
                             /\ after_login false new = true).
  { exec_postClip H. all: by leaf H. }
  destruct Hnew as (new & Ht & Hok).
  by rewrite (effects_app (postClip w clip) st new) by by rewrite H.
Qed.

(** ** Runs on a well-shaped record stay in the model *)

Lemma postClip_in_model w clip st :
  Clip_shape clip = true -> fst (postClip w clip st) <> OutOfModel.
Proof.
  intros Hshape.
  destruct (Clip_shape_fields clip Hshape)
    as ((id & Hid) & (f & Hf) & (q & Hq) & (ch & Hch) & _).
  destruct (Clip_shape_obj clip Hshape) as [props ->]. cbn [field] in *.
  destruct (postClip w (VObj props) st) as [r st'] eqn:H. cbn [fst].
  exec_postClip H.
  all: cbn [get rbind] in *; rewrite ?Hf, ?Hq, ?Hch, ?Hid in *; cbn [ToString] in *;
    simplify_eq.
  all: try (destruct (BLUESKY_USERNAME w); discriminate).
  all: done.
Qed.

(** X24. On a record that loads as a well-shaped database, the run ends
    normally or ends the process with status 1: nothing in such a run is
    left undescribed. *)
Theorem well_shaped_run_ends (w : World) (st : State) (text : string) (db : value) :
  disk st !! DATABASE_PATH = Some (File text) ->
  JSON_parse text = Ok db ->
  Database_shape db = true ->
  fst (main w st) = Ok tt \/ fst (main w st) = Exit 1.
Proof.
  intros Hdisk Hparse Hshape.
  destruct (Database_shape_clips db Hshape) as (dprops & cs & Hdb & Hcs & Hall).
  rewrite Forall_forall in Hall.
  destruct (main w st) as [r st'] eqn:H. cbn [fst].
  unfold main, loadDatabase, existsSync, readFileSync in H. unfold_monad H.
  step H; [injection H as <- <-; by right|].
  rewrite Hdisk in H. rewrite bool_decide_true in H by eauto.
  cbn [negb] in H. cbv beta iota in H. cbn [disk record_event] in H.
  rewrite ?Hdisk in H. cbv beta iota in H.
  rewrite Hparse, (clips_of_shape db cs Hshape Hcs) in H. cbv beta iota in H.
  rewrite (count_posted db cs Hshape Hcs) in H. cbv beta iota in H.
  rewrite (getNextClip_list_find db cs Hshape Hcs) in H.
  destruct (list_find _ cs) as [[i clip]|] eqn:Efind.
  - apply list_find_Some in Efind as (Hi & _ & _).
    pose proof (list_elem_of_lookup_2 _ _ _ Hi) as Hin.
    pose proof (Hall _ Hin) as Hclip.
    destruct (Clip_shape_fields clip Hclip)
      as ((id & Hid) & (f & Hf) & (q & Hq) & (ch & Hch) & _).
    destruct (Clip_shape_obj clip Hclip) as [props ->]. cbn [field] in *.
    cbv beta iota in H. cbn [truthy negb get rbind] in H.
    rewrite Hch, Hq, Hf, Hid in H. cbn [ToString] in H. cbv beta iota in H.
    match type of H with context [postClip w ?c ?s] =>
      pose proof (postClip_in_model w c s Hclip) as Hmodel;
      pose proof (postClip_no_exit w c s) as Hexit;
      destruct (postClip w c s) as [rp sp] eqn:Hp
    end.
    cbn [fst] in Hmodel. specialize (Hexit rp sp eq_refl).
    destruct rp as [u|e|c|]; [| |by destruct (Hexit c)|done].
    + match type of H with context [markAsPosted w db ?x sp] =>
        destruct (markAsPosted_own_id w db cs (VObj props) sp Hshape Hcs Hin) as [db' Hm]
      end.
      cbn [field] in Hm. rewrite Hid in Hm. rewrite Hm in H.
      steps H.
      all: try (match goal with
                | Hs : saveDatabase _ _ _ = _ |- _ =>
                    apply saveDatabase_summary in Hs as (_ & [?|[? ?]]); congruence
                end).
      all: injection H as <- <-; by eauto.
    + injection H as <- <-. by right.
  - cbv beta iota in H. cbn [truthy negb] in H. injection H as <- <-. by left.
Qed.

(** The run of the scenario. *)
Lemma well_shaped_run_ends_scenario :
  fst (main calm scenario_start) = Ok tt \/ fst (main calm scenario_start) = Exit 1.
Proof.
  apply (well_shaped_run_ends calm scenario_start (JSON_stringify scenario_db) scenario_db).
  - by vm_compute.
  - by vm_compute.
  - reflexivity.
Defined.

(** * The record is written only after a publish, and by one write *)

(** [saveDatabase] on a record that is a regular file, by the fault of
    the write. *)
Lemma saveDatabase_on_file w db st old :
  disk st !! DATABASE_PATH = Some (File old) ->
  saveDatabase w db st
  = match write_fault_of w DATABASE_PATH (JSON_stringify db) with
    | NoFault =>
        (Ok tt,
         {| disk := <[DATABASE_PATH := File (JSON_stringify db)]> (disk st);
            ticks := ticks st;
            trace := trace st ++ [EvWrite DATABASE_PATH (JSON_stringify db)] |})
    | OpenFails =>
        (Throw (FsError DATABASE_PATH),
         record_event (EvWrite DATABASE_PATH (JSON_stringify db)) st)
    | FailsAfter k =>
        (Throw (FsError DATABASE_PATH),
         {| disk := <[DATABASE_PATH
                      := File (String.substring 0 k (JSON_stringify db))]> (disk st);
            ticks := ticks st;
            trace := trace st ++ [EvWrite DATABASE_PATH (JSON_stringify db)] |})
    end.
Proof.
  intros Hfile. unfold saveDatabase, writeFileSync, bind, emit, set_disk, throw, lift.
  cbn [disk ticks trace record_event]. rewrite Hfile.
  by destruct (write_fault_of w DATABASE_PATH (JSON_stringify db)).
Qed.

Lemma not_written_in (new : list event) path data :
  existsb is_write new = false -> EvWrite path data ∈ new -> False.
Proof.
  intros Hno Hin.
  assert (existsb is_write new = true); [|congruence].
  apply existsb_elem_of. by exists (EvWrite path data).
Qed.

(** What a run has done once a post of its was accepted. *)
Lemma main_published w st p :
  EvPost p true ∈ effects (main w) st ->
  fst (main w st) <> OutOfModel ->
  exists text db clip s s' db',
    disk st !! DATABASE_PATH = Some (File text)
    /\ JSON_parse text = Ok db
    /\ getNextClip db = Ok clip
    /\ ticks s = S (ticks st)
    /\ markAsPosted w db (field clip "id") s = (Ok db', s')
    /\ (forall path data,
          EvWrite path data ∈ effects (main w) st ->
          path = DATABASE_PATH /\ data = JSON_stringify db')
    /\ match write_fault_of w DATABASE_PATH (JSON_stringify db') with
       | NoFault =>
           fst (main w st) = Ok tt
           /\ disk (snd (main w st))
              = <[DATABASE_PATH := File (JSON_stringify db')]> (disk st)
       | OpenFails =>
           fst (main w st) = Exit 1 /\ disk (snd (main w st)) = disk st
       | FailsAfter k =>
           fst (main w st) = Exit 1
           /\ disk (snd (main w st))
              = <[DATABASE_PATH
                  := File (String.substring 0 k (JSON_stringify db'))]> (disk st)
       end.
Proof.
  unfold effects. destruct (main w st) as [r st'] eqn:H. cbn [fst snd].
  intros Hin Hr.
  unfold main, loadDatabase, existsSync, readFileSync in H.
  unfold_monad H. steps H.
  all: try match goal with
       | HM : markAsPosted _ _ _ _ = _ |- _ =>
           pose proof (markAsPosted_summary _ _ _ _ _ _ _ _ ltac:(eassumption)
                         ltac:(eassumption) HM) as (HMt & HMd & HMr)
       end.
  all: try match goal with
       | HP : postClip _ _ _ = _ |- _ =>
           pose proof (postClip_summary _ _ _ _ _ HP) as (HPd & new & HPt & HPw & HPr)
       end.
  all: try discriminate.
  all: subst; cbn [trace disk ticks record_event tick] in *.
  all: try match goal with
       | Hs : saveDatabase _ _ ?s0 = _,
         Ho : disk _ !! DATABASE_PATH = Some (File ?c) |- _ =>
           rewrite (saveDatabase_on_file _ _ s0 c) in Hs by (rewrite HMd, HPd; exact Ho);
           destruct (write_fault_of w DATABASE_PATH _) eqn:Hfault in Hs;
           try discriminate Hs; simplify_eq
       end.
  all: try (injection H as <- <-); cbn [trace disk ticks record_event tick] in *;
    try done.
  all: repeat match goal with Ht : trace _ = _ |- _ => rewrite Ht in *; clear Ht end.
  all: rewrite <- ?app_assoc in Hin; rewrite ?drop_trace in Hin; cbn [app] in Hin.
  all: try (exfalso; members Hin; fail).
  all: try (exfalso; repeat (apply elem_of_cons in Hin as [Hin|Hin]; [discriminate Hin|]);
            first [ apply elem_of_app in Hin as [Hin|Hin];
                    [eapply not_posted_in; by eauto|members Hin]
                  | eapply not_posted_in; by eauto ]; fail).
  all: try never_exits.
  all: try (exfalso;
            match goal with
            | Hx : (exists db', _ = Ok db') \/ _ = OutOfModel |- _ =>
                destruct Hx as [[? ?]|?]; discriminate
            end).
  all: try (match goal with
            | Hx : _ /\ exists props, _ = VObj props |- _ =>
                destruct Hx as (_ & ? & ->)
            end; discriminate).
  all: destruct HPr as (_ & props & ->).
  all: match goal with
       | Hid : get (Some (VObj _)) "id" = Ok _ |- _ =>
           cbn [get] in Hid; injection Hid as <-
       end.
  all: match goal with
       | HP : postClip _ _ _ = (Ok ?u, _) |- _ =>
           destruct u; pose proof (postClip_ok _ _ _ _ _ HP) as (Hk & _);
           cbn [ticks record_event] in Hk
       end.
  all: match goal with
       | HM : markAsPosted _ ?d _ ?s1 = (Ok ?d', ?s2),
         Hp : JSON_parse ?c = Ok ?d, HP : postClip _ ?cl _ = _ |- _ =>
           exists c, d, cl, s1, s2, d'
       end.
  all: (split; [done|]); (split; [done|]); (split; [done|]); (split; [done|]).
  all: (split; [done|]); rewrite Hfault.
  all: split;
    [ intros path data Hw; rewrite <- !app_assoc, drop_trace in Hw; cbn [app] in Hw;
      repeat (apply elem_of_cons in Hw as [Hw|Hw]; [discriminate Hw|]);
      apply elem_of_app in Hw as [Hw|Hw]; [by destruct (not_written_in _ _ _ HPw Hw)|];
      apply elem_of_cons in Hw as [Hw|Hw]; [by injection Hw as -> ->|];
      members Hw
    | split; [done|]; by rewrite ?HMd, ?HPd ].
Qed.

(** C1, as amended.  In a run (that stays within the model)
    [writeFileSync] is called at most once and exactly when [agent.post]
    has been accepted; when no post has been accepted (the publish failed
    at some step, or never started) the disk at the end is the disk at the
    start.  When a post has been accepted, the one write is of the record
    and its text is the serialisation of what [markAsPosted] makes of the
    loaded database for the selected clip; the record is that text and the
    run ends normally when the write goes through, and when the write
    fails the run ends with status 1 and the record is as before (the file
    could not be opened) or cut short (the write failed on the way),
    although the clip is published. *)
Theorem save_only_after_publish (w : World) (st : State) :
  fst (main w st) <> OutOfModel ->
  exists new,
    trace (snd (main w st)) = (trace st ++ new)%list
    /\ (count_events is_write new <= 1)%nat
    /\ ((exists path data, EvWrite path data ∈ new)
        <-> (exists p, EvPost p true ∈ new))
    /\ ((~ exists p, EvPost p true ∈ new) -> disk (snd (main w st)) = disk st)
    /\ ((exists p, EvPost p true ∈ new) ->
        exists text db clip s s' db',
          disk st !! DATABASE_PATH = Some (File text)
          /\ JSON_parse text = Ok db
          /\ getNextClip db = Ok clip
          /\ ticks s = S (ticks st)
          /\ markAsPosted w db (field clip "id") s = (Ok db', s')
          /\ (forall path data,
                EvWrite path data ∈ new ->
                path = DATABASE_PATH /\ data = JSON_stringify db')
          /\ match write_fault_of w DATABASE_PATH (JSON_stringify db') with
             | NoFault =>
                 fst (main w st) = Ok tt
                 /\ disk (snd (main w st))
                    = <[DATABASE_PATH := File (JSON_stringify db')]> (disk st)
             | OpenFails =>
                 fst (main w st) = Exit 1 /\ disk (snd (main w st)) = disk st
             | FailsAfter k =>
                 fst (main w st) = Exit 1
                 /\ disk (snd (main w st))
                    = <[DATABASE_PATH
                        := File (String.substring 0 k (JSON_stringify db'))]> (disk st)
             end).
Proof.
  intros Hr.
  destruct (main_summary w st (fst (main w st)) (snd (main w st))
              (surjective_pairing _) Hr) as (new & Ht & Hc & Hiff & Hdisk).
  pose proof (effects_app (main w) st new Ht) as Heff.
  exists new. split; [done|]. split; [done|]. split; [split|split].
  - intros (path & data & Hin).
    assert (Hw : existsb is_write new = true).
    { apply existsb_elem_of. eauto. }
    rewrite Hiff in Hw. apply existsb_elem_of in Hw as (e & He & Hp).
    destruct e as [| | | | | | | |p []]; try discriminate. eauto.
  - intros (p & Hin).
    assert (Hp : existsb is_posted new = true).
    { apply existsb_elem_of. eauto. }
    rewrite <- Hiff in Hp. apply existsb_elem_of in Hp as (e & He & Hw).
    destruct e; try discriminate. eauto.
  - intros Hno. apply Hdisk. destruct (existsb is_posted new) eqn:E; [|done].
    apply existsb_elem_of in E as (e & He & Hp).
    destruct e as [| | | | | | | |p []]; try discriminate. destruct Hno. eauto.
  - intros (p & Hin). rewrite <- Heff in Hin |- *.
    exact (main_published w st p Hin Hr).
Qed.

(** The run of the scenario, in which the post is accepted and the record
    is written, and the same run with a service that rejects the post. *)
Lemma save_only_after_publish_scenario :
  (fst (main calm scenario_start) = Ok tt
   /\ exists new,
       trace (snd (main calm scenario_start)) = (trace scenario_start ++ new)%list
       /\ (count_events is_write new <= 1)%nat
       /\ ((exists path data, EvWrite path data ∈ new)
           <-> (exists p, EvPost p true ∈ new))
       /\ ((~ exists p, EvPost p true ∈ new) ->
           disk (snd (main calm scenario_start)) = disk scenario_start)
       /\ ((exists p, EvPost p true ∈ new) ->
           exists text db clip s s' db',
             disk scenario_start !! DATABASE_PATH = Some (File text)
             /\ JSON_parse text = Ok db
             /\ getNextClip db = Ok clip
             /\ ticks s = S (ticks scenario_start)
             /\ markAsPosted calm db (field clip "id") s = (Ok db', s')
             /\ (forall path data,
                   EvWrite path data ∈ new ->
                   path = DATABASE_PATH /\ data = JSON_stringify db')
             /\ match write_fault_of calm DATABASE_PATH (JSON_stringify db') with
                | NoFault =>
                    fst (main calm scenario_start) = Ok tt
                    /\ disk (snd (main calm scenario_start))
                       = <[DATABASE_PATH := File (JSON_stringify db')]>
                           (disk scenario_start)
                | OpenFails =>
                    fst (main calm scenario_start) = Exit 1
                    /\ disk (snd (main calm scenario_start)) = disk scenario_start
                | FailsAfter k =>
                    fst (main calm scenario_start) = Exit 1
                    /\ disk (snd (main calm scenario_start))
                       = <[DATABASE_PATH
                           := File (String.substring 0 k (JSON_stringify db'))]>
                           (disk scenario_start)
                end))
  /\ (fst (main rejecting_post scenario_start) = Exit 1
      /\ exists new,
          trace (snd (main rejecting_post scenario_start))
          = (trace scenario_start ++ new)%list
          /\ (count_events is_write new <= 1)%nat
          /\ ((exists path data, EvWrite path data ∈ new)
              <-> (exists p, EvPost p true ∈ new))
          /\ ((~ exists p, EvPost p true ∈ new) ->
              disk (snd (main rejecting_post scenario_start)) = disk scenario_start)).
Proof.
  assert (H1 : fst (main calm scenario_start) = Ok tt) by (by vm_compute).
  assert (H2 : fst (main rejecting_post scenario_start) = Exit 1) by (by vm_compute).
  split.
  - split; [exact H1|].
    apply (save_only_after_publish calm scenario_start). rewrite H1. discriminate.
  - split; [exact H2|].
    destruct (save_only_after_publish rejecting_post scenario_start)
      as (new & Ht & Hc & Hiff & Hdisk & _); [rewrite H2; discriminate|].
    exists new. by repeat split; try apply Hiff.
Defined.

(** A publish that has fully succeeded, and a record that is not written:
    the disk refuses the write, the run ends with status 1, and the record
    still lists the published clip as the next one to post. *)
Lemma publish_accepted_record_unwritten :
  (exists p, EvPost p true ∈ effects (main (failing_disk OpenFails)) scenario_start)
  /\ (exists data,
        EvWrite DATABASE_PATH data ∈ effects (main (failing_disk OpenFails)) scenario_start)
  /\ fst (main (failing_disk OpenFails) scenario_start) = Exit 1
  /\ disk (snd (main (failing_disk OpenFails) scenario_start)) = disk scenario_start
  /\ fst (loadDatabase (snd (main (failing_disk OpenFails) scenario_start)))
     = Ok scenario_db
  /\ getNextClip scenario_db = Ok (banana_stand "ad_s01e01_001" false VNull).
Proof.
  split; [|split; [|repeat split; by vm_compute]].
  - eexists. vm_compute. do 14 apply list_elem_of_further. apply list_elem_of_here.
  - eexists. vm_compute. do 16 apply list_elem_of_further. apply list_elem_of_here.
Qed.
